(** * Gong export: the video acquisition pipeline

    A shallow embedding of [src/utils/videoDownloader.js] (class
    [VideoDownloader]: [downloadVideo], [downloadVideosFromExtensiveCalls],
    [respectRateLimit]) and of [getSignedMediaUrl] from the API client
    ([src/api/gongExport.js]), with the refresh callback that
    [src/export.js] hands to the downloader, and the properties the
    specification states about them.

    The JavaScript code is effectful: it reads the clock, sleeps, touches
    the file system and talks to the network.  The embedding threads an
    explicit [World] (clock, existing paths, rate-limit state, request
    counter, trace) through every operation and takes the answers of the
    outside (HTTP responses, stream outcomes, [mkdir] failures, date
    parsing) from an immutable oracle [Env], indexed by the number of the
    request.  Every observable effect is appended to a time-stamped trace.

    What is left out: logging and the console progress bar (they decide
    nothing); the content of the files; errors of the response stream in
    the middle of a transfer (the code installs no handler for them).
    Times are whole milliseconds.  The self-call of [downloadVideo] is
    bounded by a budget ([fuel]); running out of it is a result of its
    own, [OutOfFuel], told apart from returning and from throwing. *)

From Stdlib Require Import ZArith Lia List Bool Ascii String.
From stdpp Require Import base strings pretty gmap list.
Import ListNotations.

Local Open Scope string_scope.
Local Open Scope Z_scope.
Local Open Scope list_scope.

(** ** JavaScript values and string helpers *)

Module Js.

(** Truthiness of a possibly absent string: [null], [undefined] and the
    empty string are falsy. *)
Definition truthy (s : option string) : option string :=
  match s with
  | Some "" => None
  | Some u => Some u
  | None => None
  end.

Definition is_truthy (s : option string) : bool :=
  match truthy s with Some _ => true | None => false end.

(** [a || b] on strings. *)
Definition or_else (s : option string) (d : string) : string :=
  match truthy s with Some u => u | None => d end.

(** Template-literal interpolation of a possibly undefined string.  (A
    key that holds [null] would be rendered "null"; the records below do
    not tell [null] from [undefined].) *)
Definition interpolate (s : option string) : string :=
  match s with Some u => u | None => "undefined" end.

(** [s.includes(pat)]. *)
Fixpoint includes (pat s : string) : bool :=
  String.prefix pat s ||
  match s with
  | EmptyString => false
  | String _ rest => includes pat rest
  end.

(** Last element of [s.split('/')]. *)
Fixpoint lastSegment_aux (acc s : string) : string :=
  match s with
  | EmptyString => acc
  | String c rest =>
      if Ascii.eqb c "/"%char then lastSegment_aux "" rest
      else lastSegment_aux (acc +:+ String c "") rest
  end.

Definition lastSegment (s : string) : string := lastSegment_aux "" s.

Definition is_upper (c : ascii) : bool :=
  let n := nat_of_ascii c in (65 <=? n)%nat && (n <=? 90)%nat.
Definition is_lower (c : ascii) : bool :=
  let n := nat_of_ascii c in (97 <=? n)%nat && (n <=? 122)%nat.
Definition is_digit (c : ascii) : bool :=
  let n := nat_of_ascii c in (48 <=? n)%nat && (n <=? 57)%nat.

Definition lower_char (c : ascii) : ascii :=
  if is_upper c then ascii_of_nat (nat_of_ascii c + 32) else c.

(** [s.toLowerCase()], on the ASCII letters. *)
Fixpoint toLowerCase (s : string) : string :=
  match s with
  | EmptyString => EmptyString
  | String c rest => String (lower_char c) (toLowerCase rest)
  end.

(** [s.replace(/[^a-z0-9]/gi, '_')]: every character that is not an
    ASCII letter or digit becomes an underscore.  Strings are byte
    strings here: a character outside ASCII gives one underscore per byte
    of its encoding, where JavaScript gives one per UTF-16 code unit. *)
Fixpoint replaceNonAlnum (s : string) : string :=
  match s with
  | EmptyString => EmptyString
  | String c rest =>
      String (if is_upper c || is_lower c || is_digit c then c else "_"%char)
             (replaceNonAlnum rest)
  end.

Definition is_space (c : ascii) : bool :=
  let n := nat_of_ascii c in
  (n =? 32)%nat || ((9 <=? n)%nat && (n <=? 13)%nat).

Fixpoint skip_spaces (s : string) : string :=
  match s with
  | String c rest => if is_space c then skip_spaces rest else s
  | EmptyString => EmptyString
  end.

(** Longest decimal prefix of [s]; [None] when [s] does not start with a
    digit. *)
Fixpoint digits (acc : option Z) (s : string) : option Z :=
  match s with
  | String c rest =>
      if is_digit c then
        let d := Z.of_nat (nat_of_ascii c - 48) in
        digits (Some (match acc with Some a => 10 * a + d | None => d end)) rest
      else acc
  | EmptyString => acc
  end.

(** [parseInt(s, 10)]; [None] is [NaN]. *)
Definition parseInt (s : string) : option Z :=
  match skip_spaces s with
  | String "-" rest => Z.opp <$> digits None rest
  | String "+" rest => digits None rest
  | t => digits None t
  end.

(** The delay Node's [setTimeout] really uses: a delay that is [NaN],
    below 1 or above 2^31-1 is replaced by 1 millisecond. *)
Definition timer_ms (d : option Z) : Z :=
  match d with
  | Some z => if (1 <=? z) && (z <=? 2147483647) then z else 1
  | None => 1
  end.

End Js.

(** ** Errors, results and the outside world *)

(** What the code inspects of a thrown value: [error.message],
    [error.response.status], [error.response.headers['retry-after']] and
    [error.code].  [status = None] means there is no [error.response]. *)
Record JsError := mkErr {
  message : string;
  status : option Z;
  retry_after : option string;
  code : option string }.

Definition plainError (msg : string) : JsError :=
  {| message := msg; status := None; retry_after := None; code := None |}.

Inductive GetResult :=
| GetOk
| GetFail (e : JsError).

(** Outcome of piping a response body into the destination file: the
    writer emits [finish], or [error]; an error may leave a partial file
    behind. *)
Inductive WriteResult :=
| WFinish
| WError (msg : string) (partial : bool).

(** The method / content-type combinations of the media endpoint. *)
Inductive Verb := PutOctetStream | PutTextPlain | Delete.

(** A response of the media endpoint: a 2xx answer with the [url] field of
    its body (absent when the body is empty or has no such field), or a
    rejected request. *)
Inductive ApiResult :=
| ApiOk (url : option string)
| ApiFail (e : JsError).

Inductive HookOutcome :=
| HookReturns (u : option string)
| HookThrows (e : JsError).

(** The answers of the outside, indexed by the number of the request. *)
Record Env := mkEnv {
  http_get : nat -> string -> option string -> GetResult;
  http_ms : nat -> nat;
  write_stream : nat -> string -> WriteResult;
  stream_ms : nat -> nat;
  mkdir_error : string -> option string;
  api_media : nat -> Verb -> string -> ApiResult;
  isoDate : string -> option string }.

(** ** Call records and download outcomes *)

(** A record of the extensive-calls endpoint, as far as the downloader
    reads it: [call.metaData.{id,title,started}] and
    [call.media.videoUrl], any of which may be missing. *)
Record MetaData := mkMetaData {
  md_id : option string;
  md_title : option string;
  md_started : option string }.

Record Media := mkMedia { videoUrl : option string }.

Record Call := mkCall {
  metaData : option MetaData;
  media : option Media }.

(** An entry of [downloadedFiles]. *)
Record Success := mkSuccess {
  callId : option string;
  title : string;
  filePath : string }.

(** An entry of [failedDownloads]: it carries either a [reason] or an
    [error] field. *)
Inductive FailDetail :=
| Reason (r : string)
| Error (msg : string).

Record Failure := mkFailure {
  f_callId : option string;
  f_title : string;
  f_detail : FailDetail }.

Inductive SleepKind := DailyLimit | Spacing | RetryAfter | Backoff.

Inductive Event :=
| EvMkdir (dir : string)
| EvAttempt (url : string) (retryCount : nat)
| EvGet (url : string) (auth : option string) (ok : bool)
| EvWrite (path : string) (ok : bool)
| EvSleep (why : SleepKind) (ms : Z)
| EvApi (verb : Verb) (callId : string) (ok : bool)
| EvHook (callId : string)
| EvSaveFailures (path : string) (failed : list Failure).

(** [this.rateLimit]. *)
Record RateLimit := mkRateLimit {
  callsPerSecond : Z;
  callsPerDay : Z;
  currentCalls : Z;
  resetTime : Z;
  lastCallTime : Z }.

Record World := mkWorld {
  now : Z;                      (* Date.now(), in milliseconds *)
  files : gset string;          (* paths for which fs.existsSync holds *)
  rateLimit : RateLimit;
  reqs : nat;                   (* requests issued so far *)
  trace : list (Z * Event) }.

Definition DAY : Z := 24 * 60 * 60 * 1000.

(** The [rateLimit] object the constructor builds at time [t]. *)
Definition initialRateLimit (t : Z) : RateLimit :=
  {| callsPerSecond := 2; callsPerDay := 10000; currentCalls := 0;
     resetTime := t + DAY; lastCallTime := 0 |}.

Definition log (e : Event) (w : World) : World :=
  {| now := now w; files := files w; rateLimit := rateLimit w;
     reqs := reqs w; trace := trace w ++ [(now w, e)] |}.

Definition advance (ms : Z) (w : World) : World :=
  {| now := now w + ms; files := files w; rateLimit := rateLimit w;
     reqs := reqs w; trace := trace w |}.

Definition set_rateLimit (rl : RateLimit) (w : World) : World :=
  {| now := now w; files := files w; rateLimit := rl;
     reqs := reqs w; trace := trace w |}.

Definition add_file (p : string) (w : World) : World :=
  {| now := now w; files := {[ p ]} ∪ files w; rateLimit := rateLimit w;
     reqs := reqs w; trace := trace w |}.

Definition next_req (w : World) : World :=
  {| now := now w; files := files w; rateLimit := rateLimit w;
     reqs := S (reqs w); trace := trace w |}.

Definition existsSync (p : string) (w : World) : bool :=
  bool_decide (p ∈ files w).

(** [await new Promise(resolve => setTimeout(resolve, d))]. *)
Definition sleep (why : SleepKind) (d : option Z) (w : World) : World :=
  advance (Js.timer_ms d) (log (EvSleep why (Js.timer_ms d)) w).

(** ** A state and exception monad with a recursion budget *)

Inductive Res (A : Type) : Type :=
| Ret (a : A)            (* the promise resolves *)
| Throw (e : JsError)    (* the promise rejects *)
| OutOfFuel.             (* the recursion budget of the model ran out *)

Arguments Ret {A} a.
Arguments Throw {A} e.
Arguments OutOfFuel {A}.

Definition M (A : Type) : Type := World -> Res A * World.

Definition ret {A} (a : A) : M A := fun w => (Ret a, w).

Definition throw {A} (e : JsError) : M A := fun w => (Throw e, w).

Definition bind {A B} (c : M A) (k : A -> M B) : M B :=
  fun w =>
    match c w with
    | (Ret a, w1) => k a w1
    | (Throw e, w1) => (Throw e, w1)
    | (OutOfFuel, w1) => (OutOfFuel, w1)
    end.

(** [try { c } catch (e) { h e }]. *)
Definition try_catch {A} (c : M A) (h : JsError -> M A) : M A :=
  fun w =>
    match c w with
    | (Throw e, w1) => h e w1
    | r => r
    end.

(** An effect that cannot fail. *)
Definition effect (f : World -> World) : M unit := fun w => (Ret tt, f w).

Declare Scope js_scope.
Delimit Scope js_scope with js.
Notation "x <- c ;; k" := (bind c (fun x => k))
  (at level 100, c at next level, right associativity) : js_scope.
Notation "c ;;; k" := (bind c (fun _ => k))
  (at level 100, right associativity) : js_scope.
Local Open Scope js_scope.

(** ** The API client: [getSignedMediaUrl] *)

Section Model.

Context (env : Env).

(** One request to [/v2/calls/{callId}/media]. *)
Definition apiRequest (verb : Verb) (callId : string) (w : World)
  : ApiResult * World :=
  let n := reqs w in
  let r := api_media env n verb callId in
  let ok := match r with ApiOk _ => true | ApiFail _ => false end in
  (r, advance (Z.of_nat (http_ms env n)) (next_req (log (EvApi verb callId ok) w))).

(** [response.data && response.data.url], when the request succeeded. *)
Definition bodyUrl (r : ApiResult) : option string :=
  match r with
  | ApiOk u => Js.truthy u
  | ApiFail _ => None
  end.

Definition getSignedMediaUrl (callId : string) : M (option string) :=
  fun w =>
    let (r1, w1) := apiRequest PutOctetStream callId w in
    match r1 with
    | ApiOk u =>
        match Js.truthy u with
        | Some url => (Ret (Some url), w1)
        | None => (Ret None, w1)       (* "No media URL found in response" *)
        end
    | ApiFail putError =>
        let (r2, w2) := apiRequest PutTextPlain callId w1 in
        match bodyUrl r2 with
        | Some url => (Ret (Some url), w2)
        | None =>
            let (r3, w3) := apiRequest Delete callId w2 in
            match bodyUrl r3 with
            | Some url => (Ret (Some url), w3)
            | None => (Throw putError, w3)   (* throw putError, rethrown by the outer catch *)
            end
        end
    end.

(** The callback [export.js] hands to the downloader: it wraps
    [getSignedMediaUrl] and turns every failure into [null]. *)
Definition exportRefreshCallback (callId : string) : M (option string) :=
  try_catch
    (u <- getSignedMediaUrl callId ;;
     ret (Js.truthy u))
    (fun _ => ret None).

(** ** The downloader *)

(** [refreshUrlCallback]: a caller-supplied function, known only by what it
    answers at each invocation, or the callback of [export.js]. *)
Inductive RefreshHook :=
| OpaqueHook (f : nat -> string -> HookOutcome)
| SignedUrlHook.

Record VideoDownloader := mkDownloader {
  apiKey : string;
  basicToken : string;
  customStoragePath : option string;
  refreshUrlCallback : option RefreshHook }.

Context (self : VideoDownloader).

Definition runHook (h : RefreshHook) (callId : string) : M (option string) :=
  match h with
  | OpaqueHook f =>
      fun w =>
        let n := reqs w in
        let w1 := advance (Z.of_nat (http_ms env n)) (next_req (log (EvHook callId) w)) in
        match f n callId with
        | HookReturns u => (Ret u, w1)
        | HookThrows e => (Throw e, w1)
        end
  | SignedUrlHook => exportRefreshCallback callId
  end.

(** [respectRateLimit].  Times are whole milliseconds; the quotient
    [1000 / callsPerSecond] is the JavaScript one whenever the rate
    divides 1000, which holds for the rate the constructor sets. *)
Definition minTimeBetweenCalls (rl : RateLimit) : Z :=
  1000 / callsPerSecond rl + 50.

Definition resetWindow (t : Z) (rl : RateLimit) : RateLimit :=
  {| callsPerSecond := callsPerSecond rl; callsPerDay := callsPerDay rl;
     currentCalls := 0; resetTime := t + DAY; lastCallTime := lastCallTime rl |}.

Definition clearCalls (rl : RateLimit) : RateLimit :=
  {| callsPerSecond := callsPerSecond rl; callsPerDay := callsPerDay rl;
     currentCalls := 0; resetTime := resetTime rl; lastCallTime := lastCallTime rl |}.

Definition recordCall (t : Z) (rl : RateLimit) : RateLimit :=
  {| callsPerSecond := callsPerSecond rl; callsPerDay := callsPerDay rl;
     currentCalls := currentCalls rl + 1; resetTime := resetTime rl;
     lastCallTime := t |}.

Definition rl_resetIfElapsed (w : World) : World :=
  if now w >? resetTime (rateLimit w)
  then set_rateLimit (resetWindow (now w) (rateLimit w)) w
  else w.

Definition rl_waitForDay (w : World) : World :=
  if currentCalls (rateLimit w) >=? callsPerDay (rateLimit w)
  then
    let waitTime := resetTime (rateLimit w) - now w in
    let w1 := sleep DailyLimit (Some waitTime) w in
    set_rateLimit (clearCalls (rateLimit w1)) w1
  else w.

Definition rl_waitForSpacing (w : World) : World :=
  let timeSinceLastCall := now w - lastCallTime (rateLimit w) in
  if timeSinceLastCall <? minTimeBetweenCalls (rateLimit w)
  then sleep Spacing (Some (minTimeBetweenCalls (rateLimit w) - timeSinceLastCall)) w
  else w.

Definition respectRateLimit (w : World) : World :=
  let w1 := rl_waitForSpacing (rl_waitForDay (rl_resetIfElapsed w)) in
  set_rateLimit (recordCall (now w1) (rateLimit w1)) w1.

(** Where the files go.  [path.join] is taken on already normalised
    segments, where it is concatenation with a separator.  It is not
    normalised here: for a name that is empty or has [.] or [..] among
    its segments, the path below is not the one the program computes (a
    URL that ends in a slash, given no file name, makes the program's
    destination the storage directory itself). *)
Definition exportsDir : string := "exports".

Definition defaultDownloadsDir : string := "exports/videos".

Definition path_join (dir name : string) : string := dir +:+ "/" +:+ name.

Definition downloadsDir : string :=
  Js.or_else (customStoragePath self) defaultDownloadsDir.

(** The proper ancestors of a path, which [mkdirSync] with
    [recursive: true] creates along with it. *)
Fixpoint ancestors_aux (acc s : string) : list string :=
  match s with
  | EmptyString => []
  | String c rest =>
      if Ascii.eqb c "/"%char
      then (if String.eqb acc "" then [] else [acc])
             ++ ancestors_aux (acc +:+ "/") rest
      else ancestors_aux (acc +:+ String c "") rest
  end.

Definition ancestors (p : string) : list string := ancestors_aux "" p.

Definition add_files (ps : list string) (w : World) : World :=
  fold_right add_file w ps.

(** Lines 66-75: create the downloads directory if it does not exist. *)
Definition ensureDownloadsDir : M unit :=
  fun w =>
    if existsSync downloadsDir w then (Ret tt, w)
    else
      match mkdir_error env downloadsDir with
      | None =>
          (Ret tt, log (EvMkdir downloadsDir)
                       (add_files (downloadsDir :: ancestors downloadsDir) w))
      | Some msg =>
          (Throw (plainError ("Could not create downloads directory: " +:+ msg)), w)
      end.

(** One [axios] GET of the media, with or without an [Authorization]
    header. *)
Definition axiosGet (url : string) (auth : option string) (w : World)
  : GetResult * World :=
  let n := reqs w in
  let r := http_get env n url auth in
  let ok := match r with GetOk => true | GetFail _ => false end in
  (r, advance (Z.of_nat (http_ms env n)) (next_req (log (EvGet url auth ok) w))).

(** How one pass through the nested [try] blocks of [downloadVideo] ends:
    the file is written; the promise returned from inside the [try]
    rejects (a writer error, which no [catch] of [downloadVideo] sees,
    since the promise is returned without [await]); or the outer [catch]
    receives an error. *)
Inductive AttemptResult :=
| Saved
| Rejected (e : JsError)
| Caught (e : JsError).

(** [progressStream.pipe(writer)] and the promise built on the writer. *)
Definition pipeToFile (n : nat) (filePath : string) (w : World)
  : AttemptResult * World :=
  match write_stream env n filePath with
  | WFinish =>
      (Saved, advance (Z.of_nat (stream_ms env n))
                (log (EvWrite filePath true) (add_file filePath w)))
  | WError msg partial =>
      (Rejected (plainError msg),
       advance (Z.of_nat (stream_ms env n))
         (log (EvWrite filePath false)
            (if partial then add_file filePath w else w)))
  end.

Definition authHeader : string := "Basic " +:+ basicToken self.

(** Lines 97-250: the direct request, and on its failure the request with
    the platform's credentials. *)
Definition attempt (url filePath : string) (w : World) : AttemptResult * World :=
  let n1 := reqs w in
  let (r1, w1) := axiosGet url None w in
  match r1 with
  | GetOk => pipeToFile n1 filePath w1
  | GetFail directError =>
      let n2 := reqs w1 in
      let (r2, w2) := axiosGet url (Some authHeader) w1 in
      match r2 with
      | GetOk => pipeToFile n2 filePath w2
      | GetFail e => (Caught e, w2)
      end
  end.

(** The tests of the outer [catch]. *)
Definition is429 (e : JsError) : bool :=
  match status e with Some s => s =? 429 | None => false end.

Definition isS3Retryable (e : JsError) (url : string) : bool :=
  (match status e with
   | Some s => ((s =? 403) || (s =? 400) || (s =? 404))
               && Js.includes "s3.amazonaws.com" url
   | None => false
   end)
  || String.eqb (message e) "socket hang up"
  || match code e with
     | Some c => String.eqb c "ECONNRESET" || String.eqb c "ETIMEDOUT"
     | None => false
     end.

(** [parseInt(error.response.headers['retry-after'] || '60', 10) * 1000]. *)
Definition retryAfterSeconds (e : JsError) : option Z :=
  Js.parseInt (Js.or_else (retry_after e) "60").

Definition retryAfterMs (e : JsError) : option Z :=
  (fun s => s * 1000) <$> retryAfterSeconds e.

(** [retryDelay * Math.pow(2, retryCount)]. *)
Definition nextDelay (retryDelay : Z) (retryCount : nat) : Z :=
  retryDelay * 2 ^ Z.of_nat retryCount.

Definition defaultMaxRetries : nat := 3.
Definition defaultRetryDelay : Z := 2000.

(** What the outer [catch] (lines 251-305) decides on an error: sleep and
    call [downloadVideo] again with the given retry parameters, or settle
    the call. *)
Inductive CatchDecision :=
| Restart (why : SleepKind) (delay : option Z)
          (retryCount maxRetries : nat) (retryDelay : Z)
| Settle (r : Res (option string)).

Definition outerCatch (e : JsError) (url : string)
    (retryCount maxRetries : nat) (retryDelay : Z) : CatchDecision :=
  if is429 e then
    (* return this.downloadVideo(url, filename) *)
    Restart RetryAfter (retryAfterMs e) O defaultMaxRetries defaultRetryDelay
  else if isS3Retryable e url then
    if (retryCount <? maxRetries)%nat then
      Restart Backoff (Some (nextDelay retryDelay retryCount))
              (S retryCount) maxRetries retryDelay
    else Settle (Ret None)      (* "Access denied to S3 URL after ... retries" *)
  else
    if (retryCount <? maxRetries)%nat then
      Restart Backoff (Some (nextDelay retryDelay retryCount))
              (S retryCount) maxRetries retryDelay
    else Settle (Throw e).

(** The destination path, lines 77-83. *)
Definition destination (url : string) (filename : option string) : string :=
  path_join downloadsDir (Js.or_else filename (Js.lastSegment url)).

(** [downloadVideo(url, filename, retryCount, maxRetries, retryDelay)].
    [fuel] bounds the number of times the function calls itself. *)
Fixpoint downloadVideo (fuel : nat) (url filename : option string)
    (retryCount maxRetries : nat) (retryDelay : Z) (w : World)
  : Res (option string) * World :=
  match Js.truthy url with
  | None => (Ret None, w)                    (* "Cannot download from empty URL" *)
  | Some u =>
      match ensureDownloadsDir w with
      | (Throw e, w1) => (Throw e, w1)
      | (OutOfFuel, w1) => (OutOfFuel, w1)
      | (Ret _, w1) =>
          let fname := Js.or_else filename (Js.lastSegment u) in
          let filePath := destination u filename in
          if existsSync filePath w1 then (Ret (Some filePath), w1)
          else
            let w2 := log (EvAttempt u retryCount) (respectRateLimit w1) in
            match attempt u filePath w2 with
            | (Saved, w3) => (Ret (Some filePath), w3)
            | (Rejected e, w3) => (Throw e, w3)
            | (Caught e, w3) =>
                match outerCatch e u retryCount maxRetries retryDelay with
                | Settle r => (r, w3)
                | Restart why delay rc mr rd =>
                    let w4 := sleep why delay w3 in
                    match fuel with
                    | O => (OutOfFuel, w4)
                    | S fuel' =>
                        downloadVideo fuel' (Some u) (Some fname) rc mr rd w4
                    end
                end
            end
      end
  end.

(** ** The pipeline: [downloadVideosFromExtensiveCalls] *)

(** [call.metaData?.id] *)
Definition callIdOf (c : Call) : option string :=
  md ← metaData c; md_id md.

(** [call.metaData?.title || 'Unknown Call'] *)
Definition callTitleOf (c : Call) : string :=
  Js.or_else (md ← metaData c; md_title md) "Unknown Call".

(** [call.media.videoUrl], when [call.media] and it are truthy. *)
Definition videoUrlOf (c : Call) : option string :=
  Js.truthy (m ← media c; videoUrl m).

(** The [YYYY-MM-DD] part of the start time, or the empty string when
    there is none or [toISOString] throws. *)
Definition formattedDate (c : Call) : string :=
  match Js.truthy (md ← metaData c; md_started md) with
  | Some startedDateTime => default "" (isoDate env startedDateTime)
  | None => ""
  end.

Definition fileExt (url : string) : string :=
  if Js.includes ".mp4" (Js.toLowerCase url) then ".mp4"
  else if Js.includes ".webm" (Js.toLowerCase url) then ".webm"
  else ".mp4".

Definition filenameFor (c : Call) (url : string) : string :=
  (if String.eqb (formattedDate c) "" then "" else formattedDate c +:+ "_")
  +:+ Js.interpolate (callIdOf c) +:+ "_"
  +:+ Js.toLowerCase (Js.replaceNonAlnum (callTitleOf c))
  +:+ fileExt url.

(** Lines 367-379: ask the refresh hook, keep the embedded URL when there
    is no hook, no call id, no answer, or an exception. *)
Definition freshVideoUrl (c : Call) (embedded : string) : M string :=
  try_catch
    (match Js.truthy (callIdOf c), refreshUrlCallback self with
     | Some cid, Some hook =>
         refreshedUrl <- runHook hook cid ;;
         ret (Js.or_else refreshedUrl embedded)
     | _, _ => ret embedded
     end)
    (fun refreshError => ret embedded).

(** The two arrays the loop pushes to. *)
Record Acc := mkAcc {
  downloadedFiles : list Success;
  failedDownloads : list Failure }.

Definition pushSuccess (s : Success) (a : Acc) : Acc :=
  {| downloadedFiles := downloadedFiles a ++ [s];
     failedDownloads := failedDownloads a |}.

Definition pushFailure (f : Failure) (a : Acc) : Acc :=
  {| downloadedFiles := downloadedFiles a;
     failedDownloads := failedDownloads a ++ [f] |}.

(** The body of the [for] loop, lines 331-407. *)
Definition processCall (fuel : nat) (c : Call) (acc : Acc) : M Acc :=
  try_catch
    (match videoUrlOf c with
     | None =>
         ret (pushFailure
                {| f_callId := callIdOf c; f_title := callTitleOf c;
                   f_detail := Reason "No video URL in extensive call data" |} acc)
     | Some embedded =>
         let filename := filenameFor c embedded in
         fresh <- freshVideoUrl c embedded ;;
         path <- downloadVideo fuel (Some fresh) (Some filename)
                   O defaultMaxRetries defaultRetryDelay ;;
         match Js.truthy path with
         | Some p =>
             ret (pushSuccess
                    {| callId := callIdOf c; title := callTitleOf c;
                       filePath := p |} acc)
         | None =>
             ret (pushFailure
                    {| f_callId := callIdOf c; f_title := callTitleOf c;
                       f_detail := Reason "Download returned null" |} acc)
         end
     end)
    (fun error =>
       ret (pushFailure
              {| f_callId := Some (Js.or_else (callIdOf c) "unknown");
                 f_title := callTitleOf c;
                 f_detail := Error (message error) |} acc)).

Fixpoint forEachCall (fuel : nat) (calls : list Call) (acc : Acc) : M Acc :=
  match calls with
  | [] => ret acc
  | c :: rest =>
      acc' <- processCall fuel c acc ;;
      forEachCall fuel rest acc'
  end.

(** Lines 418-424: [fs.writeFileSync] of the failure list into the exports
    directory, which throws when that directory does not exist.  The
    timestamp in the file name is rendered as the clock value. *)
Definition failedPath (w : World) : string :=
  path_join exportsDir ("failed_video_downloads_" +:+ pretty (now w) +:+ ".json").

Definition saveFailedDownloads (failed : list Failure) : M unit :=
  fun w =>
    match failed with
    | [] => (Ret tt, w)
    | _ :: _ =>
        if existsSync exportsDir w
        then (Ret tt, log (EvSaveFailures (failedPath w) failed)
                          (add_file (failedPath w) w))
        else (Throw (plainError "ENOENT: no such file or directory"), w)
    end.

Definition emptyAcc : Acc := {| downloadedFiles := []; failedDownloads := [] |}.

(** [extensiveCalls] is [None] when the argument is not an array. *)
Definition downloadVideosFromExtensiveCalls (fuel : nat)
    (extensiveCalls : option (list Call)) : M (list Success) :=
  match extensiveCalls with
  | None => ret []
  | Some calls =>
      acc <- forEachCall fuel calls emptyAcc ;;
      saveFailedDownloads (failedDownloads acc) ;;;
      ret (downloadedFiles acc)
  end.

End Model.

Arguments downloadVideo env self fuel url filename retryCount maxRetries retryDelay w : simpl nomatch.

(** ** Projections of the trace *)

(** The media GETs: target, [Authorization] header, success. *)
Definition gets (tr : list (Z * Event)) : list (string * option string * bool) :=
  omap (fun te => match te.2 with
                  | EvGet u a ok => Some (u, a, ok)
                  | _ => None
                  end) tr.

(** The requests to the media endpoint of the API. *)
Definition apiCalls (tr : list (Z * Event)) : list Verb :=
  omap (fun te => match te.2 with
                  | EvApi v _ _ => Some v
                  | _ => None
                  end) tr.

(** The retry counters of the download attempts, and their start times. *)
Definition attempts (tr : list (Z * Event)) : list nat :=
  omap (fun te => match te.2 with
                  | EvAttempt _ rc => Some rc
                  | _ => None
                  end) tr.

Definition attempt_times (tr : list (Z * Event)) : list Z :=
  omap (fun te => match te.2 with
                  | EvAttempt _ _ => Some te.1
                  | _ => None
                  end) tr.

(** The sleeps of one kind, in milliseconds. *)
Definition sleeps (k : SleepKind) (tr : list (Z * Event)) : list Z :=
  omap (fun te => match te.2 with
                  | EvSleep k' ms =>
                      match k, k' with
                      | DailyLimit, DailyLimit | Spacing, Spacing
                      | RetryAfter, RetryAfter | Backoff, Backoff => Some ms
                      | _, _ => None
                      end
                  | _ => None
                  end) tr.

(** The directories created. *)
Definition mkdirs (tr : list (Z * Event)) : list string :=
  omap (fun te => match te.2 with
                  | EvMkdir d => Some d
                  | _ => None
                  end) tr.

(** The files written by a download. *)
Definition writes (tr : list (Z * Event)) : list string :=
  omap (fun te => match te.2 with
                  | EvWrite p _ => Some p
                  | _ => None
                  end) tr.


(** ** Small predicates used in the statements *)

(** The request was rejected. *)
Definition is_fail (r : ApiResult) : Prop :=
  match r with ApiFail _ => True | ApiOk _ => False end.

(** The events of kind [DailyLimit] and [Spacing] are the only ones the
    rate limiter emits. *)
Definition isLimiterSleep (te : Z * Event) : Prop :=
  match te.2 with
  | EvSleep DailyLimit _ | EvSleep Spacing _ => True
  | _ => False
  end.

(** Files are only ever added. *)
Definition filesGrow (w w' : World) : Prop := files w ⊆ files w'.

(** ** Concrete scenarios *)

Module Scenario.

Definition t0 : Z := 1700000000000.

Definition err (msg : string) (st : option Z) (cd : option string) : JsError :=
  {| message := msg; status := st; retry_after := None; code := cd |}.

Definition e403 : JsError := err "Request failed with status code 403" (Some 403) None.
Definition e405 : JsError := err "Request failed with status code 405" (Some 405) None.
Definition e500 : JsError := err "Request failed with status code 500" (Some 500) None.
Definition eReset : JsError := err "read ECONNRESET" None (Some "ECONNRESET").

Definition e429 (retryAfter : option string) : JsError :=
  {| message := "Request failed with status code 429"; status := Some 429;
     retry_after := retryAfter; code := None |}.

(** A well-behaved outside: every request succeeds, every stream finishes,
    directories can be created, the media endpoint answers without a URL.
    The other scenarios override one answer each. *)
Definition quietEnv : Env :=
  {| http_get := fun _ _ _ => GetOk;
     http_ms := fun _ => 100%nat;
     write_stream := fun _ _ => WFinish;
     stream_ms := fun _ => 1000%nat;
     mkdir_error := fun _ => None;
     api_media := fun _ _ _ => ApiOk None;
     isoDate := fun s => Some (substring 0 10 s) |}.

Definition withGet (g : nat -> string -> option string -> GetResult) (e : Env) : Env :=
  {| http_get := g; http_ms := http_ms e; write_stream := write_stream e;
     stream_ms := stream_ms e; mkdir_error := mkdir_error e;
     api_media := api_media e; isoDate := isoDate e |}.

Definition withApi (a : nat -> Verb -> string -> ApiResult) (e : Env) : Env :=
  {| http_get := http_get e; http_ms := http_ms e; write_stream := write_stream e;
     stream_ms := stream_ms e; mkdir_error := mkdir_error e;
     api_media := a; isoDate := isoDate e |}.

Definition withMkdirError (m : string -> option string) (e : Env) : Env :=
  {| http_get := http_get e; http_ms := http_ms e; write_stream := write_stream e;
     stream_ms := stream_ms e; mkdir_error := m;
     api_media := api_media e; isoDate := isoDate e |}.

(** Every media request is refused with 403. *)
Definition envForbidden : Env := withGet (fun _ _ _ => GetFail e403) quietEnv.

(** Every media request is answered 429 without a [Retry-After] header. *)
Definition envThrottled : Env := withGet (fun _ _ _ => GetFail (e429 None)) quietEnv.

(** The first two requests are answered 429 with [Retry-After: 120], the
    later ones succeed. *)
Definition envThrottledTwice : Env :=
  withGet (fun n _ _ => if (n <? 2)%nat then GetFail (e429 (Some "120")) else GetOk)
          quietEnv.

(** The storage directory cannot be created. *)
Definition envReadOnly : Env :=
  withMkdirError (fun _ => Some "EACCES: permission denied, mkdir") quietEnv.

(** The media endpoint: the first PUT is cut by a connection reset, the
    two fallbacks answer 200 with a body that has no [url]. *)
Definition envNoGrant : Env :=
  withApi (fun _ v _ => match v with
                        | PutOctetStream => ApiFail eReset
                        | _ => ApiOk None
                        end) quietEnv.

(** The media endpoint mints a signed URL at the first PUT. *)
Definition envSigned : Env :=
  withApi (fun _ _ cid => ApiOk (Some ("https://signed.example/" +:+ cid +:+ ".mp4")))
          quietEnv.

Definition downloader (hook : option RefreshHook) : VideoDownloader :=
  {| apiKey := "key"; basicToken := "a2V5OnNlY3JldA==";
     customStoragePath := None; refreshUrlCallback := hook |}.

(** A fresh downloader at time [t0]; only the exports directory exists. *)
Definition w0 : World :=
  {| now := t0; files := {[ "exports" ]}; rateLimit := initialRateLimit t0;
     reqs := 0; trace := [] |}.

Definition call (cid ttl : string) (url : option string) : Call :=
  {| metaData := Some {| md_id := Some cid; md_title := Some ttl;
                         md_started := Some "2024-03-01T10:00Z" |};
     media := Some {| videoUrl := url |} |}.

(** The same, with the downloads directory already there. *)
Definition w1 : World :=
  {| now := t0; files := {[ "exports"; "exports/videos" ]};
     rateLimit := initialRateLimit t0; reqs := 0; trace := [] |}.

(** A caller-supplied hook that always answers with a fresh URL. *)
Definition freshUrl : string := "https://fresh.example/v.mp4".

Definition freshHook : RefreshHook := OpaqueHook (fun _ _ => HookReturns (Some freshUrl)).

Definition c1 : Call := call "c1" "Weekly Sync" (Some "https://bucket.s3.amazonaws.com/a.mp4").
Definition c2 : Call := call "c2" "Demo" (Some "https://bucket.s3.amazonaws.com/b.webm").
Definition c3 : Call := call "c3" "No recording" None.
Definition c4 : Call := call "c4" "Elsewhere" (Some "https://cdn.example/v.mp4").

End Scenario.

(** ** Relations between the world before and after a computation *)

(** A relation on worlds that contains every elementary step the
    downloader can take is preserved by whole runs of it. *)
Record StepClosed (env : Env) (self : VideoDownloader)
    (R : World -> World -> Prop) : Prop := mkStepClosed {
  sc_refl : forall w, R w w;
  sc_trans : forall a b c, R a b -> R b c -> R a c;
  sc_mkdir : forall w, R w (ensureDownloadsDir env self w).2;
  sc_attempt : forall u rc path w,
      R w (attempt env self u path (log (EvAttempt u rc) (respectRateLimit w))).2;
  sc_sleep : forall why d w, R w (sleep why d w);
  sc_hook : forall h cid w, R w (runHook env h cid w).2;
  sc_save : forall failed w, R w (saveFailedDownloads failed w).2 }.

(** The download attempts and media GETs of a trace, in order. *)
Definition netEvents (tr : list (Z * Event)) : list Event :=
  omap (fun te => match te.2 with
                  | EvAttempt _ _ | EvGet _ _ _ => Some te.2
                  | _ => None
                  end) tr.

(** A sequence of attempts in which every attempt issues one GET without
    credentials and, only when that one failed, exactly one more GET of
    the same URL with the [Authorization] header [h]. *)
Inductive DirectThenAuth (h : string) : list Event -> Prop :=
| dta_nil : DirectThenAuth h []
| dta_direct u rc rest :
    DirectThenAuth h rest ->
    DirectThenAuth h (EvAttempt u rc :: EvGet u None true :: rest)
| dta_auth u rc ok rest :
    DirectThenAuth h rest ->
    DirectThenAuth h (EvAttempt u rc :: EvGet u None false
                        :: EvGet u (Some h) ok :: rest).

Definition extendsWith (P : list Event -> Prop) (w w' : World) : Prop :=
  exists evs, netEvents (trace w') = netEvents (trace w) ++ evs /\ P evs.

(** [adds P w w']: the trace of [w'] is the trace of [w] followed by
    events that all satisfy [P]. *)
Definition adds (P : Event -> Prop) (w w' : World) : Prop :=
  exists evs, trace w' = trace w ++ evs /\ Forall (fun te => P te.2) evs.

(** The events of URL resolution: requests to the media endpoint and
    invocations of a caller-supplied hook. *)
Definition isResolution (e : Event) : Prop :=
  match e with
  | EvApi _ _ _ | EvHook _ => True
  | _ => False
  end.

(** A computation is quiet when it only resolves URLs: it leaves the file
    system and the rate-limit state alone, and adds nothing to the trace
    but resolution events. *)
Record quiet (w w' : World) : Prop := mkQuiet {
  q_files : files w' = files w;
  q_rateLimit : rateLimit w' = rateLimit w;
  q_now : now w <= now w';
  q_reqs : (reqs w <= reqs w')%nat;
  q_adds : adds isResolution w w' }.



(** A network event aims at the URL [u]. *)
Definition targets (u : string) (e : Event) : Prop :=
  match e with
  | EvAttempt u' _ | EvGet u' _ _ => u' = u
  | _ => True
  end.

(** ** Retryable failures *)

(** An error the outer [catch] answers with the bounded retry of lines
    260-287: not a 429, and an S3 refusal (403, 400 or 404 from a URL of
    [s3.amazonaws.com]), a hung-up socket, a connection reset or a
    timeout. *)
Definition retryable (e : JsError) (url : string) : bool :=
  negb (is429 e) && isS3Retryable e url.

(** Every request for [u], with or without credentials, fails with a
    retryable error. *)
Definition alwaysRetryable (env : Env) (u : string) : Prop :=
  forall n auth, exists e, http_get env n u auth = GetFail e /\ retryable e u = true.

(** The delays slept before the retries numbered [from+1 .. from+count]. *)
Definition backoffDelays (retryDelay : Z) (from count : nat) : list Z :=
  map (fun k => Js.timer_ms (Some (nextDelay retryDelay k))) (seq from count).

(** The downloads directory is there, or [mkdirSync] will create it. *)
Definition storageReady (env : Env) (self : VideoDownloader) (w : World) : Prop :=
  existsSync (downloadsDir self) w = true \/ mkdir_error env (downloadsDir self) = None.

(** Where the pipeline stores the recording of a call. *)
Definition callDestination (env : Env) (self : VideoDownloader)
    (c : Call) (embedded : string) : string :=
  path_join (downloadsDir self) (filenameFor env c embedded).

(** The entry recorded for a call whose download returned [null]. *)
Definition nullDownloadFailure (c : Call) : Failure :=
  {| f_callId := callIdOf c; f_title := callTitleOf c;
     f_detail := Reason "Download returned null" |}.

(** ** Rate-limit answers *)

(** Every request for [u] is answered with HTTP 429. *)
Definition always429 (env : Env) (u : string) : Prop :=
  forall n auth, exists e, http_get env n u auth = GetFail e /\ is429 e = true.

(** ** Spacing of the download attempts *)

(** Consecutive elements are at least [m] apart. *)
Inductive spaced (m : Z) : list Z -> Prop :=
| spaced_nil : spaced m []
| spaced_one a : spaced m [a]
| spaced_cons a b l : a + m <= b -> spaced m (b :: l) -> spaced m (a :: b :: l).

(** The state the rate limiter relies on and maintains: a positive rate
    that divides 1000 (so that the spacing is a whole number of
    milliseconds, as with the constructor's rate of 2),
    a last-call timestamp that is not in the future and not before any
    attempt of the trace, a window that ends at most a day from now, and
    attempts that started at least the minimum spacing apart. *)
Record limiterInv (w : World) : Prop := mkLimiterInv {
  li_rate : 0 < callsPerSecond (rateLimit w);
  li_exact : (callsPerSecond (rateLimit w) | 1000);
  li_last : lastCallTime (rateLimit w) <= now w;
  li_window : resetTime (rateLimit w) <= now w + DAY;
  li_times : Forall (fun t => t <= lastCallTime (rateLimit w))
                    (attempt_times (trace w));
  li_spaced : spaced (minTimeBetweenCalls (rateLimit w)) (attempt_times (trace w)) }.

Definition keepsLimiterInv (w w' : World) : Prop :=
  callsPerSecond (rateLimit w') = callsPerSecond (rateLimit w)
  /\ (limiterInv w -> limiterInv w').

(** A step that leaves the rate-limit state and the attempts alone. *)
Definition neutral (w w' : World) : Prop :=
  rateLimit w' = rateLimit w /\ now w <= now w'
  /\ attempt_times (trace w') = attempt_times (trace w).

(** A downloader whose daily ceiling is reached and whose last call was
    made this very millisecond. *)
Definition saturatedWorld : World :=
  {| now := Scenario.t0; files := {[ "exports" ]};
     rateLimit := {| callsPerSecond := 2; callsPerDay := 10000;
                     currentCalls := 10000;
                     resetTime := Scenario.t0 + 3600000;
                     lastCallTime := Scenario.t0 |};
     reqs := 0; trace := [] |}.

(** ** Outcomes of a batch *)

(** [Partition S F calls ss fs]: reading the calls in order, each one is
    matched by exactly one entry, the next of [ss] (and then [S] relates
    them) or the next of [fs] (and then [F] relates them); no entry of
    either list is left over. *)
Inductive Partition (S : Call -> Success -> Prop) (F : Call -> Failure -> Prop)
  : list Call -> list Success -> list Failure -> Prop :=
| part_nil : Partition S F [] [] []
| part_success c cs s ss fs :
    S c s -> Partition S F cs ss fs -> Partition S F (c :: cs) (s :: ss) fs
| part_failure c cs f ss fs :
    F c f -> Partition S F cs ss fs -> Partition S F (c :: cs) ss (f :: fs).

(** The entry of [downloadedFiles] that belongs to a call. *)
Definition successOf (c : Call) (s : Success) : Prop :=
  callId s = callIdOf c /\ title s = callTitleOf c.

(** An entry of [failedDownloads] that belongs to a call: its id is the
    call's, or ['unknown'] in its place when the [catch] block wrote it. *)
Definition failureOf (c : Call) (f : Failure) : Prop :=
  f_title f = callTitleOf c
  /\ (f_callId f = callIdOf c
      \/ f_callId f = Some (Js.or_else (callIdOf c) "unknown")).

(** The success entry of a call whose recording is stored. *)
Definition storedEntry (env : Env) (self : VideoDownloader) (c : Call) : Success :=
  {| callId := callIdOf c; title := callTitleOf c;
     filePath := callDestination env self c (default "" (videoUrlOf c)) |}.

(** A success whose file, and the downloads directory, are in [fs]. *)
Definition storedIn (env : Env) (self : VideoDownloader) (fs : gset string)
    (c : Call) (s : Success) : Prop :=
  is_Some (videoUrlOf c) /\ s = storedEntry env self c
  /\ filePath s ∈ fs /\ downloadsDir self ∈ fs.

(** From request number [B] on, no media request is answered 429. *)
Definition no429From (env : Env) (B : nat) : Prop :=
  forall n u auth e, (B <= n)%nat -> http_get env n u auth = GetFail e -> is429 e = false.

(** * Beyond the extensive-calls pipeline: the standard method, pagination, configuration *)

(** ** The standard method: [downloadVideosForCalls] *)

(** A record of the plain calls endpoint, as far as the downloader reads
    it: [call.id], [call.title], [call.started]. *)
Record StdCall := mkStdCall {
  sc_id : option string;
  sc_title : option string;
  sc_started : option string }.

(** An entry of [failedDownloads] in the standard method: the title is
    copied from the call as it is, present or not. *)
Record StdFailure := mkStdFailure {
  sf_callId : option string;
  sf_title : option string;
  sf_detail : FailDetail }.

Record StdAcc := mkStdAcc {
  std_downloadedFiles : list Success;
  std_failedDownloads : list StdFailure }.

Definition stdPushSuccess (s : Success) (a : StdAcc) : StdAcc :=
  {| std_downloadedFiles := std_downloadedFiles a ++ [s];
     std_failedDownloads := std_failedDownloads a |}.

Definition stdPushFailure (f : StdFailure) (a : StdAcc) : StdAcc :=
  {| std_downloadedFiles := std_downloadedFiles a;
     std_failedDownloads := std_failedDownloads a ++ [f] |}.

Definition emptyStdAcc : StdAcc :=
  {| std_downloadedFiles := []; std_failedDownloads := [] |}.

(** The [GongExport] instance handed to the method. *)
Record GongExport := mkGongExport {
  apiUrl : string;
  gx_basicToken : string }.

(** The message of the [TypeError] that [call.title.replace] raises when
    the call has no title. *)
Definition noTitleMessage : string :=
  "Cannot read properties of undefined (reading 'replace')".

(** What lines 460-490 end in: a URL to download from, or the failure
    already pushed before [continue]. *)
Inductive Resolution :=
| Resolved (signedUrl : string)
| Unresolved (f : StdFailure).

Section StandardMethod.

Context (env : Env) (self : VideoDownloader).

Definition stdFailure (c : StdCall) (d : FailDetail) : StdFailure :=
  {| sf_callId := sc_id c; sf_title := sc_title c; sf_detail := d |}.

(** Lines 463-466: the refresh callback is asked first, when there is one
    and the call has an id. *)
Definition askHook (c : StdCall) : M (option string) :=
  match refreshUrlCallback self, Js.truthy (sc_id c) with
  | Some hook, Some cid => runHook env hook cid
  | _, _ => ret None
  end.

(** Lines 461-490: the callback, then [gongExport.getSignedMediaUrl] when
    the callback gave nothing; an exception of either is caught here. *)
Definition resolveSignedUrl (c : StdCall) : M Resolution :=
  try_catch
    (fromHook <- askHook c ;;
     signedUrl <-
       match Js.truthy fromHook with
       | Some u => ret (Some u)
       | None => getSignedMediaUrl env (Js.interpolate (sc_id c))
       end ;;
     match Js.truthy signedUrl with
     | Some u => ret (Resolved u)
     | None => ret (Unresolved (stdFailure c (Reason "No signed media URL available")))
     end)
    (fun error =>
       ret (Unresolved
              (stdFailure c
                 (Error ("Failed to get signed URL: "
                           +:+ Js.or_else (Some (message error)) "Unknown error"))))).

Definition stdFormattedDate (c : StdCall) : string :=
  match Js.truthy (sc_started c) with
  | Some started => default "" (isoDate env started)
  | None => ""
  end.

(** Line 508, for a call whose title is the string [t]. *)
Definition stdFilename (c : StdCall) (t signedUrl : string) : string :=
  (if String.eqb (stdFormattedDate c) "" then "" else stdFormattedDate c +:+ "_")
  +:+ Js.interpolate (sc_id c) +:+ "_"
  +:+ Js.toLowerCase (Js.replaceNonAlnum t)
  +:+ fileExt signedUrl.

(** The body of the [for] loop, lines 459-533.  Without a title,
    [call.title.replace] throws a [TypeError], which the outer [catch]
    records. *)
Definition processStdCall (fuel : nat) (c : StdCall) (acc : StdAcc) : M StdAcc :=
  try_catch
    (r <- resolveSignedUrl c ;;
     match r with
     | Unresolved f => ret (stdPushFailure f acc)          (* continue *)
     | Resolved signedUrl =>
         match sc_title c with
         | None => throw (plainError noTitleMessage)
         | Some t =>
             path <- downloadVideo env self fuel (Some signedUrl)
                       (Some (stdFilename c t signedUrl))
                       O defaultMaxRetries defaultRetryDelay ;;
             match Js.truthy path with
             | Some p =>
                 ret (stdPushSuccess
                        {| callId := sc_id c; title := t; filePath := p |} acc)
             | None =>
                 ret (stdPushFailure (stdFailure c (Reason "Download returned null")) acc)
             end
         end
     end)
    (fun error => ret (stdPushFailure (stdFailure c (Error (message error))) acc)).

Fixpoint forEachStdCall (fuel : nat) (calls : list StdCall) (acc : StdAcc) : M StdAcc :=
  match calls with
  | [] => ret acc
  | c :: rest =>
      acc' <- processStdCall fuel c acc ;;
      forEachStdCall fuel rest acc'
  end.

(** Lines 544-550: the failure list is written into the exports
    directory, which has to exist.  (Only the file is recorded here.) *)
Definition saveStdFailedDownloads (failed : list StdFailure) : M unit :=
  fun w =>
    match failed with
    | [] => (Ret tt, w)
    | _ :: _ =>
        if existsSync exportsDir w
        then (Ret tt, add_file (failedPath w) w)
        else (Throw (plainError "ENOENT: no such file or directory"), w)
    end.

(** [calls] is [None] when the argument is not an array, [gongExport]
    when no client is passed. *)
Definition downloadVideosForCalls (fuel : nat) (calls : option (list StdCall))
    (gongExport : option GongExport) : M (list Success) :=
  match calls, gongExport with
  | None, _ => ret []
  | Some _, None => ret []
  | Some cs, Some _ =>
      acc <- forEachStdCall fuel cs emptyStdAcc ;;
      saveStdFailedDownloads (std_failedDownloads acc) ;;;
      ret (std_downloadedFiles acc)
  end.

End StandardMethod.

(** ** Relations kept by whole runs of either method *)

(** [StepClosed], with the two steps the standard method adds: a direct
    call of [getSignedMediaUrl], and the write of its failure list. *)
Record StdStepClosed (env : Env) (self : VideoDownloader)
    (R : World -> World -> Prop) : Prop := mkStdStepClosed {
  ssc_base : StepClosed env self R;
  ssc_resolve : forall cid w, R w (getSignedMediaUrl env cid w).2;
  ssc_save : forall failed w, R w (saveStdFailedDownloads failed w).2 }.

(** The daily count is within its ceiling. *)
Definition withinCeiling (w : World) : Prop :=
  0 <= currentCalls (rateLimit w) <= callsPerDay (rateLimit w).

Definition keepsCeiling (w w' : World) : Prop :=
  callsPerDay (rateLimit w') = callsPerDay (rateLimit w)
  /\ (1 <= callsPerDay (rateLimit w) -> withinCeiling w -> withinCeiling w').

(** Either nothing was attempted and the rate-limit state is untouched,
    or the last-call timestamp is the start of the latest attempt. *)
Definition limiterFollowsAttempts (w w' : World) : Prop :=
  (attempt_times (trace w') = attempt_times (trace w)
   /\ rateLimit w' = rateLimit w)
  \/ (exists l t,
        attempt_times (trace w') = attempt_times (trace w) ++ l ++ [t]
        /\ lastCallTime (rateLimit w') = t).

(** The number of attempts and of GETs among network events. *)
Definition countAttempts (evs : list Event) : nat :=
  length (omap (fun e => match e with EvAttempt _ rc => Some rc | _ => None end) evs).

Definition countGets (evs : list Event) : nat :=
  length (omap (fun e => match e with EvGet u _ _ => Some u | _ => None end) evs).

(** Every character is a lower-case ASCII letter, a digit or an
    underscore. *)
Definition isSafeChar (c : ascii) : bool :=
  Js.is_lower c || Js.is_digit c || Ascii.eqb c "_"%char.

Fixpoint allSafe (s : string) : bool :=
  match s with
  | EmptyString => true
  | String c rest => isSafeChar c && allSafe rest
  end.

(** An outcome of the standard method belongs to a call: it carries the
    call's id and title. *)
Definition stdOutcomeOf (c : StdCall) (o : Success + StdFailure) : Prop :=
  match o with
  | inl s => callId s = sc_id c /\ sc_title c = Some (title s)
  | inr f => sf_callId f = sc_id c /\ sf_title f = sc_title c
  end.

Definition successesOf (outs : list (Success + StdFailure)) : list Success :=
  omap (fun o => match o with inl s => Some s | inr _ => None end) outs.

Definition failuresOf (outs : list (Success + StdFailure)) : list StdFailure :=
  omap (fun o => match o with inr f => Some f | inl _ => None end) outs.

(** The failure recorded when resolution raised [e]. *)
Definition resolutionError (c : StdCall) (e : JsError) : StdFailure :=
  stdFailure c (Error ("Failed to get signed URL: "
                         +:+ Js.or_else (Some (message e)) "Unknown error")).

(** ** Scenarios for the standard method *)

Module StdScenario.

Definition withWrite (ws : nat -> string -> WriteResult) (e : Env) : Env :=
  {| http_get := http_get e; http_ms := http_ms e; write_stream := ws;
     stream_ms := stream_ms e; mkdir_error := mkdir_error e;
     api_media := api_media e; isoDate := isoDate e |}.

(** The disk is full: every stream fails and leaves a partial file. *)
Definition diskFull : string := "ENOSPC: no space left on device, write".

Definition envDiskFull : Env :=
  withWrite (fun _ _ => WError diskFull true) Scenario.quietEnv.

Definition stdCall (cid ttl : string) : StdCall :=
  {| sc_id := Some cid; sc_title := Some ttl;
     sc_started := Some "2024-03-01T10:00Z" |}.

Definition s1 : StdCall := stdCall "c1" "Weekly Sync".
Definition s2 : StdCall := stdCall "c2" "Demo".

(** A record that has an id and nothing else. *)
Definition sUntitled : StdCall :=
  {| sc_id := Some "c9"; sc_title := None; sc_started := None |}.

Definition gong : GongExport :=
  {| apiUrl := "https://api.gong.io"; gx_basicToken := "a2V5OnNlY3JldA==" |}.

(** A caller-supplied hook that always raises. *)
Definition brokenHook : RefreshHook := OpaqueHook (fun _ _ => HookThrows Scenario.e500).

Definition videoA : string := "https://bucket.s3.amazonaws.com/a.mp4".

(** The media endpoint mints signed URLs, and the disk is full. *)
Definition envSignedDiskFull : Env :=
  withWrite (fun _ _ => WError diskFull true) Scenario.envSigned.

(** A [Retry-After] header in its other form, an HTTP date. *)
Definition httpDate : string := "Wed, 21 Oct 2015 07:28:00 GMT".

(** The two requests of the first attempt are answered 429 with that
    header, the later ones succeed. *)
Definition envThrottledUntilDate : Env :=
  Scenario.withGet
    (fun n _ _ => if (n <? 2)%nat then GetFail (Scenario.e429 (Some httpDate)) else GetOk)
    Scenario.quietEnv.

(** The request without credentials is answered 429, the one with
    credentials 403. *)
Definition envThrottledThenForbidden : Env :=
  Scenario.withGet
    (fun _ _ auth => match auth with
                     | None => GetFail (Scenario.e429 (Some "120"))
                     | Some _ => GetFail Scenario.e403
                     end)
    Scenario.quietEnv.

End StdScenario.

(** ** [GongExport]: the extensive-calls endpoint and its pagination *)

(** The [options] argument of [exportExtensiveCallData]. *)
Record ExtensiveOptions := mkExtensiveOptions {
  fromDateTime : option string;
  toDateTime : option string;
  opt_cursor : option string }.

(** The body posted to [/v2/calls/extensive]: the date filter (the content
    selector is constant) and the [cursor] key, which is there only when
    the cursor is truthy. *)
Record RequestBody := mkRequestBody {
  filter_fromDateTime : option string;
  filter_toDateTime : option string;
  body_cursor : option string }.

(** What is read of [response.data]: [calls], when it is an array, and
    [records && records.cursor]. *)
Record PageData := mkPageData {
  pd_calls : option (list Call);
  pd_cursor : option string }.

(** An answer of the endpoint: a 2xx response with its body ([None] for a
    body that is [null]), or a rejected request. *)
Inductive PostResult :=
| PostOk (data : option PageData)
| PostFail (e : JsError).

Definition nullPageMessage : string :=
  "Cannot read properties of null (reading 'calls')".

Section ExtensiveCalls.

(** The endpoint, by the number of the request and its body. *)
Context (post : nat -> RequestBody -> PostResult).

Definition requestBodyOf (options : ExtensiveOptions) : RequestBody :=
  {| filter_fromDateTime := fromDateTime options;
     filter_toDateTime := toDateTime options;
     body_cursor := Js.truthy (opt_cursor options) |}.

(** Lines 93-126; the state is the list of the bodies posted so far. *)
Definition exportExtensiveCallData (options : ExtensiveOptions)
    (sent : list RequestBody) : Res (option PageData) * list RequestBody :=
  let requestBody := requestBodyOf options in
  match post (length sent) requestBody with
  | PostOk data => (Ret data, sent ++ [requestBody])
  | PostFail e => (Throw e, sent ++ [requestBody])       (* logged and rethrown *)
  end.

(** [{ ...options, cursor }]. *)
Definition withCursor (options : ExtensiveOptions) (cursor : option string)
  : ExtensiveOptions :=
  {| fromDateTime := fromDateTime options;
     toDateTime := toDateTime options;
     opt_cursor := cursor |}.

(** The [while] loop of lines 142-163; [fuel] bounds the number of pages. *)
Fixpoint getAllExtensiveCallData_loop (fuel : nat) (options : ExtensiveOptions)
    (cursor : option string) (allCalls : list Call) (sent : list RequestBody)
  : Res (list Call) * list RequestBody :=
  match fuel with
  | O => (OutOfFuel, sent)
  | S fuel' =>
      match exportExtensiveCallData (withCursor options cursor) sent with
      | (Ret None, sent1) => (Throw (plainError nullPageMessage), sent1)
      | (Ret (Some pageData), sent1) =>
          let allCalls1 :=
            match pd_calls pageData with
            | Some cs => allCalls ++ cs
            | None => allCalls
            end in
          match Js.truthy (pd_cursor pageData) with
          | Some c => getAllExtensiveCallData_loop fuel' options (Some c) allCalls1 sent1
          | None => (Ret allCalls1, sent1)
          end
      | (Throw e, sent1) => (Throw e, sent1)               (* logged and rethrown *)
      | (OutOfFuel, sent1) => (OutOfFuel, sent1)
      end
  end.

(** Lines 135-171. *)
Definition getAllExtensiveCallData (fuel : nat) (options : ExtensiveOptions)
    (sent : list RequestBody) : Res (list Call) * list RequestBody :=
  getAllExtensiveCallData_loop fuel options None [] sent.

(** The calls a page contributes. *)
Definition callsOfPage (d : PageData) : list Call := default [] (pd_calls d).

Definition callsOfPages (ds : list PageData) : list Call :=
  concat (map callsOfPage ds).

(** The bodies posted to fetch the pages [ds] one after the other,
    starting with the cursor [c]. *)
Fixpoint requestsFor (options : ExtensiveOptions) (c : option string)
    (ds : list PageData) : list RequestBody :=
  match ds with
  | [] => []
  | d :: rest =>
      requestBodyOf (withCursor options c)
        :: requestsFor options (Js.truthy (pd_cursor d)) rest
  end.

(** [Pages n c ds n' c']: from request number [n] and cursor [c], the
    endpoint serves the pages [ds], each one naming a next cursor; the
    request after them has number [n'] and carries the cursor [c']. *)
Inductive Pages (options : ExtensiveOptions)
  : nat -> option string -> list PageData -> nat -> option string -> Prop :=
| pages_nil n c : Pages options n c [] n c
| pages_cons n c d next ds n' c' :
    post n (requestBodyOf (withCursor options c)) = PostOk (Some d) ->
    Js.truthy (pd_cursor d) = Some next ->
    Pages options (S n) (Some next) ds n' c' ->
    Pages options n c (d :: ds) n' c'.

(** Every request is answered with a page that names a next cursor. *)
Definition alwaysMore : Prop :=
  forall n b, exists d c, post n b = PostOk (Some d) /\ Js.truthy (pd_cursor d) = Some c.

End ExtensiveCalls.

Module PageScenario.

(** Two pages: the request without a cursor is answered with two calls and
    the cursor "p2", a request with a cursor with the last call. *)
Definition twoPages : nat -> RequestBody -> PostResult :=
  fun _ b =>
    match body_cursor b with
    | None => PostOk (Some {| pd_calls := Some [Scenario.c1; Scenario.c2];
                              pd_cursor := Some "p2" |})
    | Some _ => PostOk (Some {| pd_calls := Some [Scenario.c4]; pd_cursor := None |})
    end.

(** The second page is refused. *)
Definition secondPageFails : nat -> RequestBody -> PostResult :=
  fun _ b =>
    match body_cursor b with
    | None => PostOk (Some {| pd_calls := Some [Scenario.c1; Scenario.c2];
                              pd_cursor := Some "p2" |})
    | Some _ => PostFail Scenario.e500
    end.

(** Every page names the same cursor again. *)
Definition sameCursor : nat -> RequestBody -> PostResult :=
  fun _ _ => PostOk (Some {| pd_calls := Some [Scenario.c1]; pd_cursor := Some "again" |}).

Definition last90Days : ExtensiveOptions :=
  {| fromDateTime := Some "2023-12-02T10:00:00.000Z";
     toDateTime := Some "2024-03-01T10:00:00.000Z";
     opt_cursor := Some "stale" |}.

Definition page1 : PageData :=
  {| pd_calls := Some [Scenario.c1; Scenario.c2]; pd_cursor := Some "p2" |}.

Definition page2 : PageData :=
  {| pd_calls := Some [Scenario.c4]; pd_cursor := None |}.

End PageScenario.

(** ** Configuration *)

(** [Buffer.from(s).toString('base64')] on the bytes of [s]. *)
Definition base64Alphabet : string :=
  "ABCDEFGHIJKLMNOPQRSTUVWXYZabcdefghijklmnopqrstuvwxyz0123456789+/".

Definition base64Char (n : N) : ascii :=
  default "="%char (String.get (N.to_nat n) base64Alphabet).

Fixpoint base64 (s : string) : string :=
  match s with
  | EmptyString => EmptyString
  | String a EmptyString =>
      let x := N_of_ascii a in
      String (base64Char (x / 4))
        (String (base64Char ((x mod 4) * 16)) "==")
  | String a (String b EmptyString) =>
      let x := N_of_ascii a in
      let y := N_of_ascii b in
      String (base64Char (x / 4))
        (String (base64Char ((x mod 4) * 16 + y / 16))
           (String (base64Char ((y mod 16) * 4)) "="))
  | String a (String b (String c rest)) =>
      let x := N_of_ascii a in
      let y := N_of_ascii b in
      let z := N_of_ascii c in
      String (base64Char (x / 4))
        (String (base64Char ((x mod 4) * 16 + y / 16))
           (String (base64Char ((y mod 16) * 4 + z / 64))
              (String (base64Char (z mod 64)) (base64 rest))))
  end%N.

Definition requiredEnvVars : list string :=
  ["GONG_API_URL"; "GONG_ACCESS_KEY"; "GONG_ACCESS_KEY_SECRET"].

(** [requiredEnvVars.filter(varName => !process.env[varName])]. *)
Definition missingEnvVars (processEnv : gmap string string) : list string :=
  List.filter (fun varName => negb (Js.is_truthy (processEnv !! varName)))
              requiredEnvVars.

(** The exported object: [gong.apiUrl], [gong.accessKey],
    [gong.accessKeySecret], [gong.basicToken], [storage.videoPath]. *)
Record Config := mkConfig {
  gong_apiUrl : option string;
  gong_accessKey : option string;
  gong_accessKeySecret : option string;
  gong_basicToken : string;
  storage_videoPath : option string }.

(** Loading the module either throws or yields the exported object. *)
Definition loadConfig (processEnv : gmap string string) : JsError + Config :=
  match missingEnvVars processEnv with
  | (_ :: _) as missing =>
      inl (plainError ("Missing required environment variables: "
                         +:+ String.concat ", " missing))
  | [] =>
      inr {| gong_apiUrl := processEnv !! "GONG_API_URL";
             gong_accessKey := processEnv !! "GONG_ACCESS_KEY";
             gong_accessKeySecret := processEnv !! "GONG_ACCESS_KEY_SECRET";
             gong_basicToken :=
               base64 (Js.interpolate (processEnv !! "GONG_ACCESS_KEY") +:+ ":"
                         +:+ Js.interpolate (processEnv !! "GONG_ACCESS_KEY_SECRET"));
             storage_videoPath := Js.truthy (processEnv !! "GONG_VIDEO_STORAGE_PATH") |}
  end.

(** The downloader [export.js] builds from the configuration, with its
    callback around [getSignedMediaUrl]. *)
Definition exportVideoDownloader (config : Config) : VideoDownloader :=
  {| apiKey := Js.interpolate (gong_accessKey config);
     basicToken := gong_basicToken config;
     customStoragePath := storage_videoPath config;
     refreshUrlCallback := Some SignedUrlHook |}.

(** A variable counts as set when it is there and not empty. *)
Definition isSet (processEnv : gmap string string) (varName : string) : Prop :=
  exists x, processEnv !! varName = Some x /\ x <> "".

(** ** Saving an export ([export.js]) *)

Section SaveToFile.

Context (env : Env).

(** Lines 9-29: the exports directory is created when it is missing, then
    the file is written into it.  Of the two, only [mkdirSync] can fail
    here: [writeFileSync] into a directory that exists is taken to
    succeed (a write refused there, for want of space or rights, is not
    modelled). *)
Definition saveToFile (filename : string) : M string :=
  fun w =>
    let filePath := path_join exportsDir filename in
    if existsSync exportsDir w then (Ret filePath, add_file filePath w)
    else
      match mkdir_error env exportsDir with
      | None =>
          (Ret filePath,
           add_file filePath
             (log (EvMkdir exportsDir)
                (add_files (exportsDir :: ancestors exportsDir) w)))
      | Some msg => (Throw (plainError msg), w)
      end.

End SaveToFile.

Module ConfigScenario.

Definition complete : gmap string string :=
  <[ "GONG_API_URL" := "https://api.gong.io" ]>
    (<[ "GONG_ACCESS_KEY" := "key" ]>
       (<[ "GONG_ACCESS_KEY_SECRET" := "secret" ]> ∅)).

(** The secret is set, but empty; a storage path is given. *)
Definition emptySecret : gmap string string :=
  <[ "GONG_VIDEO_STORAGE_PATH" := "/Volumes/Public/gong_videos" ]>
    (<[ "GONG_ACCESS_KEY_SECRET" := "" ]> complete).

(** No exports directory yet. *)
Definition emptyDisk : World :=
  {| now := Scenario.t0; files := ∅; rateLimit := initialRateLimit Scenario.t0;
     reqs := 0; trace := [] |}.

End ConfigScenario.

(** ** The export ([exportGongData]) *)

(** The answers of the API to the requests of one export, the media
    endpoint apart: [GET /v2/calls?limit=1], [GET /v2/calls] (of its body,
    the [calls] array when there is one), [GET /v2/users], and the
    extensive-calls endpoint. *)
Record ApiAnswers := mkApiAnswers {
  status_answer : option JsError;
  calls_answer : JsError + option (list StdCall);
  users_answer : option JsError;
  extensive_answer : nat -> RequestBody -> PostResult }.

(** [exportedData.videoDownloadSummary]. *)
Record VideoDownloadSummary := mkVideoDownloadSummary {
  totalCalls : nat;
  successfulDownloads : nat;
  videoDirectory : option string;
  method : string;
  note : option string }.

(** [exportedData], by the keys that are set: [calls] holds what is read
    of the body, the last three only tell whether the key is there. *)
Record ExportedData := mkExportedData {
  ed_calls : option (option (list StdCall));
  ed_extensiveCalls : option (list Call);
  ed_videoDownloads : option (list Success);
  ed_videoDownloadSummary : option VideoDownloadSummary;
  ed_users : bool;
  ed_crm : bool;
  ed_analytics : bool }.

Definition emptyExportedData : ExportedData :=
  {| ed_calls := None; ed_extensiveCalls := None; ed_videoDownloads := None;
     ed_videoDownloadSummary := None; ed_users := false; ed_crm := false;
     ed_analytics := false |}.

(** The state of an export: the world, the [exportedData] object, which
    every stage mutates and which keeps what was assigned before an
    exception, and the bodies posted to the extensive-calls endpoint. *)
Record ExportState := mkExportState {
  world : World;
  exportedData : ExportedData;
  posted : list RequestBody }.

Definition X (A : Type) : Type := ExportState -> Res A * ExportState.

Definition xret {A} (a : A) : X A := fun s => (Ret a, s).

Definition xthrow {A} (e : JsError) : X A := fun s => (Throw e, s).

Definition xbind {A B} (c : X A) (k : A -> X B) : X B :=
  fun s =>
    match c s with
    | (Ret a, s1) => k a s1
    | (Throw e, s1) => (Throw e, s1)
    | (OutOfFuel, s1) => (OutOfFuel, s1)
    end.

(** [try { c } catch (e) { h e }]. *)
Definition xtry {A} (c : X A) (h : JsError -> X A) : X A :=
  fun s =>
    match c s with
    | (Throw e, s1) => h e s1
    | r => r
    end.

Notation "x <~ c ;; k" := (xbind c (fun x => k))
  (at level 100, c at next level, right associativity) : js_scope.
Notation "c ;;~ k" := (xbind c (fun _ => k))
  (at level 100, right associativity) : js_scope.

Definition with_world (w : World) (s : ExportState) : ExportState :=
  {| world := w; exportedData := exportedData s; posted := posted s |}.

(** A computation on the world, run inside an export. *)
Definition inWorld {A} (c : M A) : X A :=
  fun s => let (r, w1) := c (world s) in (r, with_world w1 s).

(** An assignment to a key of [exportedData]. *)
Definition assign (f : ExportedData -> ExportedData) : X unit :=
  fun s => (Ret tt, {| world := world s; exportedData := f (exportedData s);
                       posted := posted s |}).

Definition set_calls (d : option (list StdCall)) (x : ExportedData) : ExportedData :=
  {| ed_calls := Some d; ed_extensiveCalls := ed_extensiveCalls x;
     ed_videoDownloads := ed_videoDownloads x;
     ed_videoDownloadSummary := ed_videoDownloadSummary x;
     ed_users := ed_users x; ed_crm := ed_crm x; ed_analytics := ed_analytics x |}.

Definition set_extensiveCalls (l : list Call) (x : ExportedData) : ExportedData :=
  {| ed_calls := ed_calls x; ed_extensiveCalls := Some l;
     ed_videoDownloads := ed_videoDownloads x;
     ed_videoDownloadSummary := ed_videoDownloadSummary x;
     ed_users := ed_users x; ed_crm := ed_crm x; ed_analytics := ed_analytics x |}.

Definition set_videoDownloads (l : list Success) (x : ExportedData) : ExportedData :=
  {| ed_calls := ed_calls x; ed_extensiveCalls := ed_extensiveCalls x;
     ed_videoDownloads := Some l;
     ed_videoDownloadSummary := ed_videoDownloadSummary x;
     ed_users := ed_users x; ed_crm := ed_crm x; ed_analytics := ed_analytics x |}.

Definition set_videoDownloadSummary (v : VideoDownloadSummary) (x : ExportedData)
  : ExportedData :=
  {| ed_calls := ed_calls x; ed_extensiveCalls := ed_extensiveCalls x;
     ed_videoDownloads := ed_videoDownloads x;
     ed_videoDownloadSummary := Some v;
     ed_users := ed_users x; ed_crm := ed_crm x; ed_analytics := ed_analytics x |}.

Definition set_users (x : ExportedData) : ExportedData :=
  {| ed_calls := ed_calls x; ed_extensiveCalls := ed_extensiveCalls x;
     ed_videoDownloads := ed_videoDownloads x;
     ed_videoDownloadSummary := ed_videoDownloadSummary x;
     ed_users := true; ed_crm := ed_crm x; ed_analytics := ed_analytics x |}.

Definition set_crm (x : ExportedData) : ExportedData :=
  {| ed_calls := ed_calls x; ed_extensiveCalls := ed_extensiveCalls x;
     ed_videoDownloads := ed_videoDownloads x;
     ed_videoDownloadSummary := ed_videoDownloadSummary x;
     ed_users := ed_users x; ed_crm := true; ed_analytics := ed_analytics x |}.

Definition set_analytics (x : ExportedData) : ExportedData :=
  {| ed_calls := ed_calls x; ed_extensiveCalls := ed_extensiveCalls x;
     ed_videoDownloads := ed_videoDownloads x;
     ed_videoDownloadSummary := ed_videoDownloadSummary x;
     ed_users := ed_users x; ed_crm := ed_crm x; ed_analytics := true |}.

Definition failedToConnect : string := "Failed to connect to Gong API".

Definition failuresNote : string :=
  "Check failed_video_downloads_*.json for details on failures".

Section ExportRun.

Context (env : Env) (api : ApiAnswers) (config : Config).

(** One request of the API client: it is counted, and it takes time. *)
Definition clientRequest (w : World) : World :=
  advance (Z.of_nat (http_ms env (reqs w))) (next_req w).

Definition clientGet {A} (answer : JsError + A) : X A :=
  inWorld (fun w => match answer with
                    | inr a => (Ret a, clientRequest w)
                    | inl e => (Throw e, clientRequest w)   (* logged and rethrown *)
                    end).

Definition checkApiStatus : X unit :=
  clientGet (match status_answer api with None => inr tt | Some e => inl e end).

Definition exportCallData : X (option (list StdCall)) :=
  clientGet (calls_answer api).

Definition exportUserData : X unit :=
  clientGet (match users_answer api with None => inr tt | Some e => inl e end).

(** [getAllExtensiveCallData], with one client request per body posted. *)
Definition retrieveExtensiveCalls (pages : nat) (options : ExtensiveOptions)
  : X (list Call) :=
  fun s =>
    let (r, sent1) :=
      getAllExtensiveCallData (extensive_answer api) pages options (posted s) in
    (r, {| world := Nat.iter (length sent1 - length (posted s)) clientRequest (world s);
           exportedData := exportedData s;
           posted := sent1 |}).

(** [saveToFile(data, `<prefix>_<timestamp>.json`)]; the timestamp is
    rendered as the clock value. *)
Definition saveStamped (prefix : string) : X string :=
  inWorld (fun w => saveToFile env (prefix +:+ "_" +:+ pretty (now w) +:+ ".json") w).

(** The last 90 days, lines 83-84. *)
Definition last90Days (w : World) : ExtensiveOptions :=
  {| fromDateTime := Some (pretty (now w - 90 * DAY));
     toDateTime := Some (pretty (now w));
     opt_cursor := None |}.

Definition self : VideoDownloader := exportVideoDownloader config.

Definition gongExport : GongExport :=
  {| apiUrl := Js.interpolate (gong_apiUrl config);
     gx_basicToken := gong_basicToken config |}.

(** [new VideoDownloader(...)]: the rate-limit state starts afresh. *)
Definition newVideoDownloader : X unit :=
  inWorld (fun w => (Ret tt, set_rateLimit (initialRateLimit (now w)) w)).

(** Lines 127-154 and 204-225: what both methods do with the list of
    downloaded videos. *)
Definition recordDownloads (total : nat) (how : string) (downloadedVideos : list Success)
  : X unit :=
  assign (set_videoDownloads downloadedVideos) ;;~
  match downloadedVideos with
  | _ :: _ =>
      saveStamped "video_downloads" ;;~
      assign (set_videoDownloadSummary
                {| totalCalls := total;
                   successfulDownloads := length downloadedVideos;
                   videoDirectory := Some (downloadsDir self);
                   method := how; note := None |})
  | [] =>
      assign (set_videoDownloadSummary
                {| totalCalls := total; successfulDownloads := 0;
                   videoDirectory := None;
                   method := how; note := Some failuresNote |})
  end.

(** Lines 171-228: the fallback, [downloadVideosUsingStandardMethod]. *)
Definition downloadVideosUsingStandardMethod (fuel : nat) : X unit :=
  fun s =>
    match ed_calls (exportedData s) with
    | Some (Some calls) =>
        (newVideoDownloader ;;~
         xtry
           (downloadedVideos <~
              inWorld (downloadVideosForCalls env self fuel (Some calls) (Some gongExport)) ;;
            recordDownloads (length calls) "standard_fallback" downloadedVideos)
           (fun _ => xret tt)) s
    | _ => (Ret tt, s)
    end.

(** Lines 78-168: the extensive calls, and the videos from them. *)
Definition exportExtensiveCalls (pages fuel : nat) : X unit :=
  xtry
    (fun s =>
       (extensiveCalls <~ retrieveExtensiveCalls pages (last90Days (world s)) ;;
        match extensiveCalls with
        | _ :: _ =>
            saveStamped "extensive_calls" ;;~
            assign (set_extensiveCalls extensiveCalls) ;;~
            newVideoDownloader ;;~
            xtry
              (downloadedVideos <~
                 inWorld (downloadVideosFromExtensiveCalls env self fuel
                            (Some extensiveCalls)) ;;
               recordDownloads (length extensiveCalls) "extensive_calls_api"
                 downloadedVideos)
              (fun _ => xret tt)
        | [] => downloadVideosUsingStandardMethod fuel
        end) s)
    (fun _ => downloadVideosUsingStandardMethod fuel).

(** Lines 56-241: the calls, then the videos. *)
Definition exportCalls (pages fuel : nat) : X unit :=
  xtry
    (calls <~ exportCallData ;;
     assign (set_calls calls) ;;~
     saveStamped "calls" ;;~
     exportExtensiveCalls pages fuel)
    (fun _ => xret tt).

Definition exportUsers : X unit :=
  xtry (exportUserData ;;~ assign set_users ;;~ saveStamped "users" ;;~ xret tt)
       (fun _ => xret tt).

(** [exportCrmData] and [exportAnalyticsData] return a constant. *)
Definition exportCrm : X unit :=
  xtry (assign set_crm ;;~ saveStamped "crm" ;;~ xret tt) (fun _ => xret tt).

Definition exportAnalytics : X unit :=
  xtry (assign set_analytics ;;~ saveStamped "analytics" ;;~ xret tt)
       (fun _ => xret tt).

(** Lines 34-286.  The result is the path of the combined file; the
    exported data is in the state.  (The outermost [catch] logs and
    rethrows.) *)
Definition exportGongData (pages fuel : nat) : X string :=
  xtry checkApiStatus (fun _ => xthrow (plainError failedToConnect)) ;;~
  exportCalls pages fuel ;;~
  exportUsers ;;~
  exportCrm ;;~
  exportAnalytics ;;~
  saveStamped "gong_export".

Definition startOfExport (w : World) : ExportState :=
  {| world := w; exportedData := emptyExportedData; posted := [] |}.

End ExportRun.

(** The events a save can add to the trace. *)
Definition isMkdir (e : Event) : Prop :=
  match e with
  | EvMkdir _ => True
  | _ => False
  end.

(** The exports directory is there, or can be made. *)
Definition exportsWritable (env : Env) (w : World) : Prop :=
  existsSync exportsDir w = true \/ mkdir_error env exportsDir = None.

(** Between [w] and [w'] no file was touched and nothing was recorded:
    only the clock and the request counter moved. *)
Definition onlyRequests (w w' : World) : Prop :=
  files w' = files w /\ trace w' = trace w /\ rateLimit w' = rateLimit w.

(** The pagination settles within [pages] iterations, whatever the date
    filter. *)
Definition retrievalSettles (api : ApiAnswers) (pages : nat) : Prop :=
  forall options sent,
    (getAllExtensiveCallData (extensive_answer api) pages options sent).1 <> OutOfFuel.

Module ExportScenario.

(** The API as it should be: two pages of extensive calls. *)
Definition healthy : ApiAnswers :=
  {| status_answer := None;
     calls_answer := inr (Some [StdScenario.s1; StdScenario.s2]);
     users_answer := None;
     extensive_answer := PageScenario.twoPages |}.

(** The credentials are refused. *)
Definition unauthorized : ApiAnswers :=
  {| status_answer := Some (Scenario.err "Request failed with status code 401"
                              (Some 401) None);
     calls_answer := inl (Scenario.err "Request failed with status code 401"
                            (Some 401) None);
     users_answer := Some (Scenario.err "Request failed with status code 401"
                             (Some 401) None);
     extensive_answer := fun _ _ =>
       PostFail (Scenario.err "Request failed with status code 401" (Some 401) None) |}.

(** The status check passes; everything else is refused. *)
Definition onlyStatus : ApiAnswers :=
  {| status_answer := None;
     calls_answer := inl Scenario.e500;
     users_answer := Some Scenario.e500;
     extensive_answer := fun _ _ => PostFail Scenario.e500 |}.

(** Only the plain calls endpoint is down. *)
Definition callsDown : ApiAnswers :=
  {| status_answer := None;
     calls_answer := inl Scenario.e500;
     users_answer := None;
     extensive_answer := PageScenario.twoPages |}.

(** The second page of the extensive calls is refused. *)
Definition pageDown : ApiAnswers :=
  {| status_answer := None;
     calls_answer := inr (Some [StdScenario.s1; StdScenario.s2]);
     users_answer := None;
     extensive_answer := PageScenario.secondPageFails |}.

Definition config : Config :=
  {| gong_apiUrl := Some "https://api.gong.io";
     gong_accessKey := Some "key";
     gong_accessKeySecret := Some "secret";
     gong_basicToken := "a2V5OnNlY3JldA==";
     storage_videoPath := None |}.

(** The plain calls have been exported and saved. *)
Definition callsSaved : ExportState :=
  {| world := Scenario.w0;
     exportedData := set_calls (Some [StdScenario.s1; StdScenario.s2]) emptyExportedData;
     posted := [] |}.

End ExportScenario.

(** The keys of [exportedData] that the calls stage sets. *)
Definition videoKeys (x : ExportedData)
  : option (option (list StdCall)) * option (list Call) * option (list Success)
    * option VideoDownloadSummary :=
  (ed_calls x, ed_extensiveCalls x, ed_videoDownloads x, ed_videoDownloadSummary x).

(** [calm s s']: from [s] to [s'] nothing was posted, downloaded or
    resolved and no file was lost; at most directories were made and
    files written, and the keys of the calls stage are as they were. *)
Record calm (s s' : ExportState) : Prop := mkCalm {
  calm_posted : posted s' = posted s;
  calm_files : files (world s) ⊆ files (world s');
  calm_trace : adds isMkdir (world s) (world s');
  calm_keys : videoKeys (exportedData s') = videoKeys (exportedData s) }.

(** The same, when nothing could be written either. *)
Record still (s s' : ExportState) : Prop := mkStill {
  still_posted : posted s' = posted s;
  still_world : onlyRequests (world s) (world s');
  still_keys : videoKeys (exportedData s') = videoKeys (exportedData s) }.
(** * Properties *)

(** ** The model at work *)

(** The scenario of the specification: one call with an embedded URL, no
    refresh hook, nothing stored yet, a network that answers.  The
    directory is created, the limiter lets the first attempt through, the
    recording is fetched without credentials and written under a name made
    of date, id and title. *)
Example weekly_sync_is_downloaded :
  let r := downloadVideosFromExtensiveCalls Scenario.quietEnv
             (Scenario.downloader None) 0 (Some [Scenario.c1]) Scenario.w0 in
  r.1 = Ret [ {| callId := Some "c1"; title := "Weekly Sync";
                 filePath := "exports/videos/2024-03-01_c1_weekly_sync.mp4" |} ]
  /\ map snd (trace r.2)
     = [ EvMkdir "exports/videos";
         EvAttempt "https://bucket.s3.amazonaws.com/a.mp4" 0;
         EvGet "https://bucket.s3.amazonaws.com/a.mp4" None true;
         EvWrite "exports/videos/2024-03-01_c1_weekly_sync.mp4" true ]
  /\ currentCalls (rateLimit r.2) = 1
  /\ lastCallTime (rateLimit r.2) = Scenario.t0.
Proof. vm_compute. repeat split; reflexivity. Qed.

(** Two 429 answers with [Retry-After: 120], then success: the attempt is
    restarted after 120 s, at retry count 0, and the call succeeds. *)
Example throttled_twice_then_downloaded :
  let r := downloadVideosFromExtensiveCalls Scenario.envThrottledTwice
             (Scenario.downloader None) 1 (Some [Scenario.c1]) Scenario.w0 in
  (exists s, r.1 = Ret [s])
  /\ attempts (trace r.2) = [0; 0]%nat
  /\ sleeps RetryAfter (trace r.2) = [120000]
  /\ sleeps Backoff (trace r.2) = [].
Proof. vm_compute. split; [eexists; reflexivity | repeat split; reflexivity]. Qed.

(** A call without a video URL is recorded and skipped; a file name
    extension follows the embedded URL. *)
Example call_without_url_is_recorded :
  let r := forEachCall Scenario.quietEnv (Scenario.downloader None) 0
             [Scenario.c3; Scenario.c2] emptyAcc Scenario.w0 in
  exists acc, r.1 = Ret acc
    /\ failedDownloads acc
       = [ {| f_callId := Some "c3"; f_title := "No recording";
              f_detail := Reason "No video URL in extensive call data" |} ]
    /\ map filePath (downloadedFiles acc) = [ "exports/videos/2024-03-01_c2_demo.webm" ].
Proof. vm_compute. eexists. repeat split; reflexivity. Qed.

(** A 403 from a host that is not S3 takes the other branch of the
    [catch]: the same four attempts, then the error is thrown and the loop
    records its message. *)
Example forbidden_elsewhere_is_thrown_and_recorded :
  let r := forEachCall Scenario.envForbidden (Scenario.downloader None) 3
             [Scenario.c4] emptyAcc Scenario.w0 in
  exists acc, r.1 = Ret acc
    /\ failedDownloads acc
       = [ {| f_callId := Some "c4"; f_title := "Elsewhere";
              f_detail := Error "Request failed with status code 403" |} ]
    /\ attempts (trace r.2) = [0; 1; 2; 3]%nat.
Proof. vm_compute. eexists. repeat split; reflexivity. Qed.

Example parseInt_samples :
  Js.parseInt "120" = Some 120 /\ Js.parseInt " 12abc" = Some 12
  /\ Js.parseInt "-5" = Some (-5) /\ Js.parseInt "Wed, 21 Oct 2015 07:28:00 GMT" = None
  /\ Js.timer_ms None = 1 /\ Js.timer_ms (Some 0) = 1
  /\ Js.timer_ms (Some 60000) = 60000 /\ Js.timer_ms (Some 2147483648) = 1.
Proof. vm_compute. repeat split; reflexivity. Qed.

(** ** Unfolding and closure lemmas *)

Section Closure.

Context (env : Env) (self : VideoDownloader).

Lemma downloadVideo_eq fuel url filename retryCount maxRetries retryDelay w :
  downloadVideo env self fuel url filename retryCount maxRetries retryDelay w =
  match Js.truthy url with
  | None => (Ret None, w)
  | Some u =>
      match ensureDownloadsDir env self w with
      | (Throw e, w1) => (Throw e, w1)
      | (OutOfFuel, w1) => (OutOfFuel, w1)
      | (Ret _, w1) =>
          if existsSync (destination self u filename) w1
          then (Ret (Some (destination self u filename)), w1)
          else
            match attempt env self u (destination self u filename)
                    (log (EvAttempt u retryCount) (respectRateLimit w1)) with
            | (Saved, w3) => (Ret (Some (destination self u filename)), w3)
            | (Rejected e, w3) => (Throw e, w3)
            | (Caught e, w3) =>
                match outerCatch e u retryCount maxRetries retryDelay with
                | Settle r => (r, w3)
                | Restart why delay rc mr rd =>
                    match fuel with
                    | O => (OutOfFuel, sleep why delay w3)
                    | S fuel' =>
                        downloadVideo env self fuel' (Some u)
                          (Some (Js.or_else filename (Js.lastSegment u)))
                          rc mr rd (sleep why delay w3)
                    end
                end
            end
      end
  end.
Proof. destruct fuel; reflexivity. Qed.

Lemma truthy_Some_idem u v : Js.truthy u = Some v -> Js.truthy (Some v) = Some v.
Proof.
  destruct u as [[| c s] |]; simpl; intros H; inversion H; subst; reflexivity.
Qed.

Lemma truthy_Some_inv u v : Js.truthy u = Some v -> u = Some v /\ v <> "".
Proof.
  destruct u as [[| c s] |]; simpl; intros H; inversion H; subst.
  split; [reflexivity | discriminate].
Qed.

Lemma or_else_truthy s d : d <> "" -> Js.truthy (Some (Js.or_else s d)) = Some (Js.or_else s d).
Proof.
  intros Hd. unfold Js.or_else.
  destruct (Js.truthy s) as [v |] eqn:E.
  - eapply truthy_Some_idem; eauto.
  - destruct d; [congruence | reflexivity].
Qed.

(** The recursive call keeps the destination: the file name it passes on
    is the one already computed. *)
Lemma destination_idem u filename :
  destination self u (Some (Js.or_else filename (Js.lastSegment u)))
  = destination self u filename.
Proof.
  unfold destination. f_equal.
  unfold Js.or_else at 1.
  destruct (Js.truthy (Some (Js.or_else filename (Js.lastSegment u)))) as [v |] eqn:E.
  - apply truthy_Some_inv in E. destruct E as [E _]. congruence.
  - unfold Js.or_else in *. destruct (Js.truthy filename) as [f |] eqn:F.
    + apply truthy_Some_idem in F. congruence.
    + reflexivity.
Qed.

(** A relation that contains the steps [downloadVideo] takes for the URL
    [u] holds between the worlds before and after it. *)
Lemma downloadVideo_closed_at (R : World -> World -> Prop) (u : string) :
  (forall w, R w w) ->
  (forall a b c, R a b -> R b c -> R a c) ->
  (forall w, R w (ensureDownloadsDir env self w).2) ->
  (forall rc path w,
      R w (attempt env self u path (log (EvAttempt u rc) (respectRateLimit w))).2) ->
  (forall why d w, R w (sleep why d w)) ->
  forall fuel filename rc mr rd w,
    R w (downloadVideo env self fuel (Some u) filename rc mr rd w).2.
Proof.
  intros Hrefl Htrans Hmkdir Hattempt Hsleep.
  induction fuel as [| fuel IH]; intros filename rc mr rd w;
    rewrite downloadVideo_eq;
    (destruct (Js.truthy (Some u)) as [u' |] eqn:Hu; [| apply Hrefl]);
    (apply truthy_Some_inv in Hu; destruct Hu as [Hu _]; inversion Hu; subst u');
    pose proof (Hmkdir w) as Hm;
    (destruct (ensureDownloadsDir env self w) as [[[] | e | ] w1]; simpl in Hm; try exact Hm);
    (destruct (existsSync _ w1); [exact Hm |]);
    pose proof (Hattempt rc (destination self u filename) w1) as Ha;
    (destruct (attempt env self u _ _) as [[| e | e] w3]; simpl in Ha;
       try (eapply Htrans; [exact Hm | exact Ha]));
    (destruct (outerCatch e u rc mr rd) as [why delay rc' mr' rd' | r];
       [| eapply Htrans; [exact Hm | exact Ha]]);
    (eapply Htrans; [exact Hm |]);
    (eapply Htrans; [exact Ha |]).
  - apply Hsleep.
  - eapply Htrans; [apply Hsleep | apply IH].
Qed.

Section Closed.

Context (R : World -> World -> Prop) (HR : StepClosed env self R).

Lemma downloadVideo_closed fuel url filename rc mr rd w :
  R w (downloadVideo env self fuel url filename rc mr rd w).2.
Proof.
  destruct url as [u |].
  - apply downloadVideo_closed_at.
    + apply (sc_refl _ _ _ HR).
    + apply (sc_trans _ _ _ HR).
    + apply (sc_mkdir _ _ _ HR).
    + intros. apply (sc_attempt _ _ _ HR).
    + apply (sc_sleep _ _ _ HR).
  - rewrite downloadVideo_eq. apply (sc_refl _ _ _ HR).
Qed.

Lemma freshVideoUrl_closed c embedded w :
  R w (freshVideoUrl env self c embedded w).2.
Proof.
  unfold freshVideoUrl, try_catch.
  destruct (Js.truthy (callIdOf c)) as [cid |]; [| apply (sc_refl _ _ _ HR)].
  destruct (refreshUrlCallback self) as [hook |]; [| apply (sc_refl _ _ _ HR)].
  unfold bind. pose proof (sc_hook _ _ _ HR hook cid w) as Hh.
  destruct (runHook env hook cid w) as [[u | e | ] w1]; exact Hh.
Qed.

Lemma processCall_closed fuel c acc w :
  R w (processCall env self fuel c acc w).2.
Proof.
  unfold processCall, try_catch.
  destruct (videoUrlOf c) as [embedded |]; [| apply (sc_refl _ _ _ HR)].
  unfold bind.
  pose proof (freshVideoUrl_closed c embedded w) as Hf.
  destruct (freshVideoUrl env self c embedded w) as [[fresh | e | ] w1]; simpl in Hf;
    try exact Hf.
  pose proof (downloadVideo_closed fuel (Some fresh) (Some (filenameFor env c embedded))
                O defaultMaxRetries defaultRetryDelay w1) as Hd.
  destruct (downloadVideo env self fuel _ _ _ _ _ w1) as [[p | e | ] w2]; simpl in Hd;
    try (eapply (sc_trans _ _ _ HR); [exact Hf | exact Hd]).
  destruct (Js.truthy p); (eapply (sc_trans _ _ _ HR); [exact Hf | exact Hd]).
Qed.

Lemma forEachCall_closed fuel calls :
  forall acc w, R w (forEachCall env self fuel calls acc w).2.
Proof.
  induction calls as [| c rest IH]; intros acc w; simpl.
  - apply (sc_refl _ _ _ HR).
  - unfold bind. pose proof (processCall_closed fuel c acc w) as Hp.
    destruct (processCall env self fuel c acc w) as [[acc' | e | ] w1]; simpl in Hp;
      try exact Hp.
    eapply (sc_trans _ _ _ HR); [exact Hp | apply IH].
Qed.

Lemma downloadVideosFromExtensiveCalls_closed fuel calls w :
  R w (downloadVideosFromExtensiveCalls env self fuel calls w).2.
Proof.
  unfold downloadVideosFromExtensiveCalls.
  destruct calls as [calls |]; [| apply (sc_refl _ _ _ HR)].
  unfold bind. pose proof (forEachCall_closed fuel calls emptyAcc w) as Hl.
  destruct (forEachCall env self fuel calls emptyAcc w) as [[acc | e | ] w1]; simpl in Hl;
    try exact Hl.
  pose proof (sc_save _ _ _ HR (failedDownloads acc) w1) as Hs.
  destruct (saveFailedDownloads (failedDownloads acc) w1) as [[[] | e | ] w2];
    simpl in Hs; (eapply (sc_trans _ _ _ HR); [exact Hl | exact Hs]).
Qed.

End Closed.

End Closure.

(** ** An empty URL does nothing *)

Section EmptyUrl.

Context (env : Env) (self : VideoDownloader).

(** C10. Called with a [null]/[undefined] URL ([None]) or with the empty
    string, [downloadVideo] returns [null] and leaves the whole world as
    it found it: no exception, no directory or file created, no request
    issued, no event of any kind, and the rate-limit state (current call
    count, reset time, last-call timestamp) untouched.  This holds for
    every recursion budget, file name and retry parameters. *)
Theorem downloadVideo_empty_url_is_noop :
  forall (fuel : nat) (url filename : option string)
         (retryCount maxRetries : nat) (retryDelay : Z) (w : World),
    url = None \/ url = Some "" ->
    let r := downloadVideo env self fuel url filename
               retryCount maxRetries retryDelay w in
    r.1 = Ret None
    /\ r.2 = w
    /\ files r.2 = files w
    /\ trace r.2 = trace w
    /\ reqs r.2 = reqs w
    /\ currentCalls (rateLimit r.2) = currentCalls (rateLimit w)
    /\ resetTime (rateLimit r.2) = resetTime (rateLimit w)
    /\ lastCallTime (rateLimit r.2) = lastCallTime (rateLimit w).
Proof.
  intros fuel url filename rc mr rd w Hurl r.
  assert (Hr : r = (Ret None, w)).
  { subst r. destruct Hurl as [-> | ->]; destruct fuel; reflexivity. }
  rewrite Hr. simpl. repeat split; reflexivity.
Qed.

End EmptyUrl.

(** ** The signed-URL resolver *)

Section SignedUrl.

Context (env : Env).

Lemma apiRequest_fst verb callId w :
  (apiRequest env verb callId w).1 = api_media env (reqs w) verb callId.
Proof. reflexivity. Qed.

Lemma apiRequest_reqs verb callId w :
  reqs (apiRequest env verb callId w).2 = S (reqs w).
Proof. reflexivity. Qed.

Lemma apiRequest_apiCalls verb callId w :
  apiCalls (trace (apiRequest env verb callId w).2) = apiCalls (trace w) ++ [verb].
Proof. unfold apiCalls. simpl. rewrite omap_app. reflexivity. Qed.

(** C5, as the code has it.  [getSignedMediaUrl] issues its requests in
    the fixed order PUT/octet-stream, PUT/text-plain, DELETE and stops at
    the first response body with a [url]; a URL it returns is the first
    one found in that order.  It returns [null] exactly when the first PUT
    succeeds with no [url] in its body (the fallbacks are then not tried).
    It raises exactly when the first PUT is rejected and neither fallback
    yields a URL, and what it raises is the first PUT's own error,
    whatever its kind: there is no separate authorization error, and the
    case is told apart from "no URL present" only by being raised. *)
Theorem getSignedMediaUrl_first_url_or_first_error :
  forall (callId : string) (w : World),
    let r1 := api_media env (reqs w) PutOctetStream callId in
    let r2 := api_media env (S (reqs w)) PutTextPlain callId in
    let r3 := api_media env (S (S (reqs w))) Delete callId in
    let res := getSignedMediaUrl env callId w in
    (forall u, res.1 = Ret (Some u) <->
       bodyUrl r1 = Some u
       \/ (is_fail r1 /\ bodyUrl r2 = Some u)
       \/ (is_fail r1 /\ bodyUrl r2 = None /\ bodyUrl r3 = Some u))
    /\ (res.1 = Ret None <-> (~ is_fail r1 /\ bodyUrl r1 = None))
    /\ (forall e, res.1 = Throw e <->
          (r1 = ApiFail e /\ bodyUrl r2 = None /\ bodyUrl r3 = None))
    /\ res.1 <> OutOfFuel
    /\ (exists vs, apiCalls (trace res.2) = apiCalls (trace w) ++ vs
          /\ (vs = [PutOctetStream]
              \/ vs = [PutOctetStream; PutTextPlain]
              \/ vs = [PutOctetStream; PutTextPlain; Delete])
          /\ (~ is_fail r1 -> vs = [PutOctetStream])).
Proof.
  intros callId w r1 r2 r3 res.
  subst res. unfold getSignedMediaUrl.
  destruct (apiRequest env PutOctetStream callId w) as [a1 w1] eqn:E1.
  assert (Ha1 : a1 = r1) by (subst r1; rewrite <- apiRequest_fst, E1; reflexivity).
  assert (Hw1 : w1 = (apiRequest env PutOctetStream callId w).2) by (rewrite E1; reflexivity).
  assert (Hq1 : reqs w1 = S (reqs w)) by (rewrite Hw1; apply apiRequest_reqs).
  assert (Hc1 : apiCalls (trace w1) = apiCalls (trace w) ++ [PutOctetStream])
    by (rewrite Hw1; apply apiRequest_apiCalls).
  rewrite Ha1. destruct r1 as [u1 | e1] eqn:R1.
  - (* the first PUT succeeds *)
    simpl bodyUrl.
    assert (Hvs : exists vs, apiCalls (trace w1) = apiCalls (trace w) ++ vs
          /\ (vs = [PutOctetStream]
              \/ vs = [PutOctetStream; PutTextPlain]
              \/ vs = [PutOctetStream; PutTextPlain; Delete])
          /\ (~ is_fail (ApiOk u1) -> vs = [PutOctetStream])).
    { exists [PutOctetStream]. rewrite Hc1. tauto. }
    destruct (Js.truthy u1) as [url |] eqn:T1; simpl;
      (split; [| split; [| split; [| split]]]);
      try exact Hvs; try discriminate;
      intros; simpl; intuition congruence.
  - (* the first PUT is rejected *)
    destruct (apiRequest env PutTextPlain callId w1) as [a2 w2] eqn:E2.
    assert (Ha2 : a2 = r2).
    { subst r2. rewrite <- Hq1, <- apiRequest_fst, E2. reflexivity. }
    assert (Hw2 : w2 = (apiRequest env PutTextPlain callId w1).2) by (rewrite E2; reflexivity).
    assert (Hq2 : reqs w2 = S (S (reqs w))) by (rewrite Hw2, apiRequest_reqs, Hq1; reflexivity).
    assert (Hc2 : apiCalls (trace w2) = apiCalls (trace w) ++ [PutOctetStream; PutTextPlain]).
    { rewrite Hw2, apiRequest_apiCalls, Hc1, <- app_assoc. reflexivity. }
    rewrite Ha2. destruct (bodyUrl r2) as [url2 |] eqn:B2; cbv beta iota; cbn [fst snd].
    + (split; [| split; [| split; [| split]]]);
        try discriminate; try (intros; simpl; intuition congruence).
      exists [PutOctetStream; PutTextPlain]. rewrite Hc2. simpl. tauto.
    + destruct (apiRequest env Delete callId w2) as [a3 w3] eqn:E3.
      assert (Ha3 : a3 = r3).
      { subst r3. rewrite <- Hq2, <- apiRequest_fst, E3. reflexivity. }
      assert (Hc3 : apiCalls (trace w3)
                    = apiCalls (trace w) ++ [PutOctetStream; PutTextPlain; Delete]).
      { replace w3 with (apiRequest env Delete callId w2).2 by (rewrite E3; reflexivity).
        rewrite apiRequest_apiCalls, Hc2, <- app_assoc. reflexivity. }
      rewrite Ha3.
      assert (Hvs : exists vs, apiCalls (trace w3) = apiCalls (trace w) ++ vs
          /\ (vs = [PutOctetStream]
              \/ vs = [PutOctetStream; PutTextPlain]
              \/ vs = [PutOctetStream; PutTextPlain; Delete])
          /\ (~ is_fail (ApiFail e1) -> vs = [PutOctetStream])).
      { exists [PutOctetStream; PutTextPlain; Delete]. rewrite Hc3. simpl. tauto. }
      destruct (bodyUrl r3) as [url3 |] eqn:B3; simpl;
        (split; [| split; [| split; [| split]]]);
        try exact Hvs; try discriminate;
        intros; simpl; intuition congruence.
Qed.

End SignedUrl.

(** C5, as the specification words it, fails.  With the first PUT cut by a
    connection reset and both fallbacks answering 200 without a [url], no
    attempt yields a URL, yet the resolver does not return [null]: it
    raises, and what it raises is the connection error, which has no HTTP
    status at all and so is no authorization error. *)
Lemma getSignedMediaUrl_raises_without_url :
  (forall n v, bodyUrl (api_media Scenario.envNoGrant n v "c1") = None)
  /\ (getSignedMediaUrl Scenario.envNoGrant "c1" Scenario.w0).1 <> Ret None
  /\ (getSignedMediaUrl Scenario.envNoGrant "c1" Scenario.w0).1 = Throw Scenario.eReset
  /\ status Scenario.eReset = None.
Proof.
  split; [intros n [] ; reflexivity |].
  split; [discriminate |].
  split; reflexivity.
Qed.

(** ** What each primitive adds to the trace *)

Section Primitives.

Context (env : Env) (self : VideoDownloader).

Lemma respectRateLimit_trace w :
  exists evs, trace (respectRateLimit w) = trace w ++ evs
              /\ Forall isLimiterSleep evs.
Proof.
  unfold respectRateLimit, rl_waitForSpacing, rl_waitForDay, rl_resetIfElapsed.
  destruct (now w >? resetTime (rateLimit w));
    cbn [set_rateLimit rateLimit now trace];
    match goal with |- context [if ?c then _ else _] => destruct c end;
    cbn [set_rateLimit rateLimit now trace sleep advance log];
    match goal with |- context [if ?c then _ else _] => destruct c end;
    cbn [set_rateLimit rateLimit now trace sleep advance log];
    rewrite <- ?app_assoc;
    eexists; (split; [try reflexivity; symmetry; apply app_nil_r |]);
    repeat constructor.
Qed.

Lemma omap_limiter_nil {A} (f : Z * Event -> option A) evs :
  (forall t k ms, k = DailyLimit \/ k = Spacing -> f (t, EvSleep k ms) = None) ->
  Forall isLimiterSleep evs -> omap f evs = [].
Proof.
  intros Hf. induction 1 as [| [t e] evs He _ IH]; [reflexivity |].
  unfold isLimiterSleep in He. simpl in He.
  destruct e; try contradiction.
  change (omap f ((t, EvSleep why ms) :: evs))
    with (match f (t, EvSleep why ms) with
          | Some y => y :: omap f evs
          | None => omap f evs
          end).
  rewrite Hf; [exact IH |]. destruct why; tauto.
Qed.

Lemma netEvents_respectRateLimit w :
  netEvents (trace (respectRateLimit w)) = netEvents (trace w).
Proof.
  destruct (respectRateLimit_trace w) as (evs & -> & Hevs).
  unfold netEvents. rewrite omap_app, (omap_limiter_nil _ evs); auto.
  apply app_nil_r.
Qed.

Lemma netEvents_sleep why d w :
  netEvents (trace (sleep why d w)) = netEvents (trace w).
Proof. unfold netEvents. simpl. rewrite omap_app. simpl. apply app_nil_r. Qed.

Lemma netEvents_ensureDownloadsDir w :
  netEvents (trace (ensureDownloadsDir env self w).2) = netEvents (trace w).
Proof.
  unfold ensureDownloadsDir.
  destruct (existsSync _ w); [reflexivity |].
  destruct (mkdir_error env _); [reflexivity |].
  unfold netEvents, add_files. simpl. rewrite omap_app. simpl.
  rewrite app_nil_r. f_equal.
  generalize (ancestors (downloadsDir self)). intros l.
  induction l; simpl; auto.
Qed.

Lemma netEvents_pipeToFile n path w :
  netEvents (trace (pipeToFile env n path w).2) = netEvents (trace w).
Proof.
  unfold pipeToFile. destruct (write_stream env n path) as [| msg []];
    unfold netEvents; simpl; rewrite omap_app; simpl; apply app_nil_r.
Qed.

Lemma netEvents_apiRequest v cid w :
  netEvents (trace (apiRequest env v cid w).2) = netEvents (trace w).
Proof. unfold netEvents. simpl. rewrite omap_app. simpl. apply app_nil_r. Qed.

Lemma netEvents_getSignedMediaUrl cid w :
  netEvents (trace (getSignedMediaUrl env cid w).2) = netEvents (trace w).
Proof.
  unfold getSignedMediaUrl.
  destruct (apiRequest env PutOctetStream cid w) as [r1 w1] eqn:E1.
  assert (H1 : netEvents (trace w1) = netEvents (trace w)).
  { replace w1 with (apiRequest env PutOctetStream cid w).2 by (rewrite E1; reflexivity).
    apply netEvents_apiRequest. }
  destruct r1 as [u | e]; [destruct (Js.truthy u); exact H1 |].
  destruct (apiRequest env PutTextPlain cid w1) as [r2 w2] eqn:E2.
  assert (H2 : netEvents (trace w2) = netEvents (trace w)).
  { replace w2 with (apiRequest env PutTextPlain cid w1).2 by (rewrite E2; reflexivity).
    rewrite netEvents_apiRequest. exact H1. }
  destruct (bodyUrl r2); [exact H2 |].
  destruct (apiRequest env Delete cid w2) as [r3 w3] eqn:E3.
  assert (H3 : netEvents (trace w3) = netEvents (trace w)).
  { replace w3 with (apiRequest env Delete cid w2).2 by (rewrite E3; reflexivity).
    rewrite netEvents_apiRequest. exact H2. }
  destruct (bodyUrl r3); exact H3.
Qed.

Lemma netEvents_runHook h cid w :
  netEvents (trace (runHook env h cid w).2) = netEvents (trace w).
Proof.
  destruct h as [f |]; simpl.
  - destruct (f (reqs w) cid); unfold netEvents; simpl; rewrite omap_app; simpl;
      apply app_nil_r.
  - unfold exportRefreshCallback, try_catch, bind, ret.
    pose proof (netEvents_getSignedMediaUrl cid w) as H.
    destruct (getSignedMediaUrl env cid w) as [[u | e | ] w1]; exact H.
Qed.

Lemma netEvents_saveFailedDownloads failed w :
  netEvents (trace (saveFailedDownloads failed w).2) = netEvents (trace w).
Proof.
  unfold saveFailedDownloads. destruct failed; [reflexivity |].
  destruct (existsSync exportsDir w); [| reflexivity].
  unfold netEvents. simpl. rewrite omap_app. simpl. apply app_nil_r.
Qed.

Lemma netEvents_log e w :
  netEvents (trace (log e w))
  = netEvents (trace w)
      ++ match e with EvAttempt _ _ | EvGet _ _ _ => [e] | _ => [] end.
Proof. unfold netEvents. cbn [log trace]. rewrite omap_app. destruct e; reflexivity. Qed.

Lemma netEvents_axiosGet u a w :
  netEvents (trace (axiosGet env u a w).2)
  = netEvents (trace w)
      ++ [EvGet u a (match (axiosGet env u a w).1 with GetOk => true | _ => false end)].
Proof.
  unfold axiosGet. cbn [fst snd advance next_req trace].
  change (trace (log ?e ?w) ) with (trace (log e w)).
  exact (netEvents_log _ w).
Qed.

(** One pass through the nested [try] blocks, seen from the network. *)
Lemma netEvents_attempt u rc path w :
  let w' := (attempt env self u path (log (EvAttempt u rc) (respectRateLimit w))).2 in
  netEvents (trace w') = netEvents (trace w) ++ [EvAttempt u rc; EvGet u None true]
  \/ exists ok, netEvents (trace w')
                = netEvents (trace w)
                    ++ [EvAttempt u rc; EvGet u None false;
                        EvGet u (Some (authHeader self)) ok].
Proof.
  intros w'. subst w'. unfold attempt.
  set (w2 := log (EvAttempt u rc) (respectRateLimit w)).
  assert (H2 : netEvents (trace w2) = netEvents (trace w) ++ [EvAttempt u rc]).
  { subst w2. rewrite netEvents_log, netEvents_respectRateLimit. reflexivity. }
  pose proof (netEvents_axiosGet u None w2) as G1.
  destruct (axiosGet env u None w2) as [r1 w3]. cbn [fst snd] in G1.
  rewrite H2, <- app_assoc in G1. cbn [app] in G1.
  destruct r1 as [| e1].
  - left. rewrite netEvents_pipeToFile. exact G1.
  - right.
    pose proof (netEvents_axiosGet u (Some (authHeader self)) w3) as G2.
    destruct (axiosGet env u (Some (authHeader self)) w3) as [r2 w4].
    cbn [fst snd] in G2. rewrite G1, <- app_assoc in G2. cbn [app] in G2.
    destruct r2 as [| e2].
    + exists true. rewrite netEvents_pipeToFile. exact G2.
    + exists false. exact G2.
Qed.

End Primitives.

(** ** Direct request first, credentials only on failure *)

Section DirectFirst.

Context (env : Env) (self : VideoDownloader).

Lemma DirectThenAuth_app h l1 l2 :
  DirectThenAuth h l1 -> DirectThenAuth h l2 -> DirectThenAuth h (l1 ++ l2).
Proof.
  induction 1; intros H2; simpl; [exact H2 | |]; constructor; auto.
Qed.

Lemma extendsWith_closed :
  StepClosed env self (extendsWith (DirectThenAuth (authHeader self))).
Proof.
  assert (Hsame : forall w w', netEvents (trace w') = netEvents (trace w) ->
                               extendsWith (DirectThenAuth (authHeader self)) w w').
  { intros w w' H. exists []. rewrite app_nil_r. split; [exact H | constructor]. }
  constructor.
  - intros w. apply Hsame. reflexivity.
  - intros a b c (e1 & H1 & P1) (e2 & H2 & P2). exists (e1 ++ e2).
    rewrite H2, H1, <- app_assoc. split; [reflexivity |].
    apply DirectThenAuth_app; assumption.
  - intros w. apply Hsame, netEvents_ensureDownloadsDir.
  - intros u rc path w.
    destruct (netEvents_attempt env self u rc path w) as [H | [ok H]];
      eexists; (split; [exact H |]); repeat constructor.
  - intros why d w. apply Hsame, netEvents_sleep.
  - intros h cid w. apply Hsame, netEvents_runHook.
  - intros failed w. apply Hsame, netEvents_saveFailedDownloads.
Qed.

End DirectFirst.

(** ** Appending to the trace *)

Section Adds.

Context (env : Env) (self : VideoDownloader).

Lemma adds_refl P w : adds P w w.
Proof. exists []. rewrite app_nil_r. split; [reflexivity | constructor]. Qed.

Lemma adds_trans P a b c : adds P a b -> adds P b c -> adds P a c.
Proof.
  intros (e1 & H1 & F1) (e2 & H2 & F2). exists (e1 ++ e2).
  rewrite H2, H1, <- app_assoc. split; [reflexivity |].
  apply Forall_app; split; assumption.
Qed.

Lemma adds_weaken (P Q : Event -> Prop) w w' :
  (forall e, P e -> Q e) -> adds P w w' -> adds Q w w'.
Proof.
  intros HPQ (evs & H & F). exists evs. split; [exact H |].
  eapply Forall_impl; [exact F |]. intros te. apply HPQ.
Qed.

Lemma adds_same P w w' : trace w' = trace w -> adds P w w'.
Proof. intros H. exists []. rewrite app_nil_r. split; [exact H | constructor]. Qed.

Lemma adds_log (P : Event -> Prop) e w : P e -> adds P w (log e w).
Proof. intros H. exists [(now w, e)]. split; [reflexivity |]. repeat constructor. exact H. Qed.

(** A projection that ignores the added events does not change. *)
Lemma omap_adds {A} (f : Z * Event -> option A) (P : Event -> Prop) w w' :
  (forall t e, P e -> f (t, e) = None) ->
  adds P w w' -> omap f (trace w') = omap f (trace w).
Proof.
  intros Hf (evs & -> & F). rewrite omap_app.
  assert (Hnil : omap f evs = []).
  { clear -Hf F. induction F as [| [t e] evs He _ IH]; [reflexivity |].
    change (omap f ((t, e) :: evs))
      with (match f (t, e) with Some y => y :: omap f evs | None => omap f evs end).
    rewrite (Hf t e He). exact IH. }
  rewrite Hnil. apply app_nil_r.
Qed.

Lemma quiet_refl w : quiet w w.
Proof. constructor; try reflexivity; try lia. apply adds_refl. Qed.

Lemma quiet_trans a b c : quiet a b -> quiet b c -> quiet a c.
Proof.
  intros [F1 R1 N1 Q1 A1] [F2 R2 N2 Q2 A2]. constructor; try congruence; try lia.
  eapply adds_trans; eauto.
Qed.

Lemma apiRequest_quiet v cid w : quiet w (apiRequest env v cid w).2.
Proof.
  constructor; simpl; try reflexivity; try lia.
  apply (adds_log isResolution). exact I.
Qed.

Lemma getSignedMediaUrl_quiet cid w : quiet w (getSignedMediaUrl env cid w).2.
Proof.
  unfold getSignedMediaUrl.
  pose proof (apiRequest_quiet PutOctetStream cid w) as H1.
  destruct (apiRequest env PutOctetStream cid w) as [r1 w1]. cbn [snd] in H1.
  destruct r1 as [u | e]; [destruct (Js.truthy u); exact H1 |].
  pose proof (apiRequest_quiet PutTextPlain cid w1) as H2.
  destruct (apiRequest env PutTextPlain cid w1) as [r2 w2]. cbn [snd] in H2.
  pose proof (quiet_trans _ _ _ H1 H2) as H12.
  destruct (bodyUrl r2); [exact H12 |].
  pose proof (apiRequest_quiet Delete cid w2) as H3.
  destruct (apiRequest env Delete cid w2) as [r3 w3]. cbn [snd] in H3.
  pose proof (quiet_trans _ _ _ H12 H3) as H123.
  destruct (bodyUrl r3); exact H123.
Qed.

Lemma getSignedMediaUrl_returns_or_throws cid w :
  (getSignedMediaUrl env cid w).1 <> OutOfFuel.
Proof.
  unfold getSignedMediaUrl.
  destruct (apiRequest env PutOctetStream cid w) as [[u | e] w1];
    [destruct (Js.truthy u); discriminate |].
  destruct (apiRequest env PutTextPlain cid w1) as [r2 w2].
  destruct (bodyUrl r2); [discriminate |].
  destruct (apiRequest env Delete cid w2) as [r3 w3].
  destruct (bodyUrl r3); discriminate.
Qed.

Lemma runHook_quiet h cid w : quiet w (runHook env h cid w).2.
Proof.
  destruct h as [f |]; simpl.
  - assert (Hq : quiet w (advance (Z.of_nat (http_ms env (reqs w)))
                            (next_req (log (EvHook cid) w)))).
    { constructor; simpl; try reflexivity; try lia.
      apply (adds_log isResolution). exact I. }
    destruct (f (reqs w) cid); exact Hq.
  - unfold exportRefreshCallback, try_catch, bind, ret.
    pose proof (getSignedMediaUrl_quiet cid w) as H.
    destruct (getSignedMediaUrl env cid w) as [[u | e | ] w1]; exact H.
Qed.

Lemma runHook_returns_or_throws h cid w : (runHook env h cid w).1 <> OutOfFuel.
Proof.
  destruct h as [f |]; simpl.
  - destruct (f (reqs w) cid); discriminate.
  - unfold exportRefreshCallback, try_catch, bind, ret.
    pose proof (getSignedMediaUrl_returns_or_throws cid w) as H.
    destruct (getSignedMediaUrl env cid w) as [[u | e | ] w1]; simpl in *;
      congruence.
Qed.

(** The URL the download is made from.  Resolution always produces one,
    it is never empty, and getting it is quiet. *)
Lemma freshVideoUrl_spec c embedded w :
  embedded <> "" ->
  exists fresh w1,
    freshVideoUrl env self c embedded w = (Ret fresh, w1)
    /\ fresh <> "" /\ quiet w w1.
Proof.
  intros Hemb. unfold freshVideoUrl, try_catch.
  destruct (Js.truthy (callIdOf c)) as [cid |];
    [| exists embedded, w; split; [reflexivity | split; [exact Hemb | apply quiet_refl]]].
  destruct (refreshUrlCallback self) as [hook |];
    [| exists embedded, w; split; [reflexivity | split; [exact Hemb | apply quiet_refl]]].
  unfold bind, ret.
  pose proof (runHook_quiet hook cid w) as Hq.
  pose proof (runHook_returns_or_throws hook cid w) as Hr.
  destruct (runHook env hook cid w) as [[u | e | ] w1]; cbn [fst snd] in *.
  - exists (Js.or_else u embedded), w1. split; [reflexivity |]. split; [| exact Hq].
    pose proof (or_else_truthy u embedded Hemb) as Ht.
    intros Heq. rewrite Heq in Ht. discriminate.
  - exists embedded, w1. auto.
  - congruence.
Qed.

End Adds.

(** ** A storage directory that cannot be created *)

Section StorageDirectory.

Context (env : Env) (self : VideoDownloader).

Lemma videoUrlOf_nonempty c u : videoUrlOf c = Some u -> u <> "".
Proof. unfold videoUrlOf. intros H. apply truthy_Some_inv in H. tauto. Qed.




End StorageDirectory.


(** ** Which URL is downloaded *)

Section UrlPrecedence.

Context (env : Env) (self : VideoDownloader).

Lemma downloadVideo_targets u fuel filename rc mr rd w :
  extendsWith (Forall (targets u)) w
    (downloadVideo env self fuel (Some u) filename rc mr rd w).2.
Proof.
  assert (Hsame : forall w w', netEvents (trace w') = netEvents (trace w) ->
                               extendsWith (Forall (targets u)) w w').
  { intros v v' H. exists []. rewrite app_nil_r. split; [exact H | constructor]. }
  apply downloadVideo_closed_at.
  - intros v. apply Hsame. reflexivity.
  - intros a b c (e1 & H1 & P1) (e2 & H2 & P2). exists (e1 ++ e2).
    rewrite H2, H1, <- app_assoc. split; [reflexivity |].
    apply Forall_app; split; assumption.
  - intros v. apply Hsame, netEvents_ensureDownloadsDir.
  - intros rc' path v.
    destruct (netEvents_attempt env self u rc' path v) as [H | [ok H]];
      eexists; (split; [exact H |]); repeat constructor.
  - intros why d v. apply Hsame, netEvents_sleep.
Qed.

(** C6. For a call with an embedded media URL, a call id and a refresh
    hook installed: when the hook answers with a URL (non-null and not
    the empty string), the download is made from the hook's URL; when the
    hook answers [null] or throws, it is made from the embedded URL.  In
    both cases processing the call is exactly: run the hook, then run
    [downloadVideo] on the URL so chosen; and every download attempt and
    every GET this adds to the trace is aimed at that URL. *)
Theorem refreshed_url_takes_precedence :
  forall (fuel : nat) (c : Call) (acc : Acc) (w : World)
         (embedded cid : string) (hook : RefreshHook),
    videoUrlOf c = Some embedded ->
    Js.truthy (callIdOf c) = Some cid ->
    refreshUrlCallback self = Some hook ->
    let h := runHook env hook cid w in
    let used := match h.1 with
                | Ret (Some u) => if String.eqb u "" then embedded else u
                | _ => embedded
                end in
    (forall u, h.1 = Ret (Some u) -> u <> "" -> used = u)
    /\ (h.1 = Ret None -> used = embedded)
    /\ (forall e, h.1 = Throw e -> used = embedded)
    /\ freshVideoUrl env self c embedded w = (Ret used, h.2)
    /\ (processCall env self fuel c acc w).2
       = (downloadVideo env self fuel (Some used)
            (Some (filenameFor env c embedded))
            O defaultMaxRetries defaultRetryDelay h.2).2
    /\ extendsWith (Forall (targets used)) w (processCall env self fuel c acc w).2.
Proof.
  intros fuel c acc w embedded cid hook Hv Hid Hhook h used.
  assert (Hfresh : freshVideoUrl env self c embedded w = (Ret used, h.2)).
  { unfold freshVideoUrl, try_catch, bind, ret. rewrite Hid, Hhook.
    subst used h. pose proof (runHook_returns_or_throws env hook cid w) as Hr.
    destruct (runHook env hook cid w) as [[u | e | ] w1]; cbn [fst snd] in *;
      [| reflexivity | congruence].
    destruct u as [[| ch u] |]; reflexivity. }
  assert (Hproc : (processCall env self fuel c acc w).2
       = (downloadVideo env self fuel (Some used)
            (Some (filenameFor env c embedded))
            O defaultMaxRetries defaultRetryDelay h.2).2).
  { unfold processCall, try_catch. rewrite Hv. unfold bind at 1. rewrite Hfresh.
    unfold bind, ret.
    destruct (downloadVideo env self fuel (Some used) _ _ _ _ h.2) as [[p | e | ] w2];
      [destruct (Js.truthy p) | |]; reflexivity. }
  split; [| split; [| split; [| split; [exact Hfresh | split; [exact Hproc |]]]]].
  - intros u Hu Hne. subst used. rewrite Hu.
    destruct (String.eqb_spec u ""); [contradiction | reflexivity].
  - intros Hu. subst used. rewrite Hu. reflexivity.
  - intros e Hu. subst used. rewrite Hu. reflexivity.
  - rewrite Hproc.
    destruct (downloadVideo_targets used fuel (Some (filenameFor env c embedded))
                O defaultMaxRetries defaultRetryDelay h.2) as (evs & He & Hall).
    exists evs. split; [| exact Hall].
    rewrite He. f_equal. subst h. apply netEvents_runHook.
Qed.

End UrlPrecedence.

(** ** Files and directories *)

Section Files.

Context (env : Env) (self : VideoDownloader).

Lemma length_append (a b : string) :
  String.length (a +:+ b) = (String.length a + String.length b)%nat.
Proof. induction a as [| c a IH]; simpl; [reflexivity | rewrite IH; reflexivity]. Qed.

Lemma ancestors_aux_shorter acc s x :
  x ∈ ancestors_aux acc s ->
  (String.length x < String.length acc + String.length s)%nat.
Proof.
  revert acc. induction s as [| c s IH]; intros acc Hx; simpl in Hx.
  - inversion Hx.
  - destruct (Ascii.eqb c "/").
    + apply elem_of_app in Hx. destruct Hx as [Hx | Hx].
      * destruct (String.eqb acc ""); [inversion Hx |].
        apply list_elem_of_singleton in Hx. subst x. simpl. lia.
      * apply IH in Hx. rewrite length_append in Hx. simpl in *. lia.
    + apply IH in Hx. rewrite length_append in Hx. simpl in *. lia.
Qed.

Lemma files_add_files l w p :
  p ∈ files (add_files l w) <-> p ∈ l \/ p ∈ files w.
Proof.
  induction l as [| x l IH]; simpl.
  - split; [auto | intros [H | H]; [inversion H | exact H]].
  - rewrite elem_of_union, elem_of_singleton, IH, elem_of_cons. tauto.
Qed.

Lemma files_add_files_same l w :
  rateLimit (add_files l w) = rateLimit w /\ now (add_files l w) = now w
  /\ reqs (add_files l w) = reqs w /\ trace (add_files l w) = trace w.
Proof. induction l as [| x l IH]; simpl; tauto. Qed.

(** A file inside the downloads directory is neither that directory nor
    one of its ancestors. *)
Lemma destination_not_a_directory u filename :
  destination self u filename ∉ downloadsDir self :: ancestors (downloadsDir self).
Proof.
  intros H. unfold destination, path_join in H.
  assert (Hlen : (String.length (downloadsDir self)
                  < String.length (downloadsDir self +:+ "/"
                       +:+ Js.or_else filename (Js.lastSegment u)))%nat).
  { rewrite !length_append. simpl. lia. }
  apply elem_of_cons in H. destruct H as [H | H].
  - rewrite H in Hlen. lia.
  - apply ancestors_aux_shorter in H. simpl in H. lia.
Qed.

Lemma existsSync_true p w : existsSync p w = true <-> p ∈ files w.
Proof. unfold existsSync. apply bool_decide_eq_true. Qed.

Lemma existsSync_false p w : existsSync p w = false <-> p ∉ files w.
Proof. unfold existsSync. apply bool_decide_eq_false. Qed.

(** What [ensureDownloadsDir] does when the storage is ready. *)
Lemma ensureDownloadsDir_ready w :
  storageReady env self w ->
  exists w1,
    ensureDownloadsDir env self w = (Ret tt, w1)
    /\ existsSync (downloadsDir self) w1 = true
    /\ files w ⊆ files w1
    /\ (forall u filename,
           existsSync (destination self u filename) w1
           = existsSync (destination self u filename) w)
    /\ rateLimit w1 = rateLimit w /\ now w1 = now w /\ reqs w1 = reqs w
    /\ adds (fun e => exists d, e = EvMkdir d) w w1.
Proof.
  intros Hready. unfold ensureDownloadsDir.
  destruct (existsSync (downloadsDir self) w) eqn:Hd.
  - exists w. repeat split; auto. apply adds_refl.
  - destruct Hready as [Hc | Hmk]; [congruence |]. rewrite Hmk.
    eexists. split; [reflexivity |].
    destruct (files_add_files_same (downloadsDir self :: ancestors (downloadsDir self)) w)
      as (Hrl & Hnow & Hreqs & Htr).
    cbn [log files rateLimit now reqs trace].
    repeat split.
    + apply existsSync_true. cbn [files log]. apply files_add_files. left. left.
    + intros p Hp. apply files_add_files. right. exact Hp.
    + intros u filename. unfold existsSync. cbn [files log].
      apply bool_decide_ext. rewrite files_add_files.
      pose proof (destination_not_a_directory u filename). tauto.
    + exact Hrl.
    + exact Hnow.
    + exact Hreqs.
    + exists [(now (add_files (downloadsDir self :: ancestors (downloadsDir self)) w),
               EvMkdir (downloadsDir self))].
      cbn [trace log]. rewrite Htr. split; [reflexivity |].
      repeat constructor. eexists; reflexivity.
Qed.

Lemma ensureDownloadsDir_exists w :
  existsSync (downloadsDir self) w = true ->
  ensureDownloadsDir env self w = (Ret tt, w).
Proof. intros H. unfold ensureDownloadsDir. rewrite H. reflexivity. Qed.

(** Once the directory has been seen to, [downloadVideo] behaves as if
    started from the world that has it. *)
Lemma downloadVideo_after_mkdir fuel url filename rc mr rd w w1 :
  ensureDownloadsDir env self w = (Ret tt, w1) ->
  existsSync (downloadsDir self) w1 = true ->
  downloadVideo env self fuel url filename rc mr rd w
  = match Js.truthy url with
    | None => (Ret None, w)
    | Some _ => downloadVideo env self fuel url filename rc mr rd w1
    end.
Proof.
  intros He Hd. rewrite (downloadVideo_eq env self fuel url filename rc mr rd w).
  destruct (Js.truthy url) as [u |] eqn:Hu; [| reflexivity].
  rewrite (downloadVideo_eq env self fuel url filename rc mr rd w1), Hu.
  rewrite He, (ensureDownloadsDir_exists w1 Hd). reflexivity.
Qed.

End Files.

(** ** The bounded retry *)

Section Backoff.

Context (env : Env) (self : VideoDownloader).

Lemma respectRateLimit_frame w :
  files (respectRateLimit w) = files w /\ reqs (respectRateLimit w) = reqs w.
Proof.
  unfold respectRateLimit, rl_waitForSpacing, rl_waitForDay, rl_resetIfElapsed.
  destruct (now w >? resetTime (rateLimit w));
    cbn [set_rateLimit rateLimit now trace files reqs];
    match goal with |- context [if ?c then _ else _] => destruct c end;
    cbn [set_rateLimit rateLimit now trace sleep advance log files reqs];
    match goal with |- context [if ?c then _ else _] => destruct c end;
    cbn [set_rateLimit rateLimit now trace sleep advance log files reqs];
    split; reflexivity.
Qed.

Lemma respectRateLimit_adds w :
  adds (fun e => exists ms, e = EvSleep DailyLimit ms \/ e = EvSleep Spacing ms)
       w (respectRateLimit w).
Proof.
  destruct (respectRateLimit_trace w) as (evs & H & F).
  exists evs. split; [exact H |].
  eapply Forall_impl; [exact F |]. intros [t e]. unfold isLimiterSleep. simpl.
  destruct e; try contradiction. destruct why; try contradiction; eauto.
Qed.

(** Both requests of an attempt fail: the outer [catch] receives the error
    of the request made with credentials. *)
Lemma attempt_both_fail u path w e1 e2 :
  http_get env (reqs w) u None = GetFail e1 ->
  http_get env (S (reqs w)) u (Some (authHeader self)) = GetFail e2 ->
  exists w3,
    attempt env self u path w = (Caught e2, w3)
    /\ files w3 = files w
    /\ rateLimit w3 = rateLimit w
    /\ reqs w3 = S (S (reqs w))
    /\ now w <= now w3
    /\ trace w3 = trace w ++ [(now w, EvGet u None false);
                              (now w + Z.of_nat (http_ms env (reqs w)),
                               EvGet u (Some (authHeader self)) false)].
Proof.
  intros H1 H2. unfold attempt, axiosGet. rewrite H1.
  cbn [reqs advance next_req log]. rewrite H2.
  eexists. split; [reflexivity |].
  cbn [files rateLimit reqs now trace advance next_req log].
  rewrite <- app_assoc. repeat split; try reflexivity. lia.
Qed.

(** An attempt reaches the outer [catch] only with the error of the
    request made with credentials. *)
Lemma attempt_caught_inv u path w e w3 :
  attempt env self u path w = (Caught e, w3) ->
  http_get env (S (reqs w)) u (Some (authHeader self)) = GetFail e
  /\ reqs w3 = S (S (reqs w)) /\ files w3 = files w.
Proof.
  unfold attempt, axiosGet, pipeToFile.
  destruct (http_get env (reqs w) u None) as [| e1].
  - destruct (write_stream env _ _) as [| msg b]; intros H; inversion H.
  - cbn [reqs advance next_req log].
    destruct (http_get env (S (reqs w)) u (Some (authHeader self))) as [| e2].
    + destruct (write_stream env _ _) as [| msg b]; intros H; inversion H.
    + intros H. inversion H; subst. repeat split; reflexivity.
Qed.

Lemma outerCatch_retryable e u rc mr rd :
  retryable e u = true ->
  outerCatch e u rc mr rd
  = if (rc <? mr)%nat
    then Restart Backoff (Some (nextDelay rd rc)) (S rc) mr rd
    else Settle (Ret None).
Proof.
  unfold retryable, outerCatch. intros H. apply andb_true_iff in H.
  destruct H as [H1 H2]. apply negb_true_iff in H1. rewrite H1, H2. reflexivity.
Qed.

Lemma attempts_app l1 l2 : attempts (l1 ++ l2) = attempts l1 ++ attempts l2.
Proof. apply omap_app. Qed.

Lemma sleeps_app k l1 l2 : sleeps k (l1 ++ l2) = sleeps k l1 ++ sleeps k l2.
Proof. apply omap_app. Qed.

Lemma gets_app l1 l2 : gets (l1 ++ l2) = gets l1 ++ gets l2.
Proof. apply omap_app. Qed.

(** One failed attempt under [alwaysRetryable]: either the retries are
    used up and the result is [null], or the function sleeps the backoff
    delay and calls itself with the next retry number. *)
Lemma downloadVideo_retry_step u :
  u <> "" ->
  alwaysRetryable env u ->
  forall (fuel rc mr : nat) (rd : Z) filename w,
    existsSync (downloadsDir self) w = true ->
    existsSync (destination self u filename) w = false ->
    exists w3,
      downloadVideo env self fuel (Some u) filename rc mr rd w
      = (if (rc <? mr)%nat
         then match fuel with
              | O => (OutOfFuel, sleep Backoff (Some (nextDelay rd rc)) w3)
              | S fuel' =>
                  downloadVideo env self fuel' (Some u)
                    (Some (Js.or_else filename (Js.lastSegment u)))
                    (S rc) mr rd (sleep Backoff (Some (nextDelay rd rc)) w3)
              end
         else (Ret None, w3))
      /\ attempts (trace w3) = attempts (trace w) ++ [rc]
      /\ (forall kd, kd = Backoff \/ kd = RetryAfter ->
            sleeps kd (trace w3) = sleeps kd (trace w))
      /\ length (gets (trace w3)) = (length (gets (trace w)) + 2)%nat
      /\ files w3 = files w.
Proof.
  intros Hu Hall fuel rc mr rd filename w Hdir Hdest.
  rewrite downloadVideo_eq.
  assert (Ht : Js.truthy (Some u) = Some u) by (destruct u; [congruence | reflexivity]).
  rewrite Ht, (ensureDownloadsDir_exists env self w Hdir), Hdest.
  set (w2 := log (EvAttempt u rc) (respectRateLimit w)).
  destruct (respectRateLimit_frame w) as (Hf2 & Hq2).
  destruct (Hall (reqs w2) None) as (e1 & G1 & _).
  destruct (Hall (S (reqs w2)) (Some (authHeader self))) as (e2 & G2 & Hretry).
  destruct (attempt_both_fail u (destination self u filename) w2 e1 e2 G1 G2)
    as (w3 & -> & Hf3 & Hrl3 & Hq3 & Hn3 & Ht3).
  rewrite (outerCatch_retryable e2 u rc mr rd Hretry).
  exists w3. split; [destruct (rc <? mr)%nat; reflexivity |].
  split; [| split; [| split]].
  - rewrite Ht3, attempts_app. subst w2. cbn [trace log]. rewrite attempts_app.
    cbn. rewrite app_nil_r. f_equal.
    unfold attempts. eapply omap_adds; [| apply respectRateLimit_adds].
    intros t e (ms & [-> | ->]); reflexivity.
  - intros kd Hkd. rewrite Ht3, sleeps_app. subst w2. cbn [trace log].
    rewrite sleeps_app. cbn. rewrite !app_nil_r.
    unfold sleeps. eapply omap_adds; [| apply respectRateLimit_adds].
    intros t e (ms & [-> | ->]); destruct Hkd as [-> | ->]; reflexivity.
  - rewrite Ht3, gets_app. subst w2. cbn [trace log]. rewrite gets_app.
    cbn. rewrite app_nil_r, length_app. cbn. f_equal.
    unfold gets. f_equal. eapply omap_adds; [| apply respectRateLimit_adds].
    intros t e (ms & [-> | ->]); reflexivity.
  - subst w2. cbn [files log] in Hf3. congruence.
Qed.

(** The heart of C3: from retry number [rc] on, with every request
    failing retryably, [downloadVideo] makes the attempts numbered
    [rc .. maxRetries], sleeps the backoff delays between them, and
    returns [null]. *)
Lemma downloadVideo_exhausts_retries u :
  u <> "" ->
  alwaysRetryable env u ->
  forall (k fuel rc mr : nat) (rd : Z) filename w,
    (mr - rc = k)%nat -> (k <= fuel)%nat ->
    existsSync (downloadsDir self) w = true ->
    existsSync (destination self u filename) w = false ->
    exists w',
      downloadVideo env self fuel (Some u) filename rc mr rd w = (Ret None, w')
      /\ attempts (trace w') = attempts (trace w) ++ seq rc (S k)
      /\ sleeps Backoff (trace w') = sleeps Backoff (trace w) ++ backoffDelays rd rc k
      /\ sleeps RetryAfter (trace w') = sleeps RetryAfter (trace w)
      /\ length (gets (trace w')) = (length (gets (trace w)) + 2 * S k)%nat
      /\ files w' = files w.
Proof.
  intros Hu Hall. induction k as [| k IH];
    intros fuel rc mr rd filename w Hk Hfuel Hdir Hdest;
    destruct (downloadVideo_retry_step u Hu Hall fuel rc mr rd filename w Hdir Hdest)
      as (w3 & -> & Hatt3 & Hsl3 & Hg3 & Hf3).
  - (* no retry left *)
    assert (Hlt : (rc <? mr)%nat = false) by (apply Nat.ltb_ge; lia).
    rewrite Hlt. exists w3. split; [reflexivity |].
    split; [exact Hatt3 |].
    split; [rewrite (Hsl3 Backoff) by auto; unfold backoffDelays; simpl;
            rewrite app_nil_r; reflexivity |].
    split; [apply Hsl3; auto |].
    split; [rewrite Hg3; lia | exact Hf3].
  - (* sleep, then once more *)
    assert (Hlt : (rc <? mr)%nat = true) by (apply Nat.ltb_lt; lia).
    rewrite Hlt. destruct fuel as [| fuel]; [lia |].
    set (w4 := sleep Backoff (Some (nextDelay rd rc)) w3).
    assert (Hf4 : files w4 = files w).
    { subst w4. cbn [files sleep advance log] in *. congruence. }
    destruct (IH fuel (S rc) mr rd
                (Some (Js.or_else filename (Js.lastSegment u))) w4)
      as (w' & Hdv & Hatt & Hsl & Hra & Hg & Hf).
    + lia.
    + lia.
    + unfold existsSync in *. rewrite Hf4. exact Hdir.
    + rewrite destination_idem. unfold existsSync in *. rewrite Hf4. exact Hdest.
    + exists w'. split; [exact Hdv |].
      split; [| split; [| split; [| split]]].
      * rewrite Hatt. subst w4. cbn [trace sleep advance log].
        rewrite attempts_app, Hatt3. cbn. rewrite app_nil_r, <- app_assoc.
        reflexivity.
      * rewrite Hsl. subst w4. cbn [trace sleep advance log].
        rewrite sleeps_app, (Hsl3 Backoff) by auto. cbn.
        rewrite <- app_assoc. reflexivity.
      * rewrite Hra. subst w4. cbn [trace sleep advance log].
        rewrite sleeps_app, (Hsl3 RetryAfter) by auto. cbn.
        rewrite app_nil_r. reflexivity.
      * rewrite Hg. subst w4. cbn [trace sleep advance log].
        rewrite gets_app. cbn. rewrite app_nil_r, Hg3. lia.
      * congruence.
Qed.

End Backoff.

Section RetriesExhausted.

Context (env : Env) (self : VideoDownloader).

Lemma filenameFor_nonempty c embedded : filenameFor env c embedded <> "".
Proof.
  intros H. apply (f_equal String.length) in H. unfold filenameFor in H.
  rewrite !length_append in H. simpl in H. lia.
Qed.

Lemma destination_of_call u c embedded :
  destination self u (Some (filenameFor env c embedded))
  = callDestination env self c embedded.
Proof.
  unfold destination, callDestination. f_equal. unfold Js.or_else.
  pose proof (filenameFor_nonempty c embedded) as Hne.
  destruct (filenameFor env c embedded); [congruence | reflexivity].
Qed.

Lemma downloadVideo_exhausts_when_ready u :
  u <> "" ->
  alwaysRetryable env u ->
  forall (fuel mr : nat) (rd : Z) filename w,
    (mr <= fuel)%nat ->
    storageReady env self w ->
    existsSync (destination self u filename) w = false ->
    exists w',
      downloadVideo env self fuel (Some u) filename O mr rd w = (Ret None, w')
      /\ attempts (trace w') = attempts (trace w) ++ seq 0 (S mr)
      /\ sleeps Backoff (trace w') = sleeps Backoff (trace w) ++ backoffDelays rd 0 mr
      /\ sleeps RetryAfter (trace w') = sleeps RetryAfter (trace w)
      /\ length (gets (trace w')) = (length (gets (trace w)) + 2 * S mr)%nat.
Proof.
  intros Hu Hall fuel mr rd filename w Hfuel Hready Hdest.
  destruct (ensureDownloadsDir_ready env self w Hready)
    as (w1 & He & Hd1 & _ & Hsame & _ & _ & _ & Hadds).
  rewrite (downloadVideo_after_mkdir env self fuel (Some u) filename O mr rd w w1 He Hd1).
  assert (Ht : Js.truthy (Some u) = Some u) by (destruct u; [congruence | reflexivity]).
  rewrite Ht.
  destruct (downloadVideo_exhausts_retries env self u Hu Hall mr fuel O mr rd filename w1)
    as (w' & Hdv & Hatt & Hsl & Hra & Hg & _).
  - lia.
  - exact Hfuel.
  - exact Hd1.
  - rewrite Hsame. exact Hdest.
  - exists w'. split; [exact Hdv |].
    assert (Hproj : forall A (f : Z * Event -> option A),
               (forall t d, f (t, EvMkdir d) = None) ->
               omap f (trace w1) = omap f (trace w)).
    { intros A f Hf. eapply omap_adds; [| exact Hadds].
      intros t e [d ->]. apply Hf. }
    split; [| split; [| split]].
    + rewrite Hatt. unfold attempts. rewrite Hproj; [reflexivity | reflexivity].
    + rewrite Hsl. unfold sleeps. rewrite Hproj; [reflexivity | reflexivity].
    + rewrite Hra. unfold sleeps. rewrite Hproj; [reflexivity | reflexivity].
    + rewrite Hg. unfold gets. rewrite Hproj; [reflexivity | reflexivity].
Qed.

(** Projections that ignore resolution events are the same after a quiet
    computation. *)
Lemma quiet_proj {A} (f : Z * Event -> option A) w w' :
  quiet w w' ->
  (forall t v cid ok, f (t, EvApi v cid ok) = None) ->
  (forall t cid, f (t, EvHook cid) = None) ->
  omap f (trace w') = omap f (trace w).
Proof.
  intros Hq Hapi Hhook. eapply omap_adds; [| apply (q_adds _ _ Hq)].
  intros t e He. destruct e; try contradiction; auto.
Qed.

(** C3, as the code has it.  Suppose every request for the URL a call is
    downloaded from fails with a retryable error (an S3 403/400/404, a
    hung-up socket, a connection reset or a timeout), the storage
    directory is there or can be made, and no file sits at the
    destination.  Then [downloadVideo], started
    with retry count 0, makes exactly [maxRetries + 1] attempts, numbered
    [0 .. maxRetries], sleeps before retry [k] the backoff delay
    [retryDelay * 2^(k-1)] (as the timer takes it), and returns [null].
    In the pipeline, with the defaults (3 retries, base 2000 ms), a call
    makes the four attempts 0,1,2,3 separated by sleeps of 2000, 4000 and
    8000 ms, is recorded in the failure list with the reason
    "Download returned null", and the loop goes on with the calls that
    follow. *)
Theorem retries_exhausted_is_recorded_and_loop_continues :
  forall (fuel : nat) (c : Call) (rest : list Call) (acc : Acc) (w : World)
         (embedded : string),
    videoUrlOf c = Some embedded ->
    (forall fresh w1,
        freshVideoUrl env self c embedded w = (Ret fresh, w1) ->
        alwaysRetryable env fresh) ->
    storageReady env self w ->
    existsSync (callDestination env self c embedded) w = false ->
    (3 <= fuel)%nat ->
    (forall (u : string) (filename : option string) (maxRetries : nat) (retryDelay : Z),
        u <> "" ->
        alwaysRetryable env u ->
        existsSync (destination self u filename) w = false ->
        (maxRetries <= fuel)%nat ->
        exists w',
          downloadVideo env self fuel (Some u) filename O maxRetries retryDelay w
          = (Ret None, w')
          /\ attempts (trace w') = attempts (trace w) ++ seq 0 (maxRetries + 1)
          /\ sleeps Backoff (trace w')
             = sleeps Backoff (trace w)
                 ++ map (fun k => Js.timer_ms (Some (retryDelay * 2 ^ Z.of_nat k)))
                        (seq 0 maxRetries)
          /\ length (gets (trace w')) = (length (gets (trace w)) + 2 * (maxRetries + 1))%nat)
    /\ exists w',
        processCall env self fuel c acc w
        = (Ret (pushFailure (nullDownloadFailure c) acc), w')
        /\ attempts (trace w') = attempts (trace w) ++ [0; 1; 2; 3]%nat
        /\ sleeps Backoff (trace w') = sleeps Backoff (trace w) ++ [2000; 4000; 8000]
        /\ sleeps RetryAfter (trace w') = sleeps RetryAfter (trace w)
        /\ forEachCall env self fuel (c :: rest) acc w
           = forEachCall env self fuel rest (pushFailure (nullDownloadFailure c) acc) w'.
Proof.
  intros fuel c rest acc w embedded Hv Hall Hready Hdest Hfuel. split.
  - intros u filename mr rd Hu Hretry Hd Hmr.
    destruct (downloadVideo_exhausts_when_ready u Hu Hretry fuel mr rd filename w
                Hmr Hready Hd) as (w' & Hdv & Hatt & Hsl & _ & Hg).
    exists w'. replace (mr + 1)%nat with (S mr) by lia.
    split; [exact Hdv |]. split; [exact Hatt |]. split; [exact Hsl | exact Hg].
  - destruct (freshVideoUrl_spec env self c embedded w (videoUrlOf_nonempty _ _ Hv))
      as (fresh & w1 & Hfresh & Hne & Hq).
    assert (Hready1 : storageReady env self w1).
    { unfold storageReady, existsSync in *. rewrite (q_files _ _ Hq). exact Hready. }
    assert (Hdest1 : existsSync (destination self fresh (Some (filenameFor env c embedded))) w1
                     = false).
    { rewrite destination_of_call. unfold existsSync in *.
      rewrite (q_files _ _ Hq). exact Hdest. }
    destruct (downloadVideo_exhausts_when_ready fresh Hne (Hall fresh w1 Hfresh) fuel
                defaultMaxRetries defaultRetryDelay
                (Some (filenameFor env c embedded)) w1 Hfuel Hready1 Hdest1)
      as (w' & Hdv & Hatt & Hsl & Hra & _).
    assert (Hproc : processCall env self fuel c acc w
                    = (Ret (pushFailure (nullDownloadFailure c) acc), w')).
    { unfold processCall, try_catch. rewrite Hv. unfold bind at 1. rewrite Hfresh.
      unfold bind. rewrite Hdv. reflexivity. }
    exists w'. split; [exact Hproc |].
    split; [| split; [| split]].
    + rewrite Hatt. unfold attempts. rewrite (quiet_proj _ w w1 Hq); reflexivity.
    + rewrite Hsl. unfold sleeps. rewrite (quiet_proj _ w w1 Hq); reflexivity.
    + rewrite Hra. unfold sleeps. rewrite (quiet_proj _ w w1 Hq); reflexivity.
    + cbn [forEachCall]. unfold bind. rewrite Hproc. reflexivity.
Qed.

End RetriesExhausted.

(** C3, as the specification words it, fails on the recorded reason.  With
    every request refused by S3 (403), the call makes its four attempts
    and is recorded as failed, but the reason written to the failure list
    is "Download returned null", not "access denied / retries
    exhausted". *)
Lemma exhausted_retries_reason_is_not_access_denied :
  let r := forEachCall Scenario.envForbidden (Scenario.downloader None) 3
             [Scenario.c1] emptyAcc Scenario.w0 in
  (exists acc, r.1 = Ret acc
     /\ downloadedFiles acc = []
     /\ failedDownloads acc
        = [ {| f_callId := Some "c1"; f_title := "Weekly Sync";
               f_detail := Reason "Download returned null" |} ]
     /\ Forall (fun f => f_detail f <> Reason "access denied / retries exhausted"
                         /\ f_detail f <> Error "access denied / retries exhausted")
               (failedDownloads acc))
  /\ attempts (trace r.2) = [0; 1; 2; 3]%nat
  /\ sleeps Backoff (trace r.2) = [2000; 4000; 8000].
Proof.
  vm_compute. split; [| split; reflexivity].
  eexists. split; [reflexivity |]. split; [reflexivity |]. split; [reflexivity |].
  repeat constructor; discriminate.
Qed.

(** ** HTTP 429 *)

Section TooManyRequests.

Context (env : Env) (self : VideoDownloader).

Lemma outerCatch_429 e u rc mr rd :
  is429 e = true ->
  outerCatch e u rc mr rd
  = Restart RetryAfter (retryAfterMs e) O defaultMaxRetries defaultRetryDelay.
Proof. unfold outerCatch. intros ->. reflexivity. Qed.

Lemma retryAfter_default e :
  Js.truthy (retry_after e) = None -> Js.timer_ms (retryAfterMs e) = 60000.
Proof.
  intros H. unfold retryAfterMs, retryAfterSeconds, Js.or_else. rewrite H. reflexivity.
Qed.

Lemma retryAfter_header e s n :
  Js.truthy (retry_after e) = Some s ->
  Js.parseInt s = Some n ->
  1 <= n * 1000 <= 2147483647 ->
  Js.timer_ms (retryAfterMs e) = n * 1000.
Proof.
  intros H Hp Hr. unfold retryAfterMs, retryAfterSeconds, Js.or_else.
  rewrite H, Hp. cbn [fmap option_fmap option_map Js.timer_ms].
  destruct (1 <=? n * 1000) eqn:E1; [| apply Z.leb_gt in E1; lia].
  destruct (n * 1000 <=? 2147483647) eqn:E2; [| apply Z.leb_gt in E2; lia].
  reflexivity.
Qed.

(** An attempt that ends in a 429: the function sleeps and calls itself
    with the retry parameters back at their defaults. *)
Lemma downloadVideo_429_step u (fuel rc mr : nat) (rd : Z) filename w e1 e :
  u <> "" ->
  existsSync (downloadsDir self) w = true ->
  existsSync (destination self u filename) w = false ->
  http_get env (reqs w) u None = GetFail e1 ->
  http_get env (S (reqs w)) u (Some (authHeader self)) = GetFail e ->
  is429 e = true ->
  exists w3,
    downloadVideo env self fuel (Some u) filename rc mr rd w
    = match fuel with
      | O => (OutOfFuel, sleep RetryAfter (retryAfterMs e) w3)
      | S fuel' =>
          downloadVideo env self fuel' (Some u)
            (Some (Js.or_else filename (Js.lastSegment u)))
            O defaultMaxRetries defaultRetryDelay
            (sleep RetryAfter (retryAfterMs e) w3)
      end
    /\ attempts (trace w3) = attempts (trace w) ++ [rc]
    /\ (forall kd, kd = Backoff \/ kd = RetryAfter ->
          sleeps kd (trace w3) = sleeps kd (trace w))
    /\ files w3 = files w
    /\ reqs w3 = S (S (reqs w)).
Proof.
  intros Hu Hdir Hdest G1 G2 H429.
  rewrite downloadVideo_eq.
  assert (Ht : Js.truthy (Some u) = Some u) by (destruct u; [congruence | reflexivity]).
  rewrite Ht, (ensureDownloadsDir_exists env self w Hdir), Hdest.
  set (w2 := log (EvAttempt u rc) (respectRateLimit w)).
  destruct (respectRateLimit_frame w) as (Hf2 & Hq2).
  assert (Hq : reqs w2 = reqs w) by (subst w2; cbn [reqs log]; exact Hq2).
  rewrite <- Hq in G1, G2.
  destruct (attempt_both_fail env self u (destination self u filename) w2 e1 e G1 G2)
    as (w3 & -> & Hf3 & Hrl3 & Hq3 & Hn3 & Ht3).
  rewrite (outerCatch_429 e u rc mr rd H429).
  exists w3. split; [reflexivity |].
  split; [| split; [| split]].
  - rewrite Ht3, attempts_app. subst w2. cbn [trace log]. rewrite attempts_app.
    cbn. rewrite app_nil_r. f_equal.
    unfold attempts. eapply omap_adds; [| apply respectRateLimit_adds].
    intros t ev (ms & [-> | ->]); reflexivity.
  - intros kd Hkd. rewrite Ht3, sleeps_app. subst w2. cbn [trace log].
    rewrite sleeps_app. cbn. rewrite !app_nil_r.
    unfold sleeps. eapply omap_adds; [| apply respectRateLimit_adds].
    intros t ev (ms & [-> | ->]); destruct Hkd as [-> | ->]; reflexivity.
  - subst w2. cbn [files log] in Hf3. congruence.
  - rewrite Hq3, Hq. reflexivity.
Qed.

(** Against a server that always answers 429 the download never settles:
    whatever the budget, it is used up, and every restart ran with retry
    count 0. *)
Lemma downloadVideo_throttled_forever u :
  u <> "" ->
  always429 env u ->
  forall (fuel rc mr : nat) (rd : Z) filename w,
    existsSync (downloadsDir self) w = true ->
    existsSync (destination self u filename) w = false ->
    let r := downloadVideo env self fuel (Some u) filename rc mr rd w in
    r.1 = OutOfFuel
    /\ attempts (trace r.2) = attempts (trace w) ++ rc :: repeat O fuel
    /\ length (sleeps RetryAfter (trace r.2))
       = (length (sleeps RetryAfter (trace w)) + S fuel)%nat
    /\ sleeps Backoff (trace r.2) = sleeps Backoff (trace w).
Proof.
  intros Hu Hall. induction fuel as [| fuel IH]; intros rc mr rd filename w Hdir Hdest r;
    subst r;
    destruct (Hall (reqs w) None) as (e1 & G1 & _);
    destruct (Hall (S (reqs w)) (Some (authHeader self))) as (e & G2 & H429);
    match goal with
    | |- context [downloadVideo env self ?f _ _ _ _ _ _] =>
        destruct (downloadVideo_429_step u f rc mr rd filename w e1 e
                    Hu Hdir Hdest G1 G2 H429)
          as (w3 & -> & Hatt3 & Hsl3 & Hf3 & _)
    end.
  - cbn [fst snd trace sleep advance log]. split; [reflexivity |].
    rewrite attempts_app, !sleeps_app, Hatt3, !Hsl3 by auto. cbn.
    rewrite !app_nil_r, length_app. cbn. auto.
  - set (w4 := sleep RetryAfter (retryAfterMs e) w3).
    assert (Hf4 : files w4 = files w) by (subst w4; cbn [files sleep advance log]; exact Hf3).
    destruct (IH O defaultMaxRetries defaultRetryDelay
                (Some (Js.or_else filename (Js.lastSegment u))) w4)
      as (Hr & Hatt & Hra & Hbk).
    + unfold existsSync in *. rewrite Hf4. exact Hdir.
    + rewrite destination_idem. unfold existsSync in *. rewrite Hf4. exact Hdest.
    + split; [exact Hr |]. rewrite Hatt, Hra, Hbk. subst w4.
      cbn [trace sleep advance log].
      rewrite attempts_app, !sleeps_app, Hatt3, !Hsl3 by auto. cbn.
      rewrite !app_nil_r, length_app, <- app_assoc. cbn.
      split; [reflexivity |]. split; [lia | reflexivity].
Qed.

(** A 429 with a numeric [Retry-After].  When the attempt of a download
    ends in HTTP 429 (the answer to the request made with credentials,
    which is the error the outer [catch] sees), [downloadVideo] sleeps
    [Retry-After] seconds - 60 when the header is absent or empty, and the
    number in the header when it is an integer the timer can hold - and
    then calls itself for the same URL and the same destination with the
    retry count back at 0: the 429 is not settled as a failure, does not
    advance the retry count, and triggers no backoff sleep.  Against a
    server that answers 429 to everything this never ends: for every
    budget, the budget is used up with one more restart per unit, all at
    retry count 0, and processing a call yields no outcome, so no failure
    entry either. *)
Theorem http_429_restarts_without_consuming_retries :
  forall (fuel retryCount maxRetries : nat) (retryDelay : Z)
         (u : string) (filename : option string) (w : World) (e1 e : JsError),
    u <> "" ->
    existsSync (downloadsDir self) w = true ->
    existsSync (destination self u filename) w = false ->
    http_get env (reqs w) u None = GetFail e1 ->
    http_get env (S (reqs w)) u (Some (authHeader self)) = GetFail e ->
    is429 e = true ->
    (exists w3,
        let w4 := sleep RetryAfter (retryAfterMs e) w3 in
        downloadVideo env self (S fuel) (Some u) filename
          retryCount maxRetries retryDelay w
        = downloadVideo env self fuel (Some u)
            (Some (Js.or_else filename (Js.lastSegment u)))
            O defaultMaxRetries defaultRetryDelay w4
        /\ destination self u (Some (Js.or_else filename (Js.lastSegment u)))
           = destination self u filename
        /\ now w4 = now w3 + Js.timer_ms (retryAfterMs e)
        /\ sleeps RetryAfter (trace w4)
           = sleeps RetryAfter (trace w) ++ [Js.timer_ms (retryAfterMs e)]
        /\ sleeps Backoff (trace w4) = sleeps Backoff (trace w)
        /\ attempts (trace w4) = attempts (trace w) ++ [retryCount])
    /\ (Js.truthy (retry_after e) = None -> Js.timer_ms (retryAfterMs e) = 60 * 1000)
    /\ (forall s n, Js.truthy (retry_after e) = Some s ->
                    Js.parseInt s = Some n ->
                    1 <= n * 1000 <= 2147483647 ->
                    Js.timer_ms (retryAfterMs e) = n * 1000)
    /\ (always429 env u ->
        forall budget,
          let r := downloadVideo env self budget (Some u) filename
                     retryCount maxRetries retryDelay w in
          r.1 = OutOfFuel
          /\ attempts (trace r.2) = attempts (trace w) ++ retryCount :: repeat O budget
          /\ sleeps Backoff (trace r.2) = sleeps Backoff (trace w))
    /\ ((forall u', always429 env u') ->
        forall budget c acc embedded,
          videoUrlOf c = Some embedded ->
          existsSync (callDestination env self c embedded) w = false ->
          (processCall env self budget c acc w).1 = OutOfFuel).
Proof.
  intros fuel rc mr rd u filename w e1 e Hu Hdir Hdest G1 G2 H429.
  split; [| split; [| split; [| split]]].
  - destruct (downloadVideo_429_step u (S fuel) rc mr rd filename w e1 e
                Hu Hdir Hdest G1 G2 H429) as (w3 & Hdv & Hatt3 & Hsl3 & _ & _).
    exists w3. cbn zeta. split; [exact Hdv |].
    split; [apply destination_idem |].
    cbn [now trace sleep advance log].
    rewrite attempts_app, !sleeps_app, Hatt3, !Hsl3 by auto. cbn.
    rewrite !app_nil_r. auto.
  - apply retryAfter_default.
  - apply retryAfter_header.
  - intros Hall budget r. subst r.
    destruct (downloadVideo_throttled_forever u Hu Hall budget rc mr rd filename w
                Hdir Hdest) as (Hr & Hatt & _ & Hbk).
    auto.
  - intros Hall budget c acc embedded Hv Hd.
    destruct (freshVideoUrl_spec env self c embedded w (videoUrlOf_nonempty _ _ Hv))
      as (fresh & w1 & Hfresh & Hne & Hq).
    destruct (downloadVideo_throttled_forever fresh Hne (Hall fresh) budget
                O defaultMaxRetries defaultRetryDelay
                (Some (filenameFor env c embedded)) w1) as (Hr & _).
    + unfold existsSync in *. rewrite (q_files _ _ Hq). exact Hdir.
    + rewrite destination_of_call. unfold existsSync in *.
      rewrite (q_files _ _ Hq). exact Hd.
    + unfold processCall, try_catch. rewrite Hv. unfold bind at 1. rewrite Hfresh.
      unfold bind.
      destruct (downloadVideo env self budget (Some fresh) _ _ _ _ w1) as [[p | er | ] w2];
        cbn [fst] in Hr; try discriminate. reflexivity.
Qed.

End TooManyRequests.

(** A [Retry-After] that is not a number of seconds the timer can hold:
    the delay handed to [setTimeout] is [NaN] or out of range, and the
    sleep lasts one millisecond. *)
Lemma retryAfter_unreadable e s :
  Js.truthy (retry_after e) = Some s ->
  Js.parseInt s = None
  \/ (exists n, Js.parseInt s = Some n /\ ~ (1 <= n * 1000 <= 2147483647)) ->
  Js.timer_ms (retryAfterMs e) = 1.
Proof.
  intros H Hbad. unfold retryAfterMs, retryAfterSeconds, Js.or_else. rewrite H.
  destruct Hbad as [-> | (n & -> & Hn)]; [reflexivity |].
  cbn [fmap option_fmap option_map Js.timer_ms].
  destruct (1 <=? n * 1000) eqn:E1; [| reflexivity].
  destruct (n * 1000 <=? 2147483647) eqn:E2; [| reflexivity].
  apply Z.leb_le in E1, E2. exfalso. apply Hn. lia.
Qed.

(** C4.  The delay of a 429 is not always waited for.  [Retry-After] may
    hold an HTTP date instead of a number of seconds; [parseInt] then
    gives [NaN], the delay handed to [setTimeout] is [NaN], and the timer
    fires after one millisecond.  Here the first attempt (at retry count
    2) is answered 429 with such a header: the function sleeps 1 ms - not
    the time the server asked for - and restarts at retry count 0.  A
    number of seconds too large for the timer, such as 2147484, fares the
    same. *)
Theorem retry_after_http_date_is_not_waited_for :
  let r := downloadVideo StdScenario.envThrottledUntilDate (Scenario.downloader None) 3
             (Some StdScenario.videoA) None 2 3 2000 Scenario.w1 in
  Js.parseInt StdScenario.httpDate = None
  /\ r.1 = Ret (Some "exports/videos/a.mp4")
  /\ attempts (trace r.2) = [2; 0]%nat
  /\ sleeps RetryAfter (trace r.2) = [1]
  /\ sleeps Backoff (trace r.2) = []
  /\ Js.timer_ms (retryAfterMs (Scenario.e429 (Some "2147484"))) = 1.
Proof. vm_compute. repeat split; reflexivity. Qed.

(** Only the answer to the request made with credentials reaches the
    outer [catch]: a 429 to the first request is followed by the second
    request like any other failure, and when that one is refused with 403
    the retry budget is spent as usual. *)
Example first_request_429_is_not_read :
  let r := downloadVideo StdScenario.envThrottledThenForbidden (Scenario.downloader None) 3
             (Some StdScenario.videoA) None 0 3 2000 Scenario.w1 in
  r.1 = Ret None
  /\ attempts (trace r.2) = [0; 1; 2; 3]%nat
  /\ sleeps RetryAfter (trace r.2) = []
  /\ sleeps Backoff (trace r.2) = [2000; 4000; 8000].
Proof. vm_compute. repeat split; reflexivity. Qed.

(** ** The rate limiter *)

Section RateLimiter.

Context (env : Env) (self : VideoDownloader).

Lemma timer_ms_exact z : 1 <= z <= 2147483647 -> Js.timer_ms (Some z) = z.
Proof.
  intros H. unfold Js.timer_ms.
  destruct (1 <=? z) eqn:E1; [| apply Z.leb_gt in E1; lia].
  destruct (z <=? 2147483647) eqn:E2; [| apply Z.leb_gt in E2; lia].
  reflexivity.
Qed.

Lemma timer_ms_pos d : 1 <= Js.timer_ms d.
Proof.
  unfold Js.timer_ms. destruct d as [z |]; [| lia].
  destruct (1 <=? z) eqn:E1; [| simpl; lia].
  destruct (z <=? 2147483647); simpl; [apply Z.leb_le in E1; lia | lia].
Qed.

Lemma minTimeBetweenCalls_bound rl :
  0 < callsPerSecond rl -> 50 <= minTimeBetweenCalls rl <= 1050.
Proof.
  intros H. unfold minTimeBetweenCalls.
  assert (0 <= 1000 / callsPerSecond rl) by (apply Z.div_pos; lia).
  assert (1000 / callsPerSecond rl <= 1000).
  { apply Z.div_le_upper_bound; [lia | nia]. }
  lia.
Qed.

(** The three stages of [respectRateLimit]. *)
Lemma rl_resetIfElapsed_spec w :
  let w1 := rl_resetIfElapsed w in
  now w1 = now w /\ trace w1 = trace w
  /\ callsPerSecond (rateLimit w1) = callsPerSecond (rateLimit w)
  /\ callsPerDay (rateLimit w1) = callsPerDay (rateLimit w)
  /\ lastCallTime (rateLimit w1) = lastCallTime (rateLimit w)
  /\ now w1 <= resetTime (rateLimit w1)
  /\ (now w > resetTime (rateLimit w) ->
      currentCalls (rateLimit w1) = 0 /\ resetTime (rateLimit w1) = now w + DAY)
  /\ (now w <= resetTime (rateLimit w) -> rateLimit w1 = rateLimit w).
Proof.
  unfold rl_resetIfElapsed.
  destruct (now w >? resetTime (rateLimit w)) eqn:E; rewrite Z.gtb_ltb in E.
  - apply Z.ltb_lt in E.
    cbn [set_rateLimit resetWindow now trace rateLimit
           callsPerSecond callsPerDay lastCallTime resetTime currentCalls].
    unfold DAY. repeat split; try lia.
  - apply Z.ltb_ge in E. repeat split; try lia.
Qed.

Lemma rl_waitForDay_spec w :
  let w2 := rl_waitForDay w in
  now w <= now w2
  /\ callsPerSecond (rateLimit w2) = callsPerSecond (rateLimit w)
  /\ callsPerDay (rateLimit w2) = callsPerDay (rateLimit w)
  /\ lastCallTime (rateLimit w2) = lastCallTime (rateLimit w)
  /\ resetTime (rateLimit w2) = resetTime (rateLimit w)
  /\ (currentCalls (rateLimit w) >= callsPerDay (rateLimit w) ->
      currentCalls (rateLimit w2) = 0
      /\ trace w2 = trace w ++ [(now w, EvSleep DailyLimit
                                   (Js.timer_ms (Some (resetTime (rateLimit w) - now w))))]
      /\ now w2 = now w + Js.timer_ms (Some (resetTime (rateLimit w) - now w)))
  /\ (currentCalls (rateLimit w) < callsPerDay (rateLimit w) -> w2 = w).
Proof.
  unfold rl_waitForDay.
  destruct (currentCalls (rateLimit w) >=? callsPerDay (rateLimit w)) eqn:E;
    rewrite Z.geb_leb in E.
  - apply Z.leb_le in E.
    pose proof (timer_ms_pos (Some (resetTime (rateLimit w) - now w))).
    cbn [sleep advance log set_rateLimit clearCalls now trace rateLimit
           callsPerSecond callsPerDay lastCallTime resetTime currentCalls].
    repeat split; try lia.
  - apply Z.leb_gt in E. repeat split; try lia.
Qed.

Lemma rl_waitForSpacing_spec w :
  let w3 := rl_waitForSpacing w in
  let m := minTimeBetweenCalls (rateLimit w) in
  rateLimit w3 = rateLimit w
  /\ now w <= now w3
  /\ (now w - lastCallTime (rateLimit w) >= m -> w3 = w)
  /\ (now w - lastCallTime (rateLimit w) < m ->
      trace w3 = trace w ++ [(now w, EvSleep Spacing
                                (Js.timer_ms (Some (m - (now w - lastCallTime (rateLimit w))))))]
      /\ now w3 = now w + Js.timer_ms (Some (m - (now w - lastCallTime (rateLimit w)))))
  /\ (0 < callsPerSecond (rateLimit w) ->
      lastCallTime (rateLimit w) <= now w ->
      now w3 = Z.max (now w) (lastCallTime (rateLimit w) + m)).
Proof.
  unfold rl_waitForSpacing. cbn zeta.
  set (m := minTimeBetweenCalls (rateLimit w)).
  destruct (now w - lastCallTime (rateLimit w) <? m) eqn:E.
  - apply Z.ltb_lt in E.
    pose proof (timer_ms_pos (Some (m - (now w - lastCallTime (rateLimit w))))).
    cbn [sleep advance log now trace rateLimit].
    repeat split; try lia.
    intros Hr Hl. pose proof (minTimeBetweenCalls_bound _ Hr) as Hb. fold m in Hb.
    rewrite timer_ms_exact by lia. lia.
  - apply Z.ltb_ge in E. repeat split; try lia.
Qed.

(** What one call of [respectRateLimit] guarantees. *)
Lemma respectRateLimit_spec w :
  let w' := respectRateLimit w in
  let m := minTimeBetweenCalls (rateLimit w) in
  callsPerSecond (rateLimit w') = callsPerSecond (rateLimit w)
  /\ callsPerDay (rateLimit w') = callsPerDay (rateLimit w)
  /\ lastCallTime (rateLimit w') = now w'
  /\ now w <= now w'
  /\ (now w > resetTime (rateLimit w) ->
      resetTime (rateLimit w') = now w + DAY /\ currentCalls (rateLimit w') = 1)
  /\ (now w <= resetTime (rateLimit w) ->
      resetTime (rateLimit w') = resetTime (rateLimit w))
  /\ (now w <= resetTime (rateLimit w) ->
      currentCalls (rateLimit w) >= callsPerDay (rateLimit w) ->
      currentCalls (rateLimit w') = 1
      /\ sleeps DailyLimit (trace w')
         = sleeps DailyLimit (trace w)
             ++ [Js.timer_ms (Some (resetTime (rateLimit w) - now w))]
      /\ (resetTime (rateLimit w) - now w <= 2147483647 ->
          resetTime (rateLimit w) <= now w'))
  /\ (now w <= resetTime (rateLimit w) ->
      currentCalls (rateLimit w) < callsPerDay (rateLimit w) ->
      currentCalls (rateLimit w') = currentCalls (rateLimit w) + 1
      /\ sleeps DailyLimit (trace w') = sleeps DailyLimit (trace w)
      /\ (0 < callsPerSecond (rateLimit w) ->
          lastCallTime (rateLimit w) <= now w ->
          now w' = Z.max (now w) (lastCallTime (rateLimit w) + m)))
  /\ (0 < callsPerSecond (rateLimit w) ->
      lastCallTime (rateLimit w) <= now w ->
      lastCallTime (rateLimit w) + m <= now w').
Proof.
  cbn zeta. unfold respectRateLimit.
  set (w1 := rl_resetIfElapsed w).
  set (w2 := rl_waitForDay w1).
  set (w3 := rl_waitForSpacing w2).
  destruct (rl_resetIfElapsed_spec w) as (N1 & T1 & S1 & D1 & L1 & B1 & E1 & K1).
  destruct (rl_waitForDay_spec w1) as (N2 & S2 & D2 & L2 & R2 & W2 & K2).
  destruct (rl_waitForSpacing_spec w2) as (R3 & N3 & K3 & W3 & X3).
  fold w1 in N1, T1, S1, D1, L1, B1, E1, K1.
  fold w2 in N2, S2, D2, L2, R2, W2, K2. fold w3 in R3, N3, K3, W3, X3.
  assert (Hm : minTimeBetweenCalls (rateLimit w2) = minTimeBetweenCalls (rateLimit w)).
  { unfold minTimeBetweenCalls. rewrite S2, S1. reflexivity. }
  rewrite Hm in *.
  cbn [rateLimit set_rateLimit recordCall callsPerSecond callsPerDay lastCallTime
         resetTime currentCalls now trace].
  rewrite R3.
  assert (Hsl3 : sleeps DailyLimit (trace w3) = sleeps DailyLimit (trace w2)).
  { destruct (Z.lt_ge_cases (now w2 - lastCallTime (rateLimit w2))
                (minTimeBetweenCalls (rateLimit w))) as [Hlt | Hge].
    - destruct (W3 Hlt) as (-> & _). rewrite sleeps_app. cbn. apply app_nil_r.
    - rewrite (K3 ltac:(lia)). reflexivity. }
  split; [congruence |]. split; [congruence |]. split; [reflexivity |].
  split; [lia |].
  split; [| split; [| split; [| split]]].
  - intros Hgt. destruct (E1 Hgt) as (C1 & RT1). split; [congruence |].
    destruct (Z.lt_ge_cases (currentCalls (rateLimit w1)) (callsPerDay (rateLimit w1)))
      as [Hlt | Hge].
    + rewrite (K2 Hlt). lia.
    + destruct (W2 ltac:(lia)) as (C2 & _). lia.
  - intros Hle. rewrite R2, (K1 Hle). reflexivity.
  - intros Hle Hge. rewrite (K1 Hle) in W2.
    destruct (W2 Hge) as (C2 & T2 & N2').
    split; [lia |]. split.
    + rewrite Hsl3, T2, T1, sleeps_app. cbn. rewrite N1. reflexivity.
    + intros Hrange. rewrite N1 in N2'.
      destruct (Z.le_gt_cases 1 (resetTime (rateLimit w) - now w)) as [H1 | H0].
      * rewrite timer_ms_exact in N2' by lia. lia.
      * pose proof (timer_ms_pos (Some (resetTime (rateLimit w) - now w))). lia.
  - intros Hle Hlt.
    assert (Hw2 : w2 = w1) by (apply K2; rewrite (K1 Hle); exact Hlt).
    split; [rewrite Hw2, (K1 Hle); reflexivity |].
    split; [rewrite Hsl3, Hw2, T1; reflexivity |].
    intros Hr Hl. rewrite X3; rewrite ?Hw2, ?N1, ?L1, ?S1; auto.
  - intros Hr Hl. rewrite X3; rewrite ?S2, ?S1, ?L2, ?L1; try lia.
Qed.

End RateLimiter.

Section Spacing.

Context (env : Env) (self : VideoDownloader).

Lemma attempt_times_app l1 l2 :
  attempt_times (l1 ++ l2) = attempt_times l1 ++ attempt_times l2.
Proof. apply omap_app. Qed.

Lemma spaced_snoc m l T x :
  Forall (fun t => t <= T) l -> T + m <= x -> spaced m l -> spaced m (l ++ [x]).
Proof.
  intros Hall Hx Hs. induction Hs as [| a | a b l Hab Hs IH]; simpl.
  - constructor.
  - constructor; [| constructor]. inversion Hall; subst. lia.
  - constructor; [exact Hab |]. apply IH. inversion Hall; assumption.
Qed.

Lemma neutral_refl w : neutral w w.
Proof. repeat split; lia. Qed.

Lemma neutral_trans a b c : neutral a b -> neutral b c -> neutral a c.
Proof. intros (R1 & N1 & T1) (R2 & N2 & T2). repeat split; try congruence; lia. Qed.

Lemma neutral_keeps w w' : neutral w w' -> keepsLimiterInv w w'.
Proof.
  intros (R & N & T). split; [rewrite R; reflexivity |].
  intros [Hr Hx Hl Hw Ht Hs]. constructor; rewrite ?R, ?T; auto; lia.
Qed.

Lemma quiet_neutral w w' : quiet w w' -> neutral w w'.
Proof.
  intros Hq. split; [apply (q_rateLimit _ _ Hq) |]. split; [apply (q_now _ _ Hq) |].
  unfold attempt_times. apply (quiet_proj _ w w' Hq); reflexivity.
Qed.

Lemma sleep_neutral why d w : neutral w (sleep why d w).
Proof.
  pose proof (timer_ms_pos d). unfold neutral.
  repeat split; cbn [sleep advance log now rateLimit trace]; try lia.
  rewrite attempt_times_app. cbn. apply app_nil_r.
Qed.

Lemma ensureDownloadsDir_neutral w : neutral w (ensureDownloadsDir env self w).2.
Proof.
  unfold ensureDownloadsDir. destruct (existsSync _ w); [apply neutral_refl |].
  destruct (mkdir_error env _); [apply neutral_refl |].
  destruct (files_add_files_same (downloadsDir self :: ancestors (downloadsDir self)) w)
    as (Hrl & Hnow & Hreqs & Htr).
  unfold neutral. cbn [snd log rateLimit now trace]. rewrite Hrl, Hnow, Htr.
  repeat split; try lia. rewrite attempt_times_app. cbn. apply app_nil_r.
Qed.

Lemma saveFailedDownloads_neutral failed w : neutral w (saveFailedDownloads failed w).2.
Proof.
  unfold saveFailedDownloads. destruct failed; [apply neutral_refl |].
  destruct (existsSync exportsDir w); [| apply neutral_refl].
  unfold neutral. cbn [snd log add_file rateLimit now trace]. repeat split; try lia.
  rewrite attempt_times_app. cbn. apply app_nil_r.
Qed.

Lemma axiosGet_neutral u a w : neutral w (axiosGet env u a w).2.
Proof.
  unfold axiosGet, neutral. cbn [snd advance next_req log rateLimit now trace].
  repeat split; try lia. rewrite attempt_times_app. cbn. apply app_nil_r.
Qed.

Lemma pipeToFile_neutral n path w : neutral w (pipeToFile env n path w).2.
Proof.
  unfold pipeToFile, neutral. destruct (write_stream env n path) as [| msg []];
    cbn [snd advance log add_file rateLimit now trace];
    (repeat split; try lia); rewrite attempt_times_app; cbn; apply app_nil_r.
Qed.

Lemma attempt_neutral u path w : neutral w (attempt env self u path w).2.
Proof.
  unfold attempt.
  pose proof (axiosGet_neutral u None w) as H1.
  destruct (axiosGet env u None w) as [[| e1] w1]; cbn [snd] in H1.
  - eapply neutral_trans; [exact H1 | apply pipeToFile_neutral].
  - pose proof (axiosGet_neutral u (Some (authHeader self)) w1) as H2.
    destruct (axiosGet env u (Some (authHeader self)) w1) as [[| e2] w2]; cbn [snd] in H2.
    + eapply neutral_trans; [exact H1 |].
      eapply neutral_trans; [exact H2 | apply pipeToFile_neutral].
    + eapply neutral_trans; [exact H1 | exact H2].
Qed.

(** The limiter runs, then the attempt is stamped: the invariant holds
    again, with the new attempt at least the minimum spacing after the
    previous one. *)
Lemma limiter_then_attempt_keeps u rc w :
  keepsLimiterInv w (log (EvAttempt u rc) (respectRateLimit w)).
Proof.
  destruct (respectRateLimit_spec w) as (Hcps & _ & Hlast & Hnow & Hreset & Hkeep & _ & _ & Hgap).
  cbn zeta in *.
  assert (Hm : minTimeBetweenCalls (rateLimit (respectRateLimit w))
               = minTimeBetweenCalls (rateLimit w)).
  { unfold minTimeBetweenCalls. rewrite Hcps. reflexivity. }
  assert (Htimes : attempt_times (trace (respectRateLimit w)) = attempt_times (trace w)).
  { unfold attempt_times. eapply omap_adds; [| apply respectRateLimit_adds].
    intros t e (ms & [-> | ->]); reflexivity. }
  split; [exact Hcps |].
  intros [Hr Hx Hl Hw Ht Hs].
  constructor; cbn [log rateLimit now trace].
  - rewrite Hcps. exact Hr.
  - rewrite Hcps. exact Hx.
  - lia.
  - destruct (Z.lt_ge_cases (resetTime (rateLimit w)) (now w)) as [Hlt | Hge].
    + destruct (Hreset ltac:(lia)) as (-> & _). lia.
    + rewrite (Hkeep ltac:(lia)). lia.
  - rewrite attempt_times_app, Htimes.
    change (attempt_times [(now (respectRateLimit w), EvAttempt u rc)])
      with [now (respectRateLimit w)].
    apply Forall_app. split.
    + eapply Forall_impl; [exact Ht |]. intros t Hle. cbv beta in *. lia.
    + repeat constructor. lia.
  - rewrite attempt_times_app, Htimes, Hm.
    change (attempt_times [(now (respectRateLimit w), EvAttempt u rc)])
      with [now (respectRateLimit w)].
    eapply spaced_snoc; [exact Ht | | exact Hs]. apply Hgap; assumption.
Qed.

Lemma keepsLimiterInv_closed : StepClosed env self keepsLimiterInv.
Proof.
  assert (Htrans : forall a b c, keepsLimiterInv a b -> keepsLimiterInv b c ->
                                 keepsLimiterInv a c).
  { intros a b c (C1 & I1) (C2 & I2). split; [congruence | auto]. }
  constructor.
  - intros w. apply neutral_keeps, neutral_refl.
  - exact Htrans.
  - intros w. apply neutral_keeps, ensureDownloadsDir_neutral.
  - intros u rc path w. eapply Htrans; [apply limiter_then_attempt_keeps |].
    apply neutral_keeps, attempt_neutral.
  - intros why d w. apply neutral_keeps, sleep_neutral.
  - intros h cid w. apply neutral_keeps, quiet_neutral, runHook_quiet.
  - intros failed w. apply neutral_keeps, saveFailedDownloads_neutral.
Qed.

(** C8, as the code has it.  The limiter guards the media downloads: it
    runs once at the head of every download attempt, ahead of the
    attempt's first request.  From a state in which it has been used
    consistently, one call of [respectRateLimit]
    - when the 24-hour window has elapsed, opens a new window of 24 hours
      and restarts the daily count, the call itself counting as 1;
    - when the window is open and the daily ceiling is reached, sleeps
      until the window resets and restarts the count;
    - when the window is open and the ceiling is not reached, counts the
      call and sleeps exactly the time still missing, if any, for
      [1000 / callsPerSecond + 50] milliseconds to have passed since the
      previous call of the limiter;
    - in every case returns no earlier than that minimum spacing after
      the previous call, and records the time of its return as the last
      call.
    Consequently, in any run of [downloadVideo] or of the pipeline, the
    download attempts start at least the minimum spacing apart. *)
Theorem download_attempts_are_rate_limited :
  forall (w : World) (fuel : nat) (url filename : option string)
         (retryCount maxRetries : nat) (retryDelay : Z) (calls : option (list Call)),
    limiterInv w ->
    let rl := rateLimit w in
    let m := 1000 / callsPerSecond rl + 50 in
    let w' := respectRateLimit w in
    (now w > resetTime rl ->
       resetTime (rateLimit w') = now w + 24 * 60 * 60 * 1000
       /\ currentCalls (rateLimit w') = 1)
    /\ (now w <= resetTime rl -> currentCalls rl >= callsPerDay rl ->
          resetTime rl <= now w'
          /\ currentCalls (rateLimit w') = 1
          /\ sleeps DailyLimit (trace w')
             = sleeps DailyLimit (trace w) ++ [Js.timer_ms (Some (resetTime rl - now w))])
    /\ (now w <= resetTime rl -> currentCalls rl < callsPerDay rl ->
          currentCalls (rateLimit w') = currentCalls rl + 1
          /\ sleeps DailyLimit (trace w') = sleeps DailyLimit (trace w)
          /\ now w' = Z.max (now w) (lastCallTime rl + m))
    /\ lastCallTime rl + m <= now w'
    /\ lastCallTime (rateLimit w') = now w'
    /\ (let wd := (downloadVideo env self fuel url filename
                     retryCount maxRetries retryDelay w).2 in
        limiterInv wd /\ spaced m (attempt_times (trace wd)))
    /\ (let wp := (downloadVideosFromExtensiveCalls env self fuel calls w).2 in
        limiterInv wp /\ spaced m (attempt_times (trace wp))).
Proof.
  intros w fuel url filename rc mr rd calls Hinv rl m w'.
  destruct (respectRateLimit_spec w)
    as (Hcps & _ & Hlast & Hnow & Hreset & Hkeep & Hday & Hbelow & Hgap).
  cbn zeta in *. fold w' in Hcps, Hlast, Hnow, Hreset, Hkeep, Hday, Hbelow, Hgap.
  fold rl in Hcps, Hreset, Hkeep, Hday, Hbelow, Hgap.
  destruct Hinv as [Hr Hx Hl Hw Ht Hs]. fold rl in Hr, Hx, Hl, Hw, Ht, Hs.
  assert (Hinv : limiterInv w) by (constructor; assumption).
  split; [exact Hreset |].
  split.
  { intros Hle Hge. destruct (Hday Hle Hge) as (Hc & Hsl & Hres).
    split; [apply Hres; unfold DAY in Hw; lia |]. split; assumption. }
  split.
  { intros Hle Hlt. destruct (Hbelow Hle Hlt) as (Hc & Hsl & Hmax).
    split; [exact Hc |]. split; [exact Hsl |]. apply Hmax; assumption. }
  split; [apply Hgap; assumption |].
  split; [exact Hlast |].
  split.
  - destruct (downloadVideo_closed env self _ keepsLimiterInv_closed
                fuel url filename rc mr rd w) as (Hc & Hk).
    pose proof (Hk Hinv) as Hinv'. split; [exact Hinv' |].
    pose proof (li_spaced _ Hinv') as Hsp. unfold minTimeBetweenCalls in Hsp.
    rewrite Hc in Hsp. exact Hsp.
  - destruct (downloadVideosFromExtensiveCalls_closed env self _ keepsLimiterInv_closed
                fuel calls w) as (Hc & Hk).
    pose proof (Hk Hinv) as Hinv'. split; [exact Hinv' |].
    pose proof (li_spaced _ Hinv') as Hsp. unfold minTimeBetweenCalls in Hsp.
    rewrite Hc in Hsp. exact Hsp.
Qed.

End Spacing.

(** C8, as the specification words it, fails for URL resolution.  With
    the daily ceiling reached and the last call made this very
    millisecond, resolving a signed URL sends its request at once: no
    sleep precedes it, and the rate-limit state is not even touched.  The
    same holds when the pipeline resolves through the callback of
    [export.js]: the request to the media endpoint is the first event of
    the run, at the time of the last call, and the limiter only sleeps
    afterwards, ahead of the download. *)
Lemma url_resolution_is_not_rate_limited :
  let w := saturatedWorld in
  let r := getSignedMediaUrl Scenario.envSigned "c1" w in
  let p := downloadVideosFromExtensiveCalls Scenario.envSigned
             (Scenario.downloader (Some SignedUrlHook)) 3
             (Some [Scenario.c1]) w in
  currentCalls (rateLimit w) >= callsPerDay (rateLimit w)
  /\ lastCallTime (rateLimit w) = now w
  /\ r.1 = Ret (Some "https://signed.example/c1.mp4")
  /\ trace r.2 = [(now w, EvApi PutOctetStream "c1" true)]
  /\ rateLimit r.2 = rateLimit w
  /\ take 3 (trace p.2)
     = [(now w, EvApi PutOctetStream "c1" true);
        (now w + 100, EvMkdir "exports/videos");
        (now w + 100, EvSleep DailyLimit 3599900)].
Proof.
  vm_compute. repeat split; try reflexivity. discriminate.
Qed.

(** ** Files only accumulate *)

Section FilesGrow.

Context (env : Env) (self : VideoDownloader).

Lemma pipeToFile_files n path w :
  files w ⊆ files (pipeToFile env n path w).2
  /\ ((pipeToFile env n path w).1 = Saved -> path ∈ files (pipeToFile env n path w).2)
  /\ reqs (pipeToFile env n path w).2 = reqs w.
Proof.
  unfold pipeToFile. destruct (write_stream env n path) as [| msg []];
    cbn [fst snd files reqs advance log add_file];
    (split; [set_solver |]); (split; [| reflexivity]); intros H;
    try discriminate; set_solver.
Qed.

Lemma attempt_files u path w :
  files w ⊆ files (attempt env self u path w).2
  /\ ((attempt env self u path w).1 = Saved -> path ∈ files (attempt env self u path w).2)
  /\ (reqs w <= reqs (attempt env self u path w).2)%nat.
Proof.
  unfold attempt, axiosGet.
  destruct (http_get env (reqs w) u None) as [| e1].
  - match goal with |- context [pipeToFile env ?n path ?v] =>
      destruct (pipeToFile_files n path v) as (H1 & H2 & H3) end.
    cbn [files reqs advance next_req log] in *. split; [exact H1 |].
    split; [exact H2 | lia].
  - cbn [reqs advance next_req log].
    destruct (http_get env (S (reqs w)) u (Some (authHeader self))) as [| e2].
    + match goal with |- context [pipeToFile env ?n path ?v] =>
        destruct (pipeToFile_files n path v) as (H1 & H2 & H3) end.
      cbn [files reqs advance next_req log] in *. split; [exact H1 |].
      split; [exact H2 | lia].
    + cbn [fst snd files reqs advance next_req log].
      split; [set_solver |]. split; [discriminate | lia].
Qed.

Lemma ensureDownloadsDir_ret w w1 :
  ensureDownloadsDir env self w = (Ret tt, w1) ->
  downloadsDir self ∈ files w1 /\ files w ⊆ files w1 /\ reqs w1 = reqs w.
Proof.
  unfold ensureDownloadsDir. destruct (existsSync (downloadsDir self) w) eqn:Hd.
  - intros H. inversion H; subst. apply existsSync_true in Hd. auto.
  - destruct (mkdir_error env _); [discriminate |]. intros [= <-].
    destruct (files_add_files_same (downloadsDir self :: ancestors (downloadsDir self)) w)
      as (_ & _ & Hreqs & _).
    set (l := downloadsDir self :: ancestors (downloadsDir self)) in *.
    change (downloadsDir self ∈ files (add_files l w)
            /\ files w ⊆ files (add_files l w)
            /\ reqs (add_files l w) = reqs w).
    split; [| split; [| exact Hreqs]].
    + apply files_add_files. left. subst l. left.
    + intros p Hp. apply files_add_files. right. exact Hp.
Qed.

Lemma ensureDownloadsDir_cases w :
  (exists w1, ensureDownloadsDir env self w = (Ret tt, w1))
  \/ (exists e, ensureDownloadsDir env self w = (Throw e, w)).
Proof.
  unfold ensureDownloadsDir. destruct (existsSync _ w); [left; eauto |].
  destruct (mkdir_error env _); [right | left]; eauto.
Qed.

Lemma filesGrow_closed : StepClosed env self filesGrow.
Proof.
  unfold filesGrow. constructor.
  - intros w. set_solver.
  - intros a b c. set_solver.
  - intros w. destruct (ensureDownloadsDir_cases w) as [[w1 H] | [e H]]; rewrite H.
    + apply ensureDownloadsDir_ret in H. tauto.
    + set_solver.
  - intros u rc path w.
    destruct (attempt_files u path (log (EvAttempt u rc) (respectRateLimit w))) as (H & _).
    destruct (respectRateLimit_frame w) as (Hf & _).
    cbn [files log] in H. rewrite Hf in H. exact H.
  - intros why d w. cbn [files sleep advance log]. set_solver.
  - intros h cid w. rewrite (q_files _ _ (runHook_quiet env h cid w)). set_solver.
  - intros failed w. unfold saveFailedDownloads. destruct failed; [set_solver |].
    destruct (existsSync exportsDir w); cbn [snd files log add_file]; set_solver.
Qed.

(** A download that returns a path returns the destination, and the file
    is then there, inside a directory that is there. *)
Lemma downloadVideo_success fuel :
  forall url filename rc mr rd w p w',
    downloadVideo env self fuel url filename rc mr rd w = (Ret (Some p), w') ->
    exists u, Js.truthy url = Some u
              /\ p = destination self u filename
              /\ p ∈ files w' /\ downloadsDir self ∈ files w'.
Proof.
  induction fuel as [| fuel IH]; intros url filename rc mr rd w p w';
    rewrite downloadVideo_eq;
    (destruct (Js.truthy url) as [u |] eqn:Hu; [| intros H; inversion H]);
    (destruct (ensureDownloadsDir_cases w) as [[w1 He] | [e He]]; rewrite He;
       [| intros H; inversion H]);
    destruct (ensureDownloadsDir_ret w w1 He) as (Hdir & _ & _);
    (destruct (existsSync (destination self u filename) w1) eqn:Hx;
       [intros H; inversion H; subst; exists u; apply existsSync_true in Hx; auto |]);
    destruct (attempt_files u (destination self u filename)
                (log (EvAttempt u rc) (respectRateLimit w1))) as (Hgrow & Hsaved & _);
    destruct (respectRateLimit_frame w1) as (Hf & _);
    cbn [files log] in Hgrow; rewrite Hf in Hgrow;
    (destruct (attempt env self u _ _) as [[| e | e] w3]; cbn [fst snd] in *;
       [intros H; inversion H; subst; exists u; split; [reflexivity |];
        split; [reflexivity |]; split; [auto | exact (Hgrow _ Hdir)]
       | intros H; inversion H |]);
    (destruct (outerCatch e u rc mr rd) as [why delay rc' mr' rd' | r] eqn:Hc;
       [| unfold outerCatch in Hc;
          repeat match type of Hc with
                 | (if ?b then _ else _) = _ => destruct b
                 end; inversion Hc; intros H; inversion H]).
  - intros H; inversion H.
  - intros H. apply IH in H. destruct H as (u' & Hu' & Hp & Hin & Hd).
    assert (u' = u).
    { apply truthy_Some_idem in Hu. rewrite Hu in Hu'. congruence. }
    subst u'. exists u. split; [reflexivity |].
    rewrite destination_idem in Hp. auto.
Qed.

End FilesGrow.

(** ** One outcome per call *)

Section OneOutcome.

Context (env : Env) (self : VideoDownloader).

(** The loop body never throws: its [catch] takes everything. *)
Lemma processCall_never_throws fuel c acc w e :
  (processCall env self fuel c acc w).1 <> Throw e.
Proof.
  unfold processCall, try_catch, bind, ret.
  destruct (videoUrlOf c) as [embedded |]; [| discriminate].
  destruct (freshVideoUrl env self c embedded w) as [[fresh | e1 | ] w1];
    [| discriminate | discriminate].
  destruct (downloadVideo env self fuel (Some fresh) _ _ _ _ w1) as [[p | e2 | ] w2];
    [destruct (Js.truthy p) | |]; discriminate.
Qed.

(** When it returns, it has pushed exactly one entry, for this call: a
    success whose file is stored, or a failure. *)
Lemma processCall_outcome fuel c acc w acc' w' :
  processCall env self fuel c acc w = (Ret acc', w') ->
  (exists s, acc' = pushSuccess s acc /\ successOf c s
             /\ storedIn env self (files w') c s)
  \/ (exists f, acc' = pushFailure f acc /\ failureOf c f).
Proof.
  unfold processCall, try_catch.
  destruct (videoUrlOf c) as [embedded |] eqn:Hv.
  2:{ intros [= <- <-]. right. eexists. split; [reflexivity |].
      split; [reflexivity | left; reflexivity]. }
  unfold bind at 1.
  destruct (freshVideoUrl_spec env self c embedded w (videoUrlOf_nonempty _ _ Hv))
    as (fresh & w1 & -> & Hne & Hq).
  unfold bind, ret.
  destruct (downloadVideo env self fuel (Some fresh) _ _ _ _ w1) as [[p | e | ] w2] eqn:Hdv.
  - destruct p as [p |].
    + destruct (downloadVideo_success env self _ _ _ _ _ _ _ _ _ Hdv)
        as (u & Hu & Hp & Hin & Hdir).
      apply truthy_Some_inv in Hu. destruct Hu as [[= <-] _].
      rewrite destination_of_call in Hp.
      assert (Hpne : Js.truthy (Some p) = Some p).
      { subst p. unfold callDestination, path_join.
        destruct (downloadsDir self); reflexivity. }
      rewrite Hpne. intros [= <- <-]. left. eexists. split; [reflexivity |].
      split; [split; reflexivity |].
      unfold storedIn, storedEntry. rewrite Hv. cbn [default filePath].
      split; [eauto |]. split; [subst p; reflexivity |]. split; assumption.
    + cbn [Js.truthy]. intros [= <- <-]. right. eexists. split; [reflexivity |].
      split; [reflexivity | left; reflexivity].
  - intros [= <- <-]. right. eexists. split; [reflexivity |].
    split; [reflexivity | right; reflexivity].
  - discriminate.
Qed.

Lemma Partition_app (S : Call -> Success -> Prop) F cs1 ss1 fs1 cs2 ss2 fs2 :
  Partition S F cs1 ss1 fs1 -> Partition S F cs2 ss2 fs2 ->
  Partition S F (cs1 ++ cs2) (ss1 ++ ss2) (fs1 ++ fs2).
Proof. induction 1; intros H2; simpl; [exact H2 | |]; constructor; auto. Qed.

Lemma Partition_length (S : Call -> Success -> Prop) F cs ss fs :
  Partition S F cs ss fs -> (length ss + length fs = length cs)%nat.
Proof. induction 1; simpl; lia. Qed.

Lemma Partition_impl (S S' : Call -> Success -> Prop) (F : Call -> Failure -> Prop)
      cs ss fs :
  (forall c s, S c s -> S' c s) ->
  Partition S F cs ss fs -> Partition S' F cs ss fs.
Proof. intros HS. induction 1; constructor; auto. Qed.

(** With no failure at all, the successes are the calls' entries, in
    order. *)
Lemma Partition_all_success (S : Call -> Success -> Prop) F cs ss :
  Partition S F cs ss [] -> Forall2 S cs ss.
Proof.
  intros H. remember [] as fs eqn:Hfs. induction H; subst; try discriminate.
  - constructor.
  - constructor; auto.
Qed.

Lemma storedIn_mono fs fs' c s :
  fs ⊆ fs' -> storedIn env self fs c s -> storedIn env self fs' c s.
Proof.
  unfold storedIn. intros Hsub (Hv & He & Hf & Hd).
  split; [exact Hv |]. split; [exact He |].
  split; [exact (Hsub _ Hf) | exact (Hsub _ Hd)].
Qed.

(** The loop, when it returns, has extended the two arrays by a partition
    of the calls it went through. *)
Lemma forEachCall_partition fuel calls :
  forall acc w acc' w',
    forEachCall env self fuel calls acc w = (Ret acc', w') ->
    exists ss fs,
      downloadedFiles acc' = downloadedFiles acc ++ ss
      /\ failedDownloads acc' = failedDownloads acc ++ fs
      /\ Partition (fun c s => successOf c s /\ storedIn env self (files w') c s)
                   failureOf calls ss fs.
Proof.
  induction calls as [| c rest IH]; intros acc w acc' w'; cbn [forEachCall].
  - intros [= <- <-]. exists [], []. rewrite !app_nil_r. repeat split. constructor.
  - unfold bind.
    destruct (processCall env self fuel c acc w) as [[acc1 | e | ] w1] eqn:Hp;
      [| discriminate | discriminate].
    intros Hrest.
    pose proof (forEachCall_closed env self _ (filesGrow_closed env self)
                  fuel rest acc1 w1) as Hgrow.
    rewrite Hrest in Hgrow. cbn [snd] in Hgrow. unfold filesGrow in Hgrow.
    destruct (IH _ _ _ _ Hrest) as (ss & fs & Hs & Hf & Hpart).
    destruct (processCall_outcome _ _ _ _ _ _ Hp)
      as [(s & -> & Hso & Hst) | (f & -> & Hfo)].
    + exists (s :: ss), fs. cbn [pushSuccess downloadedFiles failedDownloads] in Hs, Hf.
      rewrite Hs, Hf, <- app_assoc. repeat split.
      constructor; [| exact Hpart].
      split; [exact Hso | eapply storedIn_mono; eauto].
    + exists ss, (f :: fs). cbn [pushFailure downloadedFiles failedDownloads] in Hs, Hf.
      rewrite Hs, Hf, <- app_assoc. repeat split.
      constructor; assumption.
Qed.

(** *** Termination *)

Lemma ensureDownloadsDir_reqs w : reqs (ensureDownloadsDir env self w).2 = reqs w.
Proof.
  destruct (ensureDownloadsDir_cases env self w) as [[w1 H] | [e H]]; rewrite H.
  - apply ensureDownloadsDir_ret in H. tauto.
  - reflexivity.
Qed.

(** Once the 429 answers have stopped, [downloadVideo] settles: a budget of
    four restarts per request still open to a 429, plus the retries left,
    is enough. *)
Lemma downloadVideo_settles B :
  no429From env B ->
  forall fuel url filename rc mr rd w,
    (4 * (B - reqs w) + (mr - rc) <= fuel)%nat ->
    (downloadVideo env self fuel url filename rc mr rd w).1 <> OutOfFuel.
Proof.
  intros Hno. induction fuel as [| fuel IH]; intros url filename rc mr rd w Hfuel;
    rewrite downloadVideo_eq;
    (destruct (Js.truthy url) as [u |] eqn:Hu; [| discriminate]);
    pose proof (ensureDownloadsDir_reqs w) as Hq1;
    (destruct (ensureDownloadsDir_cases env self w) as [[w1 He] | [e He]]; rewrite He in *;
       [| discriminate]); cbn [snd] in Hq1;
    (destruct (existsSync _ w1); [discriminate |]);
    destruct (respectRateLimit_frame w1) as (_ & Hq2);
    (destruct (attempt env self u _ _) as [[| e | e] w3] eqn:Ha;
       [discriminate | discriminate |]);
    apply attempt_caught_inv in Ha; destruct Ha as (Hget & Hq3 & _);
    cbn [reqs log] in Hget, Hq3; rewrite Hq2, Hq1 in Hget, Hq3;
    unfold outerCatch;
    (destruct (is429 e) eqn:H429;
       [assert (S (reqs w) < B)%nat
          by (destruct (Nat.lt_ge_cases (S (reqs w)) B) as [Hlt | Hge];
              [exact Hlt | rewrite (Hno _ _ _ _ Hge Hget) in H429; discriminate])
       | destruct (isS3Retryable e u);
         (destruct (rc <? mr)%nat eqn:Hlt; [apply Nat.ltb_lt in Hlt | discriminate])]);
    try lia; cbn [fst].
  - apply IH; cbn [reqs sleep advance log]; rewrite Hq3;
      unfold defaultMaxRetries; lia.
  - apply IH; cbn [reqs sleep advance log]; rewrite Hq3; lia.
  - apply IH; cbn [reqs sleep advance log]; rewrite Hq3; lia.
Qed.

Lemma processCall_settles B fuel c acc w :
  no429From env B ->
  (4 * B + 3 <= fuel)%nat ->
  exists acc' w', processCall env self fuel c acc w = (Ret acc', w').
Proof.
  intros Hno Hfuel.
  pose proof (processCall_never_throws fuel c acc w) as Hnt.
  assert (Hnf : (processCall env self fuel c acc w).1 <> OutOfFuel).
  { unfold processCall, try_catch.
    destruct (videoUrlOf c) as [embedded |] eqn:Hv; [| discriminate].
    unfold bind at 1.
    destruct (freshVideoUrl_spec env self c embedded w (videoUrlOf_nonempty _ _ Hv))
      as (fresh & w1 & -> & _ & _).
    unfold bind, ret.
    pose proof (downloadVideo_settles B Hno fuel (Some fresh)
                  (Some (filenameFor env c embedded)) O defaultMaxRetries
                  defaultRetryDelay w1) as Hs.
    destruct (downloadVideo env self fuel (Some fresh) _ _ _ _ w1) as [[p | e | ] w2];
      [destruct (Js.truthy p); discriminate | discriminate |].
    exfalso. apply Hs; [unfold defaultMaxRetries; lia | reflexivity]. }
  destruct (processCall env self fuel c acc w) as [[acc' | e | ] w']; cbn [fst] in *.
  - eauto.
  - exfalso. eapply Hnt. reflexivity.
  - congruence.
Qed.

Lemma forEachCall_settles B fuel calls :
  no429From env B ->
  (4 * B + 3 <= fuel)%nat ->
  forall acc w, exists acc' w', forEachCall env self fuel calls acc w = (Ret acc', w').
Proof.
  intros Hno Hfuel. induction calls as [| c rest IH]; intros acc w; cbn [forEachCall].
  - eauto.
  - unfold bind. destruct (processCall_settles B fuel c acc w Hno Hfuel) as (acc1 & w1 & ->).
    apply IH.
Qed.

End OneOutcome.

Section Batch.

Context (env : Env) (self : VideoDownloader).

(** C1. Provided the server stops answering 429 at some point (from
    request number [B] on), the loop over a list of N call records runs to
    its end, and it leaves in the two arrays a partition of the input:
    going through the calls in order, each call is matched by exactly one
    entry - the next entry of the successes or the next entry of the
    failures, carrying the call's title and id - and no entry is left
    over, so the two lists together hold exactly N entries.  The function
    then returns the list of successes; the only thing that can stand in
    the way is the write of the failure list, which needs the exports
    directory when there are failures. *)
Theorem every_call_yields_exactly_one_outcome :
  forall (calls : list Call) (w : World) (B fuel : nat),
    no429From env B ->
    (4 * B + 3 <= fuel)%nat ->
    exists acc w',
      forEachCall env self fuel calls emptyAcc w = (Ret acc, w')
      /\ Partition successOf failureOf calls (downloadedFiles acc) (failedDownloads acc)
      /\ (length (downloadedFiles acc) + length (failedDownloads acc) = length calls)%nat
      /\ (failedDownloads acc = [] \/ existsSync exportsDir w = true ->
          exists w'',
            downloadVideosFromExtensiveCalls env self fuel (Some calls) w
            = (Ret (downloadedFiles acc), w''))
      /\ (forall r w'',
             downloadVideosFromExtensiveCalls env self fuel (Some calls) w = (Ret r, w'') ->
             r = downloadedFiles acc).
Proof.
  intros calls w B fuel Hno Hfuel.
  destruct (forEachCall_settles env self B fuel calls Hno Hfuel emptyAcc w)
    as (acc & w' & Hloop).
  destruct (forEachCall_partition env self fuel calls _ _ _ _ Hloop)
    as (ss & fs & Hs & Hf & Hpart).
  cbn [emptyAcc downloadedFiles failedDownloads app] in Hs, Hf.
  exists acc, w'. split; [exact Hloop |].
  assert (Hpart' : Partition successOf failureOf calls
                     (downloadedFiles acc) (failedDownloads acc)).
  { rewrite Hs, Hf. eapply Partition_impl; [| exact Hpart]. intros c s [H _]. exact H. }
  split; [exact Hpart' |].
  split; [eapply Partition_length; exact Hpart' |].
  split.
  - intros Hok. unfold downloadVideosFromExtensiveCalls, bind. rewrite Hloop.
    unfold saveFailedDownloads.
    destruct (failedDownloads acc) as [| f rest]; [eexists; reflexivity |].
    destruct Hok as [Hnil | Hexp]; [discriminate |].
    pose proof (forEachCall_closed env self _ (filesGrow_closed env self)
                  fuel calls emptyAcc w) as Hgrow.
    rewrite Hloop in Hgrow. cbn [snd] in Hgrow. unfold filesGrow in Hgrow.
    assert (Hexp' : existsSync exportsDir w' = true).
    { apply existsSync_true. apply existsSync_true in Hexp. set_solver. }
    rewrite Hexp'. eexists; reflexivity.
  - intros r w''. unfold downloadVideosFromExtensiveCalls, bind. rewrite Hloop.
    destruct (saveFailedDownloads (failedDownloads acc) w') as [[[] | e | ] w2];
      [| discriminate | discriminate].
    unfold ret. intros [= <- _]. reflexivity.
Qed.

(** *** Files that are already there *)

Lemma downloadVideo_skips_existing fuel u filename rc mr rd w :
  u <> "" ->
  existsSync (downloadsDir self) w = true ->
  existsSync (destination self u filename) w = true ->
  downloadVideo env self fuel (Some u) filename rc mr rd w
  = (Ret (Some (destination self u filename)), w).
Proof.
  intros Hu Hdir Hdest. rewrite downloadVideo_eq.
  assert (Ht : Js.truthy (Some u) = Some u) by (destruct u; [congruence | reflexivity]).
  rewrite Ht, (ensureDownloadsDir_exists env self w Hdir), Hdest. reflexivity.
Qed.

Lemma processCall_skips_existing fuel c acc w :
  storedIn env self (files w) c (storedEntry env self c) ->
  exists w',
    processCall env self fuel c acc w = (Ret (pushSuccess (storedEntry env self c) acc), w')
    /\ quiet w w'.
Proof.
  intros ([embedded Hv] & _ & Hfile & Hdir).
  unfold storedEntry in Hfile. rewrite Hv in Hfile. cbn [filePath default] in Hfile.
  unfold processCall, try_catch. rewrite Hv. unfold bind at 1.
  destruct (freshVideoUrl_spec env self c embedded w (videoUrlOf_nonempty _ _ Hv))
    as (fresh & w1 & -> & Hne & Hq).
  unfold bind, ret.
  rewrite (downloadVideo_skips_existing fuel fresh (Some (filenameFor env c embedded))
             O defaultMaxRetries defaultRetryDelay w1 Hne).
  - rewrite destination_of_call.
    assert (Hpne : Js.truthy (Some (callDestination env self c embedded))
                   = Some (callDestination env self c embedded)).
    { unfold callDestination, path_join. destruct (downloadsDir self); reflexivity. }
    rewrite Hpne. exists w1. split; [| exact Hq].
    unfold storedEntry. rewrite Hv. reflexivity.
  - apply existsSync_true. rewrite (q_files _ _ Hq). exact Hdir.
  - rewrite destination_of_call. apply existsSync_true.
    rewrite (q_files _ _ Hq). exact Hfile.
Qed.

Lemma forEachCall_skips_existing fuel calls :
  forall acc w,
    Forall (fun c => storedIn env self (files w) c (storedEntry env self c)) calls ->
    exists w',
      forEachCall env self fuel calls acc w
      = (Ret {| downloadedFiles := downloadedFiles acc ++ map (storedEntry env self) calls;
                failedDownloads := failedDownloads acc |}, w')
      /\ quiet w w'.
Proof.
  induction calls as [| c rest IH]; intros acc w Hall; cbn [forEachCall map].
  - exists w. rewrite app_nil_r. destruct acc. split; [reflexivity | apply quiet_refl].
  - inversion Hall as [| ? ? Hc Hrest]; subst.
    destruct (processCall_skips_existing fuel c acc w Hc) as (w1 & Hp & Hq1).
    unfold bind. rewrite Hp.
    destruct (IH (pushSuccess (storedEntry env self c) acc) w1) as (w2 & Hl & Hq2).
    { eapply Forall_impl; [exact Hrest |]. intros c'. cbv beta.
      rewrite (q_files _ _ Hq1). auto. }
    exists w2. rewrite Hl. cbn [pushSuccess downloadedFiles failedDownloads].
    rewrite <- app_assoc. split; [reflexivity | eapply quiet_trans; eauto].
Qed.

(** After a run in which no call failed, every call's recording is
    stored. *)
Lemma all_success_all_stored fuel calls w succ w1 :
  downloadVideosFromExtensiveCalls env self fuel (Some calls) w = (Ret succ, w1) ->
  length succ = length calls ->
  succ = map (storedEntry env self) calls
  /\ Forall (fun c => storedIn env self (files w1) c (storedEntry env self c)) calls.
Proof.
  unfold downloadVideosFromExtensiveCalls, bind.
  destruct (forEachCall env self fuel calls emptyAcc w) as [[acc | e | ] w'] eqn:Hloop;
    [| discriminate | discriminate].
  destruct (forEachCall_partition env self fuel calls _ _ _ _ Hloop)
    as (ss & fs & Hs & Hf & Hpart).
  cbn [emptyAcc downloadedFiles failedDownloads app] in Hs, Hf.
  intros Hret Hlen.
  assert (Hsucc : succ = ss /\ files w' ⊆ files w1).
  { pose proof (sc_save _ _ _ (filesGrow_closed env self) (failedDownloads acc) w') as Hg.
    unfold filesGrow in Hg.
    destruct (saveFailedDownloads (failedDownloads acc) w') as [[[] | e | ] w2];
      [| discriminate | discriminate].
    unfold ret in Hret. injection Hret as <- <-. split; [exact Hs | exact Hg]. }
  destruct Hsucc as [-> Hgrow].
  pose proof (Partition_length _ _ _ _ _ Hpart) as Hlen'.
  assert (Hnil : fs = []) by (destruct fs; [reflexivity | simpl in Hlen'; lia]).
  rewrite Hnil in Hpart.
  apply Partition_all_success in Hpart.
  clear -Hpart Hgrow. induction Hpart as [| c s cs ss' (_ & Hst) _ IH].
  - split; constructor.
  - destruct IH as (-> & Hall). pose proof Hst as (_ & -> & _).
    split; [reflexivity |]. constructor; [| exact Hall].
    eapply storedIn_mono; eauto.
Qed.

End Batch.

Lemma filenameFor_same_dates env1 env2 c u :
  (forall s, isoDate env2 s = isoDate env1 s) ->
  filenameFor env2 c u = filenameFor env1 c u.
Proof.
  intros H. unfold filenameFor, formattedDate.
  destruct (Js.truthy _); [rewrite H |]; reflexivity.
Qed.

(** C2. Where a file already exists at the destination of a download
    (inside the downloads directory), [downloadVideo] returns that path
    at once and leaves the world exactly as it was: no request, no run of
    the rate limiter, no sleep.  Consequently, after a run of the download
    phase in which every call succeeded, a second run over the same calls
    and the same storage - whatever the network would answer this time -
    returns the same successes, records no failure, and is quiet: it
    issues no media request, starts no download attempt, sleeps not at
    all, writes no file, creates no directory and leaves the rate-limit
    state untouched; all it may do is ask the refresh hook. *)
Theorem existing_files_are_not_downloaded_again :
  forall (env1 env2 : Env) (self : VideoDownloader) (fuel1 fuel2 : nat)
         (calls : list Call) (w w1 w2 : World) (succ : list Success),
    (forall s, isoDate env2 s = isoDate env1 s) ->
    downloadVideosFromExtensiveCalls env1 self fuel1 (Some calls) w = (Ret succ, w1) ->
    length succ = length calls ->
    files w1 ⊆ files w2 ->
    (forall fuel u filename rc mr rd w0,
        u <> "" ->
        existsSync (downloadsDir self) w0 = true ->
        existsSync (destination self u filename) w0 = true ->
        downloadVideo env2 self fuel (Some u) filename rc mr rd w0
        = (Ret (Some (destination self u filename)), w0))
    /\ exists w3,
        downloadVideosFromExtensiveCalls env2 self fuel2 (Some calls) w2 = (Ret succ, w3)
        /\ quiet w2 w3
        /\ gets (trace w3) = gets (trace w2)
        /\ attempts (trace w3) = attempts (trace w2)
        /\ (forall k, sleeps k (trace w3) = sleeps k (trace w2))
        /\ writes (trace w3) = writes (trace w2)
        /\ mkdirs (trace w3) = mkdirs (trace w2).
Proof.
  intros env1 env2 self fuel1 fuel2 calls w w1 w2 succ Hdates Hrun Hlen Hfiles.
  split; [intros; apply downloadVideo_skips_existing; assumption |].
  destruct (all_success_all_stored env1 self fuel1 calls w succ w1 Hrun Hlen)
    as (-> & Hstored).
  assert (Hentry : forall c, storedEntry env2 self c = storedEntry env1 self c).
  { intros c. unfold storedEntry, callDestination.
    rewrite (filenameFor_same_dates env1 env2 _ _ Hdates). reflexivity. }
  assert (Hstored2 : Forall (fun c => storedIn env2 self (files w2) c
                                        (storedEntry env2 self c)) calls).
  { eapply Forall_impl; [exact Hstored |]. intros c (Hv & _ & Hf & Hd).
    unfold storedIn. rewrite Hentry. split; [exact Hv |]. split; [reflexivity |].
    split; set_solver. }
  destruct (forEachCall_skips_existing env2 self fuel2 calls emptyAcc w2 Hstored2)
    as (w3 & Hloop & Hq).
  exists w3. split.
  - unfold downloadVideosFromExtensiveCalls, bind. rewrite Hloop.
    cbn [emptyAcc downloadedFiles failedDownloads app saveFailedDownloads ret].
    unfold ret. rewrite (List.map_ext _ _ Hentry). reflexivity.
  - split; [exact Hq |].
    split; [unfold gets; apply (quiet_proj _ _ _ Hq); reflexivity |].
    split; [unfold attempts; apply (quiet_proj _ _ _ Hq); reflexivity |].
    split; [intros k; unfold sleeps; apply (quiet_proj _ _ _ Hq); reflexivity |].
    split; [unfold writes | unfold mkdirs]; apply (quiet_proj _ _ _ Hq); reflexivity.
Qed.

(** ** Every download opens with the request without credentials *)

Section DirectRequestFirst.

Context (env : Env) (self : VideoDownloader).



End DirectRequestFirst.

(** * The statements at work on concrete runs *)

(** The empty URL: nothing happens, whatever the other arguments. *)
Lemma downloadVideo_empty_url_is_noop_witness :
  downloadVideo Scenario.quietEnv (Scenario.downloader None) 3
    (Some "") (Some "a.mp4") 0 3 2000 Scenario.w0
  = (Ret None, Scenario.w0).
Proof.
  pose proof (downloadVideo_empty_url_is_noop Scenario.quietEnv
                (Scenario.downloader None) 3 (Some "") (Some "a.mp4") 0%nat 3%nat 2000
                Scenario.w0 (or_intror eq_refl)) as (H1 & H2 & _).
  apply injective_projections; assumption.
Defined.


(** A hook that answers: the download is made from its URL. *)
Lemma refreshed_url_takes_precedence_witness :
  (freshVideoUrl Scenario.quietEnv (Scenario.downloader (Some Scenario.freshHook))
     Scenario.c1 "https://bucket.s3.amazonaws.com/a.mp4" Scenario.w0).1
  = Ret Scenario.freshUrl.
Proof.
  destruct (refreshed_url_takes_precedence Scenario.quietEnv
              (Scenario.downloader (Some Scenario.freshHook)) 3 Scenario.c1 emptyAcc
              Scenario.w0 "https://bucket.s3.amazonaws.com/a.mp4" "c1" Scenario.freshHook)
    as (_ & _ & _ & H & _).
  - reflexivity.
  - reflexivity.
  - reflexivity.
  - rewrite H. reflexivity.
Defined.

(** S3 refuses every request with 403: four attempts, then a failure
    entry. *)
Lemma retries_exhausted_is_recorded_and_loop_continues_witness :
  exists w',
    processCall Scenario.envForbidden (Scenario.downloader None) 3 Scenario.c1 emptyAcc
      Scenario.w0
    = (Ret (pushFailure (nullDownloadFailure Scenario.c1) emptyAcc), w')
    /\ attempts (trace w') = [0; 1; 2; 3]%nat
    /\ sleeps Backoff (trace w') = [2000; 4000; 8000].
Proof.
  destruct (retries_exhausted_is_recorded_and_loop_continues Scenario.envForbidden
              (Scenario.downloader None) 3 Scenario.c1 [] emptyAcc Scenario.w0
              "https://bucket.s3.amazonaws.com/a.mp4")
    as (_ & w' & H1 & H2 & H3 & _).
  - reflexivity.
  - intros fresh w1 [= <- _] n auth. exists Scenario.e403. split; reflexivity.
  - right. reflexivity.
  - vm_compute. reflexivity.
  - lia.
  - exists w'. split; [exact H1 |]. split; [exact H2 | exact H3].
Defined.

(** A 429 without [Retry-After], at retry count 2: sleep 60 s, start over
    at retry count 0. *)
Lemma http_429_restarts_without_consuming_retries_witness :
  exists w3,
    downloadVideo Scenario.envThrottled (Scenario.downloader None) 1
      (Some "https://bucket.s3.amazonaws.com/a.mp4") None 2 3 2000 Scenario.w1
    = downloadVideo Scenario.envThrottled (Scenario.downloader None) 0
        (Some "https://bucket.s3.amazonaws.com/a.mp4") (Some "a.mp4") 0 3 2000
        (sleep RetryAfter (Some 60000) w3).
Proof.
  destruct (http_429_restarts_without_consuming_retries Scenario.envThrottled
              (Scenario.downloader None) 0 2 3 2000
              "https://bucket.s3.amazonaws.com/a.mp4" None Scenario.w1
              (Scenario.e429 None) (Scenario.e429 None))
    as ((w3 & H & _) & _).
  - discriminate.
  - vm_compute. reflexivity.
  - vm_compute. reflexivity.
  - reflexivity.
  - reflexivity.
  - reflexivity.
  - exists w3. exact H.
Defined.

(** A fresh downloader: after a whole run the attempts are 550 ms apart
    or more. *)
Lemma download_attempts_are_rate_limited_witness :
  spaced 550
    (attempt_times
       (trace (downloadVideosFromExtensiveCalls Scenario.envForbidden
                 (Scenario.downloader None) 3
                 (Some [Scenario.c1; Scenario.c2]) Scenario.w0).2)).
Proof.
  destruct (download_attempts_are_rate_limited Scenario.envForbidden
              (Scenario.downloader None) Scenario.w0 3 None None 0%nat 3%nat 2000
              (Some [Scenario.c1; Scenario.c2]))
    as (_ & _ & _ & _ & _ & _ & _ & H).
  - constructor.
    + simpl. lia.
    + exists 500. reflexivity.
    + simpl. unfold Scenario.t0. lia.
    + simpl. unfold DAY. lia.
    + constructor.
    + constructor.
  - exact H.
Defined.

(** A server that never answers 429: three calls, three outcomes. *)
Lemma every_call_yields_exactly_one_outcome_witness :
  exists acc w',
    forEachCall Scenario.quietEnv (Scenario.downloader None) 3
      [Scenario.c1; Scenario.c3; Scenario.c2] emptyAcc Scenario.w0
    = (Ret acc, w')
    /\ (length (downloadedFiles acc) + length (failedDownloads acc) = 3)%nat.
Proof.
  destruct (every_call_yields_exactly_one_outcome Scenario.quietEnv
              (Scenario.downloader None) [Scenario.c1; Scenario.c3; Scenario.c2]
              Scenario.w0 0 3)
    as (acc & w' & H1 & _ & H2 & _).
  - intros n u auth e _ H. discriminate H.
  - lia.
  - exists acc, w'. split; [exact H1 | exact H2].
Defined.

(** Two calls downloaded, then the same batch again: nothing is fetched
    the second time. *)
Lemma existing_files_are_not_downloaded_again_witness :
  let first := downloadVideosFromExtensiveCalls Scenario.quietEnv
                 (Scenario.downloader None) 0
                 (Some [Scenario.c1; Scenario.c2]) Scenario.w0 in
  exists w3,
    downloadVideosFromExtensiveCalls Scenario.envForbidden (Scenario.downloader None) 0
      (Some [Scenario.c1; Scenario.c2]) first.2
    = (Ret (map (storedEntry Scenario.quietEnv (Scenario.downloader None))
              [Scenario.c1; Scenario.c2]), w3)
    /\ gets (trace w3) = gets (trace first.2).
Proof.
  intros first.
  destruct (existing_files_are_not_downloaded_again Scenario.quietEnv
              Scenario.envForbidden (Scenario.downloader None) 0 0
              [Scenario.c1; Scenario.c2] Scenario.w0 first.2 first.2
              (map (storedEntry Scenario.quietEnv (Scenario.downloader None))
                 [Scenario.c1; Scenario.c2]))
    as (_ & w3 & H1 & _ & H2 & _).
  - reflexivity.
  - vm_compute. reflexivity.
  - reflexivity.
  - intros p Hp. exact Hp.
  - exists w3. split; [exact H1 | exact H2].
Defined.

(** * More of the code: properties *)

(** ** Whole runs of the standard method *)

Section StdClosure.

Context (env : Env) (self : VideoDownloader).
Context (R : World -> World -> Prop) (HR : StdStepClosed env self R).

Let HB : StepClosed env self R := ssc_base _ _ _ HR.

Lemma resolveSignedUrl_closed c w : R w (resolveSignedUrl env self c w).2.
Proof.
  unfold resolveSignedUrl, try_catch, bind, ret.
  assert (H1 : R w (askHook env self c w).2).
  { unfold askHook.
    destruct (refreshUrlCallback self) as [hook |]; [| apply (sc_refl _ _ _ HB)].
    destruct (Js.truthy (sc_id c)) as [cid |]; [| apply (sc_refl _ _ _ HB)].
    apply (sc_hook _ _ _ HB). }
  destruct (askHook env self c w) as [[fromHook | e | ] w1]; cbn [snd] in H1;
    try exact H1.
  destruct (Js.truthy fromHook) as [u |].
  - destruct (Js.truthy (Some u)); exact H1.
  - pose proof (ssc_resolve _ _ _ HR (Js.interpolate (sc_id c)) w1) as H2.
    destruct (getSignedMediaUrl env (Js.interpolate (sc_id c)) w1) as [[su | e | ] w2];
      cbn [snd] in H2; try (eapply (sc_trans _ _ _ HB); [exact H1 | exact H2]).
    destruct (Js.truthy su); (eapply (sc_trans _ _ _ HB); [exact H1 | exact H2]).
Qed.

Lemma processStdCall_closed fuel c acc w : R w (processStdCall env self fuel c acc w).2.
Proof.
  unfold processStdCall, try_catch. unfold bind at 1.
  pose proof (resolveSignedUrl_closed c w) as H1.
  destruct (resolveSignedUrl env self c w) as [[[u | f] | e | ] w1]; cbn [snd] in H1;
    try exact H1.
  destruct (sc_title c) as [t |]; [| exact H1].
  unfold bind, ret.
  pose proof (downloadVideo_closed env self R HB fuel (Some u)
                (Some (stdFilename env c t u)) O defaultMaxRetries defaultRetryDelay w1)
    as H2.
  destruct (downloadVideo env self fuel (Some u) _ _ _ _ w1) as [[p | e | ] w2];
    cbn [snd] in H2; try (eapply (sc_trans _ _ _ HB); [exact H1 | exact H2]).
  destruct (Js.truthy p); (eapply (sc_trans _ _ _ HB); [exact H1 | exact H2]).
Qed.

Lemma forEachStdCall_closed fuel calls :
  forall acc w, R w (forEachStdCall env self fuel calls acc w).2.
Proof.
  induction calls as [| c rest IH]; intros acc w; cbn [forEachStdCall].
  - apply (sc_refl _ _ _ HB).
  - unfold bind. pose proof (processStdCall_closed fuel c acc w) as Hp.
    destruct (processStdCall env self fuel c acc w) as [[acc' | e | ] w1];
      cbn [snd] in Hp; try exact Hp.
    eapply (sc_trans _ _ _ HB); [exact Hp | apply IH].
Qed.

Lemma downloadVideosForCalls_closed fuel calls gongExport w :
  R w (downloadVideosForCalls env self fuel calls gongExport w).2.
Proof.
  unfold downloadVideosForCalls.
  destruct calls as [cs |]; [| apply (sc_refl _ _ _ HB)].
  destruct gongExport as [g |]; [| apply (sc_refl _ _ _ HB)].
  unfold bind. pose proof (forEachStdCall_closed fuel cs emptyStdAcc w) as Hl.
  destruct (forEachStdCall env self fuel cs emptyStdAcc w) as [[acc | e | ] w1];
    cbn [snd] in Hl; try exact Hl.
  pose proof (ssc_save _ _ _ HR (std_failedDownloads acc) w1) as Hs.
  destruct (saveStdFailedDownloads (std_failedDownloads acc) w1) as [[[] | e | ] w2];
    cbn [snd] in Hs; (eapply (sc_trans _ _ _ HB); [exact Hl | exact Hs]).
Qed.

End StdClosure.

Section StdInstances.

Context (env : Env) (self : VideoDownloader).

Lemma saveStdFailedDownloads_neutral failed w :
  neutral w (saveStdFailedDownloads failed w).2.
Proof.
  unfold saveStdFailedDownloads. destruct failed; [apply neutral_refl |].
  destruct (existsSync exportsDir w); [| apply neutral_refl].
  unfold neutral. cbn [snd add_file rateLimit now trace]. repeat split; lia.
Qed.

(** Any relation that holds of the steps of the first method and of every
    neutral step holds of the steps of the second. *)
Lemma neutral_extends (R : World -> World -> Prop) :
  StepClosed env self R ->
  (forall w w', neutral w w' -> R w w') ->
  StdStepClosed env self R.
Proof.
  intros HB Hn. constructor; [exact HB | |].
  - intros cid w. apply Hn, quiet_neutral, getSignedMediaUrl_quiet.
  - intros failed w. apply Hn, saveStdFailedDownloads_neutral.
Qed.

Lemma filesGrow_std_closed : StdStepClosed env self filesGrow.
Proof.
  constructor; [apply filesGrow_closed | |]; unfold filesGrow.
  - intros cid w. rewrite (q_files _ _ (getSignedMediaUrl_quiet env cid w)). reflexivity.
  - intros failed w. unfold saveStdFailedDownloads. destruct failed; [reflexivity |].
    destruct (existsSync exportsDir w); cbn [snd files add_file]; [| reflexivity].
    intros p Hp. apply elem_of_union. right. exact Hp.
Qed.

Lemma keepsLimiterInv_std_closed : StdStepClosed env self keepsLimiterInv.
Proof.
  apply neutral_extends; [apply keepsLimiterInv_closed | apply neutral_keeps].
Qed.

(** *** The daily ceiling *)

Lemma neutral_keepsCeiling w w' : neutral w w' -> keepsCeiling w w'.
Proof.
  intros (Hr & _ & _). unfold keepsCeiling, withinCeiling. rewrite Hr. tauto.
Qed.

Lemma respectRateLimit_keepsCeiling w : keepsCeiling w (respectRateLimit w).
Proof.
  destruct (respectRateLimit_spec w)
    as (_ & Hcpd & _ & _ & Hreset & _ & Hday & Hbelow & _).
  cbn zeta in *. split; [exact Hcpd |].
  unfold withinCeiling. rewrite Hcpd. intros Hpos Hin.
  destruct (Z.lt_ge_cases (resetTime (rateLimit w)) (now w)) as [Hel | Hopen].
  - destruct (Hreset ltac:(lia)) as (_ & ->). lia.
  - destruct (Z.lt_ge_cases (currentCalls (rateLimit w)) (callsPerDay (rateLimit w)))
      as [Hlt | Hge].
    + destruct (Hbelow ltac:(lia) Hlt) as (-> & _). lia.
    + destruct (Hday ltac:(lia) ltac:(lia)) as (-> & _). lia.
Qed.

Lemma keepsCeiling_trans a b c : keepsCeiling a b -> keepsCeiling b c -> keepsCeiling a c.
Proof.
  unfold keepsCeiling. intros (C1 & I1) (C2 & I2). split; [congruence |].
  intros Hpos Hin. apply I2; [rewrite C1; exact Hpos | auto].
Qed.

Lemma same_keepsCeiling w w' : rateLimit w' = rateLimit w -> keepsCeiling w w'.
Proof. intros Hr. unfold keepsCeiling, withinCeiling. rewrite Hr. tauto. Qed.

Lemma attempt_rateLimit u path w : rateLimit (attempt env self u path w).2 = rateLimit w.
Proof. destruct (attempt_neutral env self u path w) as (H & _). exact H. Qed.

Lemma keepsCeiling_closed : StepClosed env self keepsCeiling.
Proof.
  constructor.
  - intros w. apply neutral_keepsCeiling, neutral_refl.
  - exact keepsCeiling_trans.
  - intros w. apply neutral_keepsCeiling, ensureDownloadsDir_neutral.
  - intros u rc path w.
    eapply keepsCeiling_trans; [apply respectRateLimit_keepsCeiling |].
    apply same_keepsCeiling. rewrite attempt_rateLimit. reflexivity.
  - intros why d w. apply neutral_keepsCeiling, sleep_neutral.
  - intros h cid w. apply neutral_keepsCeiling, quiet_neutral, runHook_quiet.
  - intros failed w. apply neutral_keepsCeiling, saveFailedDownloads_neutral.
Qed.

Lemma keepsCeiling_std_closed : StdStepClosed env self keepsCeiling.
Proof. apply neutral_extends; [apply keepsCeiling_closed | apply neutral_keepsCeiling]. Qed.

(** *** The last-call timestamp *)

Lemma neutral_follows w w' : neutral w w' -> limiterFollowsAttempts w w'.
Proof. intros (Hr & _ & Ht). left. split; assumption. Qed.

Lemma limiterFollowsAttempts_trans a b c :
  limiterFollowsAttempts a b -> limiterFollowsAttempts b c -> limiterFollowsAttempts a c.
Proof.
  intros [(T1 & R1) | (l1 & t1 & T1 & L1)] [(T2 & R2) | (l2 & t2 & T2 & L2)].
  - left. split; congruence.
  - right. exists l2, t2. split; [rewrite T2, T1; reflexivity | exact L2].
  - right. exists l1, t1. split; [rewrite T2; exact T1 | rewrite R2; exact L1].
  - right. exists (l1 ++ [t1] ++ l2), t2. split; [| exact L2].
    rewrite T2, T1, <- !app_assoc. reflexivity.
Qed.

Lemma limiterFollowsAttempts_closed : StepClosed env self limiterFollowsAttempts.
Proof.
  constructor.
  - intros w. apply neutral_follows, neutral_refl.
  - exact limiterFollowsAttempts_trans.
  - intros w. apply neutral_follows, ensureDownloadsDir_neutral.
  - intros u rc path w. right. exists [], (now (respectRateLimit w)).
    destruct (attempt_neutral env self u path (log (EvAttempt u rc) (respectRateLimit w)))
      as (Hr & _ & Ht).
    rewrite Ht, Hr. cbn [log trace rateLimit].
    destruct (respectRateLimit_spec w) as (_ & _ & Hlast & _). cbn zeta in Hlast.
    split; [| exact Hlast].
    rewrite attempt_times_app. f_equal.
    unfold attempt_times. eapply omap_adds; [| apply respectRateLimit_adds].
    intros t e (ms & [-> | ->]); reflexivity.
  - intros why d w. apply neutral_follows, sleep_neutral.
  - intros h cid w. apply neutral_follows, quiet_neutral, runHook_quiet.
  - intros failed w. apply neutral_follows, saveFailedDownloads_neutral.
Qed.

Lemma limiterFollowsAttempts_std_closed : StdStepClosed env self limiterFollowsAttempts.
Proof.
  apply neutral_extends; [apply limiterFollowsAttempts_closed | apply neutral_follows].
Qed.

(** X1. The daily count never passes the ceiling.  With a ceiling of at
    least one call, a count that is between 0 and the ceiling stays there
    through any run of [downloadVideo] and of either batch method; one
    call of the limiter leaves it between 1 and the ceiling. *)
Theorem daily_count_stays_within_ceiling :
  forall (w : World) (fuel : nat) (url filename : option string)
         (retryCount maxRetries : nat) (retryDelay : Z)
         (calls : option (list Call)) (stdCalls : option (list StdCall))
         (gongExport : option GongExport),
    1 <= callsPerDay (rateLimit w) ->
    0 <= currentCalls (rateLimit w) <= callsPerDay (rateLimit w) ->
    1 <= currentCalls (rateLimit (respectRateLimit w)) <= callsPerDay (rateLimit w)
    /\ withinCeiling (downloadVideo env self fuel url filename
                        retryCount maxRetries retryDelay w).2
    /\ withinCeiling (downloadVideosFromExtensiveCalls env self fuel calls w).2
    /\ withinCeiling (downloadVideosForCalls env self fuel stdCalls gongExport w).2.
Proof.
  intros w fuel url filename rc mr rd calls stdCalls gongExport Hpos Hin.
  split.
  - destruct (respectRateLimit_spec w)
      as (_ & _ & _ & _ & Hreset & _ & Hday & Hbelow & _).
    cbn zeta in *.
    destruct (Z.lt_ge_cases (resetTime (rateLimit w)) (now w)) as [Hel | Hopen].
    + destruct (Hreset ltac:(lia)) as (_ & ->). lia.
    + destruct (Z.lt_ge_cases (currentCalls (rateLimit w)) (callsPerDay (rateLimit w)))
        as [Hlt | Hge].
      * destruct (Hbelow ltac:(lia) Hlt) as (-> & _). lia.
      * destruct (Hday ltac:(lia) ltac:(lia)) as (-> & _). lia.
  - split; [| split].
    + apply (downloadVideo_closed env self _ keepsCeiling_closed); assumption.
    + apply (downloadVideosFromExtensiveCalls_closed env self _ keepsCeiling_closed);
        assumption.
    + apply (downloadVideosForCalls_closed env self _ keepsCeiling_std_closed);
        assumption.
Qed.

(** X2. The rate-limit state moves only with download attempts.  After
    any run, either no attempt was started and the rate-limit state is
    exactly what it was, or the last-call timestamp is the start time of
    the latest attempt. *)
Theorem last_call_time_is_latest_attempt :
  forall (w : World) (fuel : nat) (url filename : option string)
         (retryCount maxRetries : nat) (retryDelay : Z)
         (calls : option (list Call)) (stdCalls : option (list StdCall))
         (gongExport : option GongExport),
    limiterFollowsAttempts w
      (downloadVideo env self fuel url filename retryCount maxRetries retryDelay w).2
    /\ limiterFollowsAttempts w
         (downloadVideosFromExtensiveCalls env self fuel calls w).2
    /\ limiterFollowsAttempts w
         (downloadVideosForCalls env self fuel stdCalls gongExport w).2.
Proof.
  intros. split; [| split].
  - apply (downloadVideo_closed env self _ limiterFollowsAttempts_closed).
  - apply (downloadVideosFromExtensiveCalls_closed env self _ limiterFollowsAttempts_closed).
  - apply (downloadVideosForCalls_closed env self _ limiterFollowsAttempts_std_closed).
Qed.

End StdInstances.

(** ** Requests and attempts *)

Section RequestsPerAttempt.

Context (env : Env) (self : VideoDownloader).

Lemma DirectThenAuth_counts h evs :
  DirectThenAuth h evs ->
  (countAttempts evs <= countGets evs <= 2 * countAttempts evs)%nat.
Proof.
  unfold countAttempts, countGets. induction 1; cbn in *; lia.
Qed.

Lemma extendsWith_weaken (P Q : list Event -> Prop) w w' :
  (forall evs, P evs -> Q evs) -> extendsWith P w w' -> extendsWith Q w w'.
Proof. intros HPQ (evs & H & HP). exists evs. auto. Qed.

Lemma extendsWith_std_closed :
  StdStepClosed env self (extendsWith (DirectThenAuth (authHeader self))).
Proof.
  assert (Hsame : forall w w', netEvents (trace w') = netEvents (trace w) ->
                               extendsWith (DirectThenAuth (authHeader self)) w w').
  { intros w w' H. exists []. rewrite app_nil_r. split; [exact H | constructor]. }
  constructor; [apply extendsWith_closed | |].
  - intros cid w. apply Hsame, netEvents_getSignedMediaUrl.
  - intros failed w. apply Hsame. unfold saveStdFailedDownloads.
    destruct failed; [reflexivity |]. destruct (existsSync exportsDir w); reflexivity.
Qed.

(** X3. The standard method downloads like the other one: in any run of
    [downloadVideosForCalls] the network events come in attempts, each one
    GET without credentials and, only after its failure, one GET of the
    same URL with the Basic header.  So in every run, of either method or
    of [downloadVideo] alone, the number of GETs lies between the number
    of attempts and twice that number. *)
Theorem requests_are_at_most_twice_the_attempts :
  forall (w : World) (fuel : nat) (url filename : option string)
         (retryCount maxRetries : nat) (retryDelay : Z)
         (calls : option (list Call)) (stdCalls : option (list StdCall))
         (gongExport : option GongExport),
    let bounded evs :=
      (countAttempts evs <= countGets evs <= 2 * countAttempts evs)%nat in
    extendsWith (DirectThenAuth ("Basic " +:+ basicToken self)) w
      (downloadVideosForCalls env self fuel stdCalls gongExport w).2
    /\ extendsWith bounded w
         (downloadVideosForCalls env self fuel stdCalls gongExport w).2
    /\ extendsWith bounded w
         (downloadVideosFromExtensiveCalls env self fuel calls w).2
    /\ extendsWith bounded w
         (downloadVideo env self fuel url filename retryCount maxRetries retryDelay w).2.
Proof.
  intros. split; [| split; [| split]].
  - apply (downloadVideosForCalls_closed env self _ extendsWith_std_closed).
  - eapply extendsWith_weaken; [apply DirectThenAuth_counts |].
    apply (downloadVideosForCalls_closed env self _ extendsWith_std_closed).
  - eapply extendsWith_weaken; [apply DirectThenAuth_counts |].
    apply (downloadVideosFromExtensiveCalls_closed env self _ (extendsWith_closed env self)).
  - eapply extendsWith_weaken; [apply DirectThenAuth_counts |].
    apply (downloadVideo_closed env self _ (extendsWith_closed env self)).
Qed.

(** X4. Nothing is ever removed: every path that exists before a run of
    [downloadVideo] or of either batch method exists after it. *)
Theorem existing_paths_survive_every_run :
  forall (w : World) (fuel : nat) (url filename : option string)
         (retryCount maxRetries : nat) (retryDelay : Z)
         (calls : option (list Call)) (stdCalls : option (list StdCall))
         (gongExport : option GongExport) (p : string),
    existsSync p w = true ->
    existsSync p (downloadVideo env self fuel url filename
                    retryCount maxRetries retryDelay w).2 = true
    /\ existsSync p (downloadVideosFromExtensiveCalls env self fuel calls w).2 = true
    /\ existsSync p (downloadVideosForCalls env self fuel stdCalls gongExport w).2 = true.
Proof.
  intros w fuel url filename rc mr rd calls stdCalls gongExport p Hp.
  apply existsSync_true in Hp.
  split; [| split]; apply existsSync_true.
  - exact (downloadVideo_closed env self _ (filesGrow_closed env self)
             fuel url filename rc mr rd w p Hp).
  - exact (downloadVideosFromExtensiveCalls_closed env self _ (filesGrow_closed env self)
             fuel calls w p Hp).
  - exact (downloadVideosForCalls_closed env self _ (filesGrow_std_closed env self)
             fuel stdCalls gongExport w p Hp).
Qed.

End RequestsPerAttempt.

(** ** What a returned path means *)

Section ReturnedPaths.

Context (env : Env) (self : VideoDownloader).

Lemma Partition_successes (S : Call -> Success -> Prop) F cs ss fs :
  Partition S F cs ss fs -> Forall (fun s => exists c, c ∈ cs /\ S c s) ss.
Proof.
  induction 1 as [| c cs s ss fs Hs _ IH | c cs f ss fs _ _ IH].
  - constructor.
  - constructor.
    + exists c. split; [left | exact Hs].
    + eapply Forall_impl; [exact IH |]. intros s' (c' & Hin & Hs').
      exists c'. split; [right; exact Hin | exact Hs'].
  - eapply Forall_impl; [exact IH |]. intros s' (c' & Hin & Hs').
    exists c'. split; [right; exact Hin | exact Hs'].
Qed.

(** X5. A returned path exists.  When [downloadVideo] returns a path,
    the URL was not empty, and the path and the storage directory exist
    at that moment.  When the extensive-calls method returns its list,
    every entry names a path that exists then and carries the id and the
    title of a call of the input that has a video URL. *)
Theorem returned_paths_exist :
  forall (w w' : World) (fuel : nat) (url filename : option string)
         (retryCount maxRetries : nat) (retryDelay : Z)
         (calls : list Call) (p : string) (succ : list Success),
    (downloadVideo env self fuel url filename retryCount maxRetries retryDelay w
     = (Ret (Some p), w') ->
     (exists u, url = Some u /\ u <> "")
     /\ existsSync p w' = true
     /\ existsSync (downloadsDir self) w' = true)
    /\ (downloadVideosFromExtensiveCalls env self fuel (Some calls) w = (Ret succ, w') ->
        Forall (fun s => existsSync (filePath s) w' = true
                         /\ exists c, c ∈ calls /\ successOf c s
                                      /\ is_Some (videoUrlOf c)) succ).
Proof.
  intros w w' fuel url filename rc mr rd calls p succ. split.
  - intros H. destruct (downloadVideo_success env self _ _ _ _ _ _ _ _ _ H)
      as (u & Hu & Hp & Hin & Hdir).
    apply truthy_Some_inv in Hu. destruct Hu as (-> & Hne).
    split; [exists u; split; [reflexivity | exact Hne] |].
    split; apply existsSync_true; assumption.
  - unfold downloadVideosFromExtensiveCalls, bind.
    destruct (forEachCall env self fuel calls emptyAcc w) as [[acc | e | ] w1] eqn:Hloop;
      [| discriminate | discriminate].
    destruct (forEachCall_partition env self fuel calls _ _ _ _ Hloop)
      as (ss & fs & Hs & _ & Hpart).
    cbn [emptyAcc downloadedFiles app] in Hs.
    pose proof (sc_save _ _ _ (filesGrow_closed env self) (failedDownloads acc) w1) as Hg.
    unfold filesGrow in Hg.
    destruct (saveFailedDownloads (failedDownloads acc) w1) as [[[] | e | ] w2];
      [| discriminate | discriminate].
    unfold ret. intros [= <- <-]. cbn [snd] in Hg. rewrite Hs.
    eapply Forall_impl; [apply (Partition_successes _ _ _ _ _ Hpart) |].
    intros s (c & Hin & Hof & (Hurl & _ & Hfile & _)).
    split; [apply existsSync_true, Hg, Hfile |]. exists c. auto.
Qed.

End ReturnedPaths.

(** ** The retry budget *)

Section RetryBudget.

Context (env : Env) (self : VideoDownloader).

Lemma no429From_mono B B' : (B <= B')%nat -> no429From env B -> no429From env B'.
Proof. intros Hle H n u auth e Hn. apply H. lia. Qed.

(** What the part of [downloadVideo] before the [catch] adds to the
    trace when it reaches the attempt. *)
Lemma attempt_step_trace u rc path w :
  let w3 := (attempt env self u path (log (EvAttempt u rc) (respectRateLimit w))).2 in
  attempts (trace w3) = attempts (trace w) ++ [rc]
  /\ (forall kd, kd = Backoff \/ kd = RetryAfter ->
        sleeps kd (trace w3) = sleeps kd (trace w)).
Proof.
  cbn zeta.
  set (w2 := log (EvAttempt u rc) (respectRateLimit w)).
  assert (Hadds : adds (fun e => match e with
                                 | EvGet _ _ _ | EvWrite _ _ => True
                                 | _ => False
                                 end) w2 (attempt env self u path w2).2).
  { unfold adds, attempt, axiosGet, pipeToFile.
    destruct (http_get env (reqs w2) u None) as [| e1].
    - cbn [reqs advance next_req log].
      destruct (write_stream env (reqs w2) path) as [| msg []];
        cbn [snd trace advance next_req log add_file];
        (eexists; split; [rewrite <- ?app_assoc; reflexivity |]); repeat constructor.
    - cbn [reqs advance next_req log].
      destruct (http_get env (S (reqs w2)) u (Some (authHeader self))) as [| e2].
      + destruct (write_stream env (S (reqs w2)) path) as [| msg []];
          cbn [snd trace advance next_req log add_file];
          (eexists; split; [rewrite <- ?app_assoc; reflexivity |]); repeat constructor.
      + cbn [snd trace advance next_req log].
        eexists; split; [rewrite <- ?app_assoc; reflexivity |]; repeat constructor. }
  assert (Hproj : forall A (f : Z * Event -> option A),
             (forall t x a ok, f (t, EvGet x a ok) = None) ->
             (forall t p ok, f (t, EvWrite p ok) = None) ->
             omap f (trace (attempt env self u path w2).2) = omap f (trace w2)).
  { intros A f Hg Hw. eapply omap_adds; [| exact Hadds].
    intros t e He. destruct e; try contradiction; auto. }
  split.
  - unfold attempts at 1. rewrite Hproj by reflexivity.
    subst w2. cbn [trace log]. rewrite omap_app. cbn. f_equal.
    eapply omap_adds; [| apply respectRateLimit_adds].
    intros t e (ms & [-> | ->]); reflexivity.
  - intros kd Hkd. unfold sleeps at 1. rewrite Hproj by reflexivity.
    subst w2. cbn [trace log]. rewrite omap_app. cbn. rewrite app_nil_r.
    eapply omap_adds; [| apply respectRateLimit_adds].
    intros t e (ms & [-> | ->]); destruct Hkd as [-> | ->]; reflexivity.
Qed.

Lemma ensureDownloadsDir_trace w :
  attempts (trace (ensureDownloadsDir env self w).2) = attempts (trace w)
  /\ (forall kd, sleeps kd (trace (ensureDownloadsDir env self w).2) = sleeps kd (trace w)).
Proof.
  unfold ensureDownloadsDir. destruct (existsSync _ w); [split; reflexivity |].
  destruct (mkdir_error env _); [split; reflexivity |].
  destruct (files_add_files_same (downloadsDir self :: ancestors (downloadsDir self)) w)
    as (_ & _ & _ & Htr).
  cbn [snd trace log]. rewrite Htr. split; [| intros kd].
  - rewrite attempts_app. cbn. apply app_nil_r.
  - rewrite sleeps_app. cbn. apply app_nil_r.
Qed.

Lemma outerCatch_no429 e u rc mr rd :
  is429 e = false ->
  (exists r, outerCatch e u rc mr rd = Settle r /\ r <> OutOfFuel)
  \/ ((rc < mr)%nat
      /\ outerCatch e u rc mr rd
         = Restart Backoff (Some (nextDelay rd rc)) (S rc) mr rd).
Proof.
  intros H. unfold outerCatch. rewrite H.
  destruct (isS3Retryable e u); destruct (rc <? mr)%nat eqn:Hlt;
    try (right; split; [apply Nat.ltb_lt; exact Hlt | reflexivity]);
    left; eexists; split; try reflexivity; discriminate.
Qed.

(** X6. The retry budget is a bound.  If from now on no media request is
    answered 429, a call of [downloadVideo] with retry count [rc] and
    budget [maxRetries] settles within [maxRetries - rc] self-calls,
    having started at most [maxRetries - rc + 1] attempts - numbered
    [rc], [rc + 1], ... without a gap -, slept at most [maxRetries - rc]
    backoff delays, and never slept for a [Retry-After]. *)
Theorem retries_are_bounded_without_429 :
  forall (fuel : nat) (url filename : option string)
         (retryCount maxRetries : nat) (retryDelay : Z) (w : World),
    no429From env (reqs w) ->
    (maxRetries - retryCount <= fuel)%nat ->
    let r := downloadVideo env self fuel url filename
               retryCount maxRetries retryDelay w in
    r.1 <> OutOfFuel
    /\ exists k delays,
        attempts (trace r.2) = attempts (trace w) ++ seq retryCount k
        /\ (k <= maxRetries - retryCount + 1)%nat
        /\ sleeps Backoff (trace r.2) = sleeps Backoff (trace w) ++ delays
        /\ (length delays <= maxRetries - retryCount)%nat
        /\ (length delays <= k)%nat
        /\ sleeps RetryAfter (trace r.2) = sleeps RetryAfter (trace w).
Proof.
  induction fuel as [| fuel IH]; intros url filename rc mr rd w Hno Hfuel r; subst r.
  all: assert (Hzero : forall v,
             attempts (trace v) = attempts (trace w) ->
             (forall kd, sleeps kd (trace v) = sleeps kd (trace w)) ->
             exists k delays,
               attempts (trace v) = attempts (trace w) ++ seq rc k
               /\ (k <= mr - rc + 1)%nat
               /\ sleeps Backoff (trace v) = sleeps Backoff (trace w) ++ delays
               /\ (length delays <= mr - rc)%nat
               /\ (length delays <= k)%nat
               /\ sleeps RetryAfter (trace v) = sleeps RetryAfter (trace w))
    by (intros v Ha Hs; exists O, []; cbn [seq length]; rewrite !app_nil_r, Ha, !Hs;
        repeat split; lia).
  all: rewrite downloadVideo_eq.
  all: destruct (Js.truthy url) as [u |] eqn:Hu;
    [| split; [discriminate | apply Hzero; reflexivity]].
  all: destruct (ensureDownloadsDir_trace w) as (Ha1 & Hs1).
  all: pose proof (ensureDownloadsDir_reqs env self w) as Hq1.
  all: destruct (ensureDownloadsDir env self w) as [[[] | e | ] w1] eqn:He;
    cbn [snd] in Ha1, Hs1, Hq1;
    [| split; [discriminate | apply Hzero; assumption]
     | exfalso; destruct (ensureDownloadsDir_cases env self w) as [[? H] | [? H]];
       rewrite H in He; discriminate].
  all: destruct (existsSync _ w1);
    [split; [discriminate | apply Hzero; assumption] |].
  all: destruct (attempt_step_trace u rc (destination self u filename) w1) as (Ha3 & Hs3).
  all: cbn zeta in Ha3, Hs3.
  all: destruct (respectRateLimit_frame w1) as (_ & Hq2).
  all: assert (Hone : forall v,
             attempts (trace v) = attempts (trace w) ++ [rc] ->
             (forall kd, kd = Backoff \/ kd = RetryAfter ->
                         sleeps kd (trace v) = sleeps kd (trace w)) ->
             exists k delays,
               attempts (trace v) = attempts (trace w) ++ seq rc k
               /\ (k <= mr - rc + 1)%nat
               /\ sleeps Backoff (trace v) = sleeps Backoff (trace w) ++ delays
               /\ (length delays <= mr - rc)%nat
               /\ (length delays <= k)%nat
               /\ sleeps RetryAfter (trace v) = sleeps RetryAfter (trace w))
    by (intros v Ha Hs; exists 1%nat, []; cbn [seq length];
        rewrite !app_nil_r, Ha, !Hs by auto; repeat split; lia).
  all: assert (Hafter : attempts (trace (attempt env self u (destination self u filename)
                                    (log (EvAttempt u rc) (respectRateLimit w1))).2)
                   = attempts (trace w) ++ [rc]
                   /\ forall kd, kd = Backoff \/ kd = RetryAfter ->
                        sleeps kd (trace (attempt env self u (destination self u filename)
                                            (log (EvAttempt u rc) (respectRateLimit w1))).2)
                        = sleeps kd (trace w))
    by (split; [rewrite Ha3, Ha1; reflexivity
               | intros kd Hkd; rewrite (Hs3 kd Hkd), Hs1; reflexivity]).
  all: destruct Hafter as (Ha & Hs).
  all: destruct (attempt env self u _ _) as [[| e | e] w3] eqn:Hatt; cbn [snd] in Ha, Hs;
    [split; [discriminate | apply Hone; assumption]
    | split; [discriminate | apply Hone; assumption] |].
  all: apply attempt_caught_inv in Hatt; destruct Hatt as (Hget & Hq3 & _).
  all: cbn [reqs log] in Hget, Hq3; rewrite Hq2, Hq1 in Hget, Hq3.
  all: assert (H429 : is429 e = false) by (eapply Hno; [| exact Hget]; lia).
  all: destruct (outerCatch_no429 e u rc mr rd H429) as [(res & -> & Hres) | (Hlt & ->)];
    [split; [exact Hres | apply Hone; assumption] |].
  - lia.
  - set (w4 := sleep Backoff (Some (nextDelay rd rc)) w3).
    destruct (IH (Some u) (Some (Js.or_else filename (Js.lastSegment u)))
                (S rc) mr rd w4) as (Hr & k & delays & Hk1 & Hk2 & Hd1 & Hd2 & Hd3 & Hra).
    + eapply no429From_mono; [| exact Hno]. subst w4. cbn [reqs sleep advance log]. lia.
    + lia.
    + split; [exact Hr |].
      exists (S k), (Js.timer_ms (Some (nextDelay rd rc)) :: delays).
      rewrite Hk1, Hd1, Hra. subst w4. cbn [trace sleep advance log].
      rewrite attempts_app, !sleeps_app, Ha, !Hs by auto. cbn [seq length].
      cbn. rewrite !app_nil_r, <- !app_assoc. cbn.
      repeat split; lia.
Qed.

End RetryBudget.

(** ** A write that fails *)

Section FailedWrite.

Context (env : Env) (self : VideoDownloader).

Lemma downloadVideo_write_error_step fuel u filename rc mr rd w msg partial :
  u <> "" ->
  existsSync (downloadsDir self) w = true ->
  existsSync (destination self u filename) w = false ->
  http_get env (reqs w) u None = GetOk ->
  write_stream env (reqs w) (destination self u filename) = WError msg partial ->
  exists w',
    downloadVideo env self fuel (Some u) filename rc mr rd w
    = (Throw (plainError msg), w')
    /\ attempts (trace w') = attempts (trace w) ++ [rc]
    /\ gets (trace w') = gets (trace w) ++ [(u, None, true)]
    /\ sleeps Backoff (trace w') = sleeps Backoff (trace w)
    /\ sleeps RetryAfter (trace w') = sleeps RetryAfter (trace w)
    /\ existsSync (destination self u filename) w' = partial
    /\ existsSync (downloadsDir self) w' = true.
Proof.
  intros Hu Hdir Hdest Hget Hwrite. rewrite downloadVideo_eq.
  assert (Ht : Js.truthy (Some u) = Some u) by (destruct u; [congruence | reflexivity]).
  rewrite Ht, (ensureDownloadsDir_exists env self w Hdir), Hdest.
  destruct (respectRateLimit_frame w) as (Hf2 & Hq2).
  assert (Hproj : forall A (f : Z * Event -> option A),
             (forall t k ms, k = DailyLimit \/ k = Spacing -> f (t, EvSleep k ms) = None) ->
             omap f (trace (respectRateLimit w)) = omap f (trace w)).
  { intros A f Hf. eapply omap_adds; [| apply respectRateLimit_adds].
    intros t e (ms & [-> | ->]); apply Hf; auto. }
  unfold attempt, axiosGet. cbn [reqs log]. rewrite Hq2, Hget.
  unfold pipeToFile. rewrite Hwrite.
  eexists. split; [reflexivity |].
  assert (Htr : forall v, trace (if partial then add_file (destination self u filename) v
                                 else v) = trace v) by (intros v; destruct partial; reflexivity).
  assert (Hfl : forall v, existsSync (downloadsDir self) v = true ->
                          existsSync (destination self u filename) v = false ->
                          let v' := if partial then add_file (destination self u filename) v
                                    else v in
                          existsSync (destination self u filename) v' = partial
                          /\ existsSync (downloadsDir self) v' = true).
  { intros v Hd He. unfold existsSync in *. destruct partial; cbn [files add_file].
    - split; apply bool_decide_eq_true.
      + apply elem_of_union. left. apply elem_of_singleton. reflexivity.
      + apply elem_of_union. right. apply bool_decide_eq_true in Hd. exact Hd.
    - split; assumption. }
  cbn [trace advance log]. rewrite Htr. cbn [trace advance next_req log].
  unfold attempts, gets, sleeps. rewrite !omap_app, !Hproj; cbn.
  - rewrite ?app_nil_r, <- ?app_assoc. cbn.
    split; [reflexivity |]. split; [reflexivity |].
    split; [reflexivity |]. split; [reflexivity |].
    apply Hfl; unfold existsSync in *; cbn [files advance next_req log];
      rewrite Hf2; assumption.
  - intros ? ? ? [-> | ->]; reflexivity.
  - intros ? ? ? [-> | ->]; reflexivity.
  - intros ? ? ? [-> | ->]; reflexivity.
  - intros ? ? ? [-> | ->]; reflexivity.
Qed.

(** X7. A failed write is not retried.  When the request without
    credentials succeeds and writing the body to the destination then
    fails, [downloadVideo] rejects with the writer's error at once: one
    attempt, one request, no backoff sleep and no second try, however
    many retries are left - the promise built on the writer is returned
    from inside the [try], where no [catch] of the function sees its
    rejection.  In the extensive-calls loop - with or without a refresh
    callback: [u] is the URL the loop downloads for the call, refreshed
    or embedded, and [w] the world once it is resolved - the call is
    recorded with that error message, and the loop goes on with the next
    call. *)
Theorem write_error_is_thrown_without_retry :
  forall (fuel retryCount maxRetries : nat) (retryDelay : Z)
         (u : string) (filename : option string) (w : World)
         (msg : string) (partial : bool),
    u <> "" ->
    existsSync (downloadsDir self) w = true ->
    existsSync (destination self u filename) w = false ->
    http_get env (reqs w) u None = GetOk ->
    write_stream env (reqs w) (destination self u filename) = WError msg partial ->
    exists w',
      downloadVideo env self fuel (Some u) filename retryCount maxRetries retryDelay w
      = (Throw (plainError msg), w')
      /\ attempts (trace w') = attempts (trace w) ++ [retryCount]
      /\ gets (trace w') = gets (trace w) ++ [(u, None, true)]
      /\ sleeps Backoff (trace w') = sleeps Backoff (trace w)
      /\ sleeps RetryAfter (trace w') = sleeps RetryAfter (trace w)
      /\ (forall (c : Call) (acc : Acc) (embedded : string) (w0 : World)
                 (rest : list Call),
            videoUrlOf c = Some embedded ->
            freshVideoUrl env self c embedded w0 = (Ret u, w) ->
            filename = Some (filenameFor env c embedded) ->
            let recorded :=
              pushFailure {| f_callId := Some (Js.or_else (callIdOf c) "unknown");
                             f_title := callTitleOf c;
                             f_detail := Error msg |} acc in
            exists w'',
              processCall env self fuel c acc w0 = (Ret recorded, w'')
              /\ attempts (trace w'') = attempts (trace w) ++ [O]
              /\ forEachCall env self fuel (c :: rest) acc w0
                 = forEachCall env self fuel rest recorded w'').
Proof.
  intros fuel rc mr rd u filename w msg partial Hu Hdir Hdest Hget Hwrite.
  destruct (downloadVideo_write_error_step fuel u filename rc mr rd w msg partial
              Hu Hdir Hdest Hget Hwrite) as (w' & Hdv & Ha & Hg & Hb & Hr & _).
  exists w'. repeat (split; [assumption |]).
  intros c acc embedded w0 rest Hv Hfresh -> recorded.
  destruct (downloadVideo_write_error_step fuel u (Some (filenameFor env c embedded))
              O defaultMaxRetries defaultRetryDelay w msg partial
              Hu Hdir Hdest Hget Hwrite) as (w'' & Hdv' & Ha' & _).
  exists w''.
  assert (Hp : processCall env self fuel c acc w0 = (Ret recorded, w'')).
  { unfold processCall, try_catch. rewrite Hv.
    unfold bind at 1. rewrite Hfresh. unfold bind, ret. rewrite Hdv'. reflexivity. }
  split; [exact Hp |]. split; [exact Ha' |].
  cbn [forEachCall]. unfold bind. rewrite Hp. reflexivity.
Qed.

(** X8. A file left behind by a failed write counts as downloaded.  When
    the failing writer leaves a file at the destination, nothing removes
    it: every later call of [downloadVideo] for that destination - with
    any answers from the network and any retry parameters - returns the
    path at once, as a success, without a request. *)
Theorem partial_file_is_taken_for_a_download :
  forall (env2 : Env) (fuel fuel2 retryCount maxRetries rc2 mr2 : nat)
         (retryDelay rd2 : Z) (u : string) (filename : option string) (w : World)
         (msg : string),
    u <> "" ->
    existsSync (downloadsDir self) w = true ->
    existsSync (destination self u filename) w = false ->
    http_get env (reqs w) u None = GetOk ->
    write_stream env (reqs w) (destination self u filename) = WError msg true ->
    let first := downloadVideo env self fuel (Some u) filename
                   retryCount maxRetries retryDelay w in
    first.1 = Throw (plainError msg)
    /\ downloadVideo env2 self fuel2 (Some u) filename rc2 mr2 rd2 first.2
       = (Ret (Some (destination self u filename)), first.2).
Proof.
  intros env2 fuel fuel2 rc mr rc2 mr2 rd rd2 u filename w msg Hu Hdir Hdest Hget Hwrite.
  destruct (downloadVideo_write_error_step fuel u filename rc mr rd w msg true
              Hu Hdir Hdest Hget Hwrite) as (w' & Hdv & _ & _ & _ & _ & Hfile & Hdir').
  cbn zeta. rewrite Hdv. cbn [fst snd]. split; [reflexivity |].
  apply downloadVideo_skips_existing; assumption.
Qed.

End FailedWrite.

(** ** File names *)

Lemma sanitized_char_is_safe (c : ascii) :
  isSafeChar (Js.lower_char
                (if Js.is_upper c || Js.is_lower c || Js.is_digit c then c else "_"%char))
  = true.
Proof. destruct c as [[] [] [] [] [] [] [] []]; vm_compute; reflexivity. Qed.

Lemma safe_char_is_kept (c : ascii) :
  isSafeChar c = true ->
  Js.lower_char (if Js.is_upper c || Js.is_lower c || Js.is_digit c then c else "_"%char)
  = c.
Proof. destruct c as [[] [] [] [] [] [] [] []]; vm_compute; congruence. Qed.

Lemma safe_char_no_slash (c : ascii) : isSafeChar c = true -> c <> "/"%char.
Proof. intros H ->. vm_compute in H. discriminate. Qed.

(** X9. The title part of a file name is safe.  What both methods put
    into the file name for the title,
    [title.replace(/[^a-z0-9]/gi, '_').toLowerCase()], consists of
    lower-case ASCII letters, digits and underscores only (so it holds no
    path separator and no dot); a title that already is of that form is
    kept as it is, and sanitising twice changes nothing more. *)
Theorem sanitized_title_is_safe :
  forall (t : string),
    let s := Js.toLowerCase (Js.replaceNonAlnum t) in
    allSafe s = true
    /\ Js.includes "/" s = false
    /\ (allSafe t = true -> s = t)
    /\ Js.toLowerCase (Js.replaceNonAlnum s) = s.
Proof.
  intros t. cbn zeta.
  assert (Hsafe : forall t, allSafe (Js.toLowerCase (Js.replaceNonAlnum t)) = true).
  { induction t0 as [| c r IH]; [reflexivity |]. cbn [Js.replaceNonAlnum Js.toLowerCase allSafe].
    rewrite sanitized_char_is_safe, IH. reflexivity. }
  assert (Hkeep : forall t, allSafe t = true -> Js.toLowerCase (Js.replaceNonAlnum t) = t).
  { induction t0 as [| c r IH]; [reflexivity |]. cbn [Js.replaceNonAlnum Js.toLowerCase allSafe].
    intros H. apply andb_true_iff in H. destruct H as [Hc Hr].
    rewrite (safe_char_is_kept c Hc), (IH Hr). reflexivity. }
  assert (Hslash : forall s, allSafe s = true -> Js.includes "/" s = false).
  { induction s as [| c r IH]; [reflexivity |]. cbn [allSafe Js.includes String.prefix].
    intros H. apply andb_true_iff in H. destruct H as [Hc Hr].
    pose proof (safe_char_no_slash c Hc) as Hne.
    destruct (ascii_dec "/"%char c) as [Heq | _]; [congruence |].
    rewrite (IH Hr). reflexivity. }
  split; [apply Hsafe |].
  split; [apply Hslash, Hsafe |]. split; [apply Hkeep |]. apply Hkeep, Hsafe.
Qed.

(** ** The callback of [export.js] *)

Section RefreshCallback.

Context (env : Env) (self : VideoDownloader).

Lemma bodyUrl_truthy r u : bodyUrl r = Some u -> Js.truthy (Some u) = Some u.
Proof. destruct r as [b |]; [| discriminate]. apply truthy_Some_idem. Qed.

Lemma getSignedMediaUrl_url_truthy cid w u w1 :
  getSignedMediaUrl env cid w = (Ret (Some u), w1) -> Js.truthy (Some u) = Some u.
Proof.
  unfold getSignedMediaUrl.
  destruct (apiRequest env PutOctetStream cid w) as [[b | e] v1].
  - destruct (Js.truthy b) as [x |] eqn:Hb; intros [= <- <-].
    eapply truthy_Some_idem; eauto.
  - destruct (apiRequest env PutTextPlain cid v1) as [r2 v2].
    destruct (bodyUrl r2) as [x |] eqn:Hb.
    + intros [= <- <-]. eapply bodyUrl_truthy; eauto.
    + destruct (apiRequest env Delete cid v2) as [r3 v3].
      destruct (bodyUrl r3) as [x |] eqn:Hb3; [| discriminate].
      intros [= <- <-]. eapply bodyUrl_truthy; eauto.
Qed.

Lemma getSignedMediaUrl_requests cid w :
  exists vs, apiCalls (trace (getSignedMediaUrl env cid w).2) = apiCalls (trace w) ++ vs
             /\ (1 <= length vs <= 3)%nat.
Proof.
  unfold getSignedMediaUrl.
  pose proof (apiRequest_apiCalls env PutOctetStream cid w) as H1.
  destruct (apiRequest env PutOctetStream cid w) as [[b | e] v1]; cbn [snd] in H1.
  - exists [PutOctetStream]. destruct (Js.truthy b); cbn [snd]; split; try exact H1; cbn; lia.
  - pose proof (apiRequest_apiCalls env PutTextPlain cid v1) as H2.
    destruct (apiRequest env PutTextPlain cid v1) as [r2 v2]; cbn [snd] in H2.
    rewrite H1, <- app_assoc in H2.
    destruct (bodyUrl r2).
    + eexists. split; [exact H2 | cbn; lia].
    + pose proof (apiRequest_apiCalls env Delete cid v2) as H3.
      destruct (apiRequest env Delete cid v2) as [r3 v3]; cbn [snd] in H3.
      rewrite H2, <- app_assoc in H3.
      eexists. destruct (bodyUrl r3); cbn [snd]; (split; [exact H3 | cbn; lia]).
Qed.

(** What the callback returns, in terms of [getSignedMediaUrl]. *)
Lemma exportRefreshCallback_eq cid w :
  exportRefreshCallback env cid w
  = (Ret (match (getSignedMediaUrl env cid w).1 with
          | Ret (Some u) => Some u
          | _ => None
          end), (getSignedMediaUrl env cid w).2).
Proof.
  unfold exportRefreshCallback, try_catch, bind, ret.
  pose proof (getSignedMediaUrl_returns_or_throws env cid w) as Hnf.
  destruct (getSignedMediaUrl env cid w) as [[[u |] | e | ] w1] eqn:Hg;
    cbn [fst snd] in *; try reflexivity; [| congruence].
  rewrite (getSignedMediaUrl_url_truthy _ _ _ _ Hg). reflexivity.
Qed.

(** X10. The refresh callback of [export.js] never fails a call.  It
    always returns: the signed URL when [getSignedMediaUrl] finds one, and
    [null] when that function returns [null] or raises.  So in the
    extensive-calls method, with this callback installed, the download is
    made from the signed URL when there is one and from the embedded URL
    in every other case; resolution is quiet and costs at most three
    requests. *)
Theorem export_callback_never_throws :
  forall (cid : string) (w : World) (c : Call) (embedded : string),
    let g := getSignedMediaUrl env cid w in
    let answer := match g.1 with Ret (Some u) => Some u | _ => None end in
    exportRefreshCallback env cid w = (Ret answer, g.2)
    /\ quiet w g.2
    /\ (exists vs, apiCalls (trace g.2) = apiCalls (trace w) ++ vs
                   /\ (1 <= length vs <= 3)%nat)
    /\ (refreshUrlCallback self = Some SignedUrlHook ->
        Js.truthy (callIdOf c) = Some cid ->
        freshVideoUrl env self c embedded w
        = (Ret (default embedded answer), g.2)).
Proof.
  intros cid w c embedded g answer.
  assert (Hanswer : Js.truthy answer = answer).
  { subst answer g. destruct (getSignedMediaUrl env cid w) as [[[u |] | e | ] w1] eqn:Hg;
      cbn [fst]; try reflexivity.
    eapply getSignedMediaUrl_url_truthy; eauto. }
  assert (Hcb : exportRefreshCallback env cid w = (Ret answer, g.2))
    by apply exportRefreshCallback_eq.
  split; [exact Hcb |]. split; [apply getSignedMediaUrl_quiet |].
  split; [apply getSignedMediaUrl_requests |].
  intros Hhook Hid. unfold freshVideoUrl, try_catch, bind, ret. rewrite Hid, Hhook.
  cbn [runHook]. rewrite Hcb. f_equal. f_equal.
  unfold Js.or_else. rewrite Hanswer. destruct answer; reflexivity.
Qed.

End RefreshCallback.

(** ** The standard method *)

Section StandardMethodProperties.

Context (env : Env) (self : VideoDownloader).

Lemma askHook_spec c w :
  quiet w (askHook env self c w).2 /\ (askHook env self c w).1 <> OutOfFuel.
Proof.
  unfold askHook.
  destruct (refreshUrlCallback self) as [hook |];
    [| split; [apply quiet_refl | discriminate]].
  destruct (Js.truthy (sc_id c)) as [cid |];
    [| split; [apply quiet_refl | discriminate]].
  split; [apply runHook_quiet | apply runHook_returns_or_throws].
Qed.

(** Resolution always returns, quietly: a URL that is not empty, or the
    failure entry to push. *)
Lemma resolveSignedUrl_spec c w :
  exists r w1,
    resolveSignedUrl env self c w = (Ret r, w1)
    /\ quiet w w1
    /\ match r with
       | Resolved u => u <> ""
       | Unresolved f =>
           f = stdFailure c (Reason "No signed media URL available")
           \/ exists e, f = resolutionError c e
       end.
Proof.
  unfold resolveSignedUrl, try_catch, bind, ret.
  destruct (askHook_spec c w) as (Hq1 & Hnf1).
  destruct (askHook env self c w) as [[fromHook | e | ] w1]; cbn [fst snd] in *;
    [| eexists _, _; split; [reflexivity |]; split; [exact Hq1 | right; eauto]
     | congruence].
  destruct (Js.truthy fromHook) as [u |] eqn:Hu.
  - rewrite (truthy_Some_idem _ _ Hu). eexists _, _. split; [reflexivity |].
    split; [exact Hq1 |]. apply truthy_Some_inv in Hu. tauto.
  - pose proof (getSignedMediaUrl_quiet env (Js.interpolate (sc_id c)) w1) as Hq2.
    pose proof (getSignedMediaUrl_returns_or_throws env (Js.interpolate (sc_id c)) w1) as Hnf2.
    destruct (getSignedMediaUrl env (Js.interpolate (sc_id c)) w1) as [[su | e | ] w2] eqn:Hg;
      cbn [fst snd] in *;
      [| eexists _, _; split; [reflexivity |];
         split; [eapply quiet_trans; eauto | right; eauto]
       | congruence].
    destruct (Js.truthy su) as [u |] eqn:Hsu; eexists _, _; (split; [reflexivity |]);
      (split; [eapply quiet_trans; eauto |]).
    + apply truthy_Some_inv in Hsu. tauto.
    + left. reflexivity.
Qed.

Lemma processStdCall_never_throws fuel c acc w e :
  (processStdCall env self fuel c acc w).1 <> Throw e.
Proof.
  unfold processStdCall, try_catch. unfold bind at 1.
  destruct (resolveSignedUrl env self c w) as [[[u | f] | e1 | ] w1];
    try discriminate.
  destruct (sc_title c) as [t |]; [| discriminate].
  unfold bind, ret.
  destruct (downloadVideo env self fuel (Some u) _ _ _ _ w1) as [[p | e2 | ] w2];
    [destruct (Js.truthy p) | |]; discriminate.
Qed.

(** When the loop body returns it has pushed exactly one entry, for this
    call. *)
Lemma processStdCall_outcome fuel c acc w acc' w' :
  processStdCall env self fuel c acc w = (Ret acc', w') ->
  exists o, stdOutcomeOf c o
            /\ acc' = match o with
                      | inl s => stdPushSuccess s acc
                      | inr f => stdPushFailure f acc
                      end
            /\ match o with
               | inl s => filePath s ∈ files w'
               | inr _ => True
               end.
Proof.
  unfold processStdCall, try_catch. unfold bind at 1.
  destruct (resolveSignedUrl_spec c w) as (r & w1 & -> & Hq & Hr).
  destruct r as [u | f].
  - destruct (sc_title c) as [t |] eqn:Ht.
    + unfold bind, ret.
      destruct (downloadVideo env self fuel (Some u) _ _ _ _ w1) as [[p | e | ] w2] eqn:Hdv.
      * destruct p as [p |].
        -- destruct (downloadVideo_success env self _ _ _ _ _ _ _ _ _ Hdv)
             as (u' & _ & Hp & Hin & _).
           assert (Hpne : Js.truthy (Some p) = Some p).
           { subst p. unfold destination, path_join.
             destruct (downloadsDir self); reflexivity. }
           rewrite Hpne. intros [= <- <-].
           exists (inl {| callId := sc_id c; title := t; filePath := p |}).
           cbn. rewrite Ht. auto.
        -- cbn [Js.truthy]. intros [= <- <-].
           exists (inr (stdFailure c (Reason "Download returned null"))). cbn. auto.
      * intros [= <- <-]. exists (inr (stdFailure c (Error (message e)))). cbn. auto.
      * discriminate.
    + unfold throw. intros [= <- <-].
      exists (inr (stdFailure c (Error noTitleMessage))). cbn. auto.
  - unfold ret. intros [= <- <-]. exists (inr f).
    assert (Hf : sf_callId f = sc_id c /\ sf_title f = sc_title c)
      by (destruct Hr as [-> | [e ->]]; split; reflexivity).
    cbn. tauto.
Qed.

Lemma processStdCall_settles B fuel c acc w :
  no429From env B ->
  (4 * B + 3 <= fuel)%nat ->
  exists acc' w', processStdCall env self fuel c acc w = (Ret acc', w').
Proof.
  intros Hno Hfuel.
  pose proof (processStdCall_never_throws fuel c acc w) as Hnt.
  assert (Hnf : (processStdCall env self fuel c acc w).1 <> OutOfFuel).
  { unfold processStdCall, try_catch. unfold bind at 1.
    destruct (resolveSignedUrl_spec c w) as (r & w1 & -> & _ & _).
    destruct r as [u | f]; [| discriminate].
    destruct (sc_title c) as [t |]; [| discriminate].
    unfold bind, ret.
    pose proof (downloadVideo_settles env self B Hno fuel (Some u)
                  (Some (stdFilename env c t u)) O defaultMaxRetries
                  defaultRetryDelay w1) as Hs.
    destruct (downloadVideo env self fuel (Some u) _ _ _ _ w1) as [[p | e | ] w2];
      [destruct (Js.truthy p); discriminate | discriminate |].
    exfalso. apply Hs; [unfold defaultMaxRetries; lia | reflexivity]. }
  destruct (processStdCall env self fuel c acc w) as [[acc' | e | ] w']; cbn [fst] in *.
  - eauto.
  - exfalso. eapply Hnt. reflexivity.
  - congruence.
Qed.

Lemma forEachStdCall_outcomes B fuel calls :
  no429From env B ->
  (4 * B + 3 <= fuel)%nat ->
  forall acc w,
    exists acc' w' outs,
      forEachStdCall env self fuel calls acc w = (Ret acc', w')
      /\ Forall2 stdOutcomeOf calls outs
      /\ std_downloadedFiles acc' = std_downloadedFiles acc ++ successesOf outs
      /\ std_failedDownloads acc' = std_failedDownloads acc ++ failuresOf outs
      /\ Forall (fun s => filePath s ∈ files w') (successesOf outs).
Proof.
  intros Hno Hfuel. induction calls as [| c rest IH]; intros acc w; cbn [forEachStdCall].
  - exists acc, w, []. cbn. rewrite !app_nil_r. repeat split; constructor.
  - unfold bind.
    destruct (processStdCall_settles B fuel c acc w Hno Hfuel) as (acc1 & w1 & Hp).
    rewrite Hp. destruct (processStdCall_outcome _ _ _ _ _ _ Hp) as (o & Ho & -> & Hfile).
    set (acc1 := match o with
                 | inl s => stdPushSuccess s acc
                 | inr f => stdPushFailure f acc
                 end) in *.
    destruct (IH acc1 w1) as (acc' & w' & outs & Hl & Hall & Hs & Hf & Hfiles).
    pose proof (forEachStdCall_closed env self _ (filesGrow_std_closed env self)
                  fuel rest acc1 w1) as Hgrow.
    rewrite Hl in Hgrow. cbn [snd] in Hgrow. unfold filesGrow in Hgrow.
    exists acc', w', (o :: outs). split; [exact Hl |].
    split; [constructor; assumption |].
    subst acc1.
    destruct o as [s | f]; cbn [stdPushSuccess stdPushFailure std_downloadedFiles
                                 std_failedDownloads] in Hs, Hf;
      rewrite Hs, Hf; unfold successesOf, failuresOf; cbn; rewrite <- ?app_assoc;
      repeat split; try assumption.
    constructor; [exact (Hgrow _ Hfile) | exact Hfiles].
Qed.

(** X11. The standard method gives every call exactly one outcome.
    Provided the 429 answers stop at some request, the loop of
    [downloadVideosForCalls] runs to its end without raising, and its two
    arrays are filled in input order with one entry per call - a success
    whose file exists, or a failure - each carrying the id and the title
    of its call.  The function returns the successes, given the exports
    directory when there are failures to write; without a [GongExport]
    instance, or without an array of calls, it returns the empty list and
    does nothing. *)
Theorem standard_method_yields_one_outcome_per_call :
  forall (calls : list StdCall) (gongExport : GongExport) (w : World) (B fuel : nat),
    no429From env B ->
    (4 * B + 3 <= fuel)%nat ->
    (exists acc w' outs,
        forEachStdCall env self fuel calls emptyStdAcc w = (Ret acc, w')
        /\ Forall2 stdOutcomeOf calls outs
        /\ length outs = length calls
        /\ std_downloadedFiles acc = successesOf outs
        /\ std_failedDownloads acc = failuresOf outs
        /\ Forall (fun s => existsSync (filePath s) w' = true) (std_downloadedFiles acc)
        /\ (std_failedDownloads acc = [] \/ existsSync exportsDir w = true ->
            exists w'',
              downloadVideosForCalls env self fuel (Some calls) (Some gongExport) w
              = (Ret (std_downloadedFiles acc), w'')))
    /\ downloadVideosForCalls env self fuel (Some calls) None w = (Ret [], w)
    /\ downloadVideosForCalls env self fuel None (Some gongExport) w = (Ret [], w).
Proof.
  intros calls gx w B fuel Hno Hfuel. split; [| split; reflexivity].
  destruct (forEachStdCall_outcomes B fuel calls Hno Hfuel emptyStdAcc w)
    as (acc & w' & outs & Hl & Hall & Hs & Hf & Hfiles).
  cbn [emptyStdAcc std_downloadedFiles std_failedDownloads app] in Hs, Hf.
  exists acc, w', outs. split; [exact Hl |]. split; [exact Hall |].
  split; [symmetry; eapply Forall2_length; exact Hall |].
  split; [exact Hs |]. split; [exact Hf |]. split.
  - rewrite Hs. eapply Forall_impl; [exact Hfiles |]. intros s Hin.
    apply existsSync_true. exact Hin.
  - intros Hok. unfold downloadVideosForCalls, bind. rewrite Hl.
    unfold saveStdFailedDownloads.
    destruct (std_failedDownloads acc) as [| f rest]; [eexists; reflexivity |].
    destruct Hok as [Hnil | Hexp]; [discriminate |].
    pose proof (forEachStdCall_closed env self _ (filesGrow_std_closed env self)
                  fuel calls emptyStdAcc w) as Hgrow.
    rewrite Hl in Hgrow. cbn [snd] in Hgrow. unfold filesGrow in Hgrow.
    assert (Hexp' : existsSync exportsDir w' = true).
    { apply existsSync_true. apply existsSync_true in Hexp. exact (Hgrow _ Hexp). }
    rewrite Hexp'. eexists; reflexivity.
Qed.

(** X12. A call whose URL cannot be resolved costs no download.  In the
    standard method, when neither the callback nor [getSignedMediaUrl]
    yields a URL, or when either of them raises, the call is recorded -
    with the reason "No signed media URL available", or with the error
    "Failed to get signed URL: ..." - and nothing else happens for it: no
    download attempt, no GET, no run of the rate limiter, no file or
    directory created. *)
Theorem unresolved_call_is_recorded_without_download :
  forall (fuel : nat) (c : StdCall) (acc : StdAcc) (w w1 : World) (f : StdFailure),
    resolveSignedUrl env self c w = (Ret (Unresolved f), w1) ->
    processStdCall env self fuel c acc w = (Ret (stdPushFailure f acc), w1)
    /\ (sf_detail f = Reason "No signed media URL available"
        \/ exists e, sf_detail f
                     = Error ("Failed to get signed URL: "
                                +:+ Js.or_else (Some (message e)) "Unknown error"))
    /\ sf_callId f = sc_id c /\ sf_title f = sc_title c
    /\ files w1 = files w
    /\ rateLimit w1 = rateLimit w
    /\ netEvents (trace w1) = netEvents (trace w)
    /\ mkdirs (trace w1) = mkdirs (trace w)
    /\ (forall k, sleeps k (trace w1) = sleeps k (trace w)).
Proof.
  intros fuel c acc w w1 f Hres.
  destruct (resolveSignedUrl_spec c w) as (r & v & Hr & Hq & Hshape).
  rewrite Hres in Hr. injection Hr as <- <-.
  split.
  { unfold processStdCall, try_catch. unfold bind at 1. rewrite Hres. reflexivity. }
  split; [destruct Hshape as [-> | [e ->]]; [left; reflexivity | right; eauto] |].
  split; [destruct Hshape as [-> | [e ->]]; reflexivity |].
  split; [destruct Hshape as [-> | [e ->]]; reflexivity |].
  split; [apply (q_files _ _ Hq) |]. split; [apply (q_rateLimit _ _ Hq) |].
  split; [unfold netEvents; apply (quiet_proj _ _ _ Hq); reflexivity |].
  split; [unfold mkdirs; apply (quiet_proj _ _ _ Hq); reflexivity |].
  intros k. unfold sleeps. apply (quiet_proj _ _ _ Hq); reflexivity.
Qed.

End StandardMethodProperties.

Section StandardMethodResolution.

Context (env : Env) (self : VideoDownloader).

Lemma interpolate_truthy s v : Js.truthy s = Some v -> Js.interpolate s = v.
Proof. intros H. apply truthy_Some_inv in H. destruct H as [-> _]. reflexivity. Qed.

(** X13. The order of resolution in the standard method, and the fate of
    an exception.  With a callback installed and a call that has an id:
    a URL answered by the callback is used and [getSignedMediaUrl] is not
    called; when the callback answers nothing, [getSignedMediaUrl] is
    called next, with the call's id, and decides; when the callback
    raises, the call fails with "Failed to get signed URL: ..." and
    [getSignedMediaUrl] is not tried - whereas the extensive-calls method
    swallows the same exception and downloads from the embedded URL. *)
Theorem standard_resolution_order :
  forall (c : StdCall) (w : World) (cid : string) (hook : RefreshHook),
    refreshUrlCallback self = Some hook ->
    Js.truthy (sc_id c) = Some cid ->
    let h := runHook env hook cid w in
    (forall u, h.1 = Ret (Some u) -> u <> "" ->
       resolveSignedUrl env self c w = (Ret (Resolved u), h.2))
    /\ (forall r, h.1 = Ret r -> Js.truthy r = None ->
          let g := getSignedMediaUrl env cid h.2 in
          resolveSignedUrl env self c w
          = (Ret (match g.1 with
                  | Ret (Some u) => Resolved u
                  | Throw e => Unresolved (resolutionError c e)
                  | _ => Unresolved (stdFailure c (Reason "No signed media URL available"))
                  end), g.2))
    /\ (forall e, h.1 = Throw e ->
          resolveSignedUrl env self c w = (Ret (Unresolved (resolutionError c e)), h.2)
          /\ forall (c' : Call) (embedded : string),
               Js.truthy (callIdOf c') = Some cid ->
               freshVideoUrl env self c' embedded w = (Ret embedded, h.2)).
Proof.
  intros c w cid hook Hhook Hid h. subst h.
  assert (Hask : askHook env self c w = runHook env hook cid w).
  { unfold askHook. rewrite Hhook, Hid. reflexivity. }
  split; [| split].
  - intros u Hu Hne. unfold resolveSignedUrl, try_catch, bind, ret. rewrite Hask.
    destruct (runHook env hook cid w) as [r w1]. cbn [fst snd] in *. subst r.
    assert (Ht : Js.truthy (Some u) = Some u) by (destruct u; [congruence | reflexivity]).
    rewrite !Ht. reflexivity.
  - intros r Hr Hnone g. subst g.
    unfold resolveSignedUrl, try_catch, bind, ret. rewrite Hask.
    destruct (runHook env hook cid w) as [r' w1]. cbn [fst snd] in *. subst r'.
    rewrite Hnone, (interpolate_truthy _ _ Hid).
    pose proof (getSignedMediaUrl_returns_or_throws env cid w1) as Hnf.
    destruct (getSignedMediaUrl env cid w1) as [[[u |] | e | ] w2] eqn:Hg;
      cbn [fst snd] in *; try reflexivity; [| congruence].
    rewrite (getSignedMediaUrl_url_truthy env _ _ _ _ Hg). reflexivity.
  - intros e He. split.
    + unfold resolveSignedUrl, try_catch, bind, ret. rewrite Hask.
      destruct (runHook env hook cid w) as [r w1]. cbn [fst snd] in *. subst r.
      reflexivity.
    + intros c' embedded Hid'. unfold freshVideoUrl, try_catch, bind, ret.
      rewrite Hid', Hhook.
      destruct (runHook env hook cid w) as [r w1]. cbn [fst snd] in *. subst r.
      reflexivity.
Qed.

(** X14. Without a title a call is never downloaded in the standard
    method.  Its signed URL is resolved first - the requests are made -
    and then building the file name raises; the call is recorded with the
    error, and no download attempt, no GET and no run of the rate limiter
    happens for it. *)
Theorem untitled_call_is_never_downloaded :
  forall (fuel : nat) (c : StdCall) (acc : StdAcc) (w : World),
    sc_title c = None ->
    exists f w1,
      processStdCall env self fuel c acc w = (Ret (stdPushFailure f acc), w1)
      /\ (resolveSignedUrl env self c w).2 = w1
      /\ (forall u, (resolveSignedUrl env self c w).1 = Ret (Resolved u) ->
            f = stdFailure c (Error noTitleMessage))
      /\ sf_callId f = sc_id c /\ sf_title f = None
      /\ rateLimit w1 = rateLimit w
      /\ files w1 = files w
      /\ netEvents (trace w1) = netEvents (trace w).
Proof.
  intros fuel c acc w Ht.
  destruct (resolveSignedUrl_spec env self c w) as (r & w1 & Hres & Hq & Hshape).
  assert (Hframe : rateLimit w1 = rateLimit w /\ files w1 = files w
                   /\ netEvents (trace w1) = netEvents (trace w)).
  { split; [apply (q_rateLimit _ _ Hq) |]. split; [apply (q_files _ _ Hq) |].
    unfold netEvents. apply (quiet_proj _ _ _ Hq); reflexivity. }
  unfold processStdCall, try_catch. unfold bind at 1. rewrite Hres. cbn [fst snd].
  destruct r as [u | f].
  - rewrite Ht. unfold throw.
    exists (stdFailure c (Error noTitleMessage)), w1.
    split; [reflexivity |]. split; [reflexivity |]. split; [reflexivity |].
    split; [reflexivity |]. split; [exact Ht | exact Hframe].
  - exists f, w1. split; [reflexivity |]. split; [reflexivity |].
    split; [discriminate |].
    destruct Hshape as [-> | [e ->]]; (split; [reflexivity |]); (split; [exact Ht | exact Hframe]).
Qed.

(** X15. With the callback of [export.js], an unanswered call is asked
    for twice.  That callback is itself [getSignedMediaUrl]; when it
    finds no URL, the standard method calls [getSignedMediaUrl] again for
    the same call, from the world the first round left: between two and
    six requests go to the media endpoint for that one call. *)
Theorem export_callback_doubles_resolution :
  forall (c : StdCall) (w : World) (cid : string),
    refreshUrlCallback self = Some SignedUrlHook ->
    Js.truthy (sc_id c) = Some cid ->
    let g1 := getSignedMediaUrl env cid w in
    (forall u, g1.1 <> Ret (Some u)) ->
    let g2 := getSignedMediaUrl env cid g1.2 in
    (resolveSignedUrl env self c w).2 = g2.2
    /\ exists vs, apiCalls (trace g2.2) = apiCalls (trace w) ++ vs
                  /\ (2 <= length vs <= 6)%nat.
Proof.
  intros c w cid Hhook Hid g1 Hnone g2. subst g1 g2.
  assert (Hask : askHook env self c w
                 = (Ret None, (getSignedMediaUrl env cid w).2)).
  { unfold askHook. rewrite Hhook, Hid. cbn [runHook].
    rewrite exportRefreshCallback_eq.
    destruct (getSignedMediaUrl env cid w).1 as [[u |] | |]; try reflexivity.
    exfalso. eapply Hnone. reflexivity. }
  split.
  - unfold resolveSignedUrl, try_catch, bind, ret. rewrite Hask.
    cbn [Js.truthy]. rewrite (interpolate_truthy _ _ Hid).
    destruct (getSignedMediaUrl env cid (getSignedMediaUrl env cid w).2)
      as [[su | e | ] w2]; [destruct (Js.truthy su) | |]; reflexivity.
  - destruct (getSignedMediaUrl_requests env cid w) as (vs1 & H1 & L1).
    destruct (getSignedMediaUrl_requests env cid (getSignedMediaUrl env cid w).2)
      as (vs2 & H2 & L2).
    exists (vs1 ++ vs2). rewrite H2, H1, <- app_assoc. split; [reflexivity |].
    rewrite length_app. lia.
Qed.

(** X16. The standard method is rate-limited like the other one.  From a
    state in which the limiter has been used consistently, a run of
    [downloadVideosForCalls] keeps it so, and its download attempts start
    at least [1000 / callsPerSecond + 50] milliseconds apart. *)
Theorem standard_method_attempts_are_spaced :
  forall (w : World) (fuel : nat) (stdCalls : option (list StdCall))
         (gongExport : option GongExport),
    limiterInv w ->
    let w' := (downloadVideosForCalls env self fuel stdCalls gongExport w).2 in
    limiterInv w'
    /\ spaced (1000 / callsPerSecond (rateLimit w) + 50) (attempt_times (trace w')).
Proof.
  intros w fuel stdCalls gx Hinv w'. subst w'.
  destruct (downloadVideosForCalls_closed env self _ (keepsLimiterInv_std_closed env self)
              fuel stdCalls gx w) as (Hc & Hk).
  pose proof (Hk Hinv) as Hinv'. split; [exact Hinv' |].
  pose proof (li_spaced _ Hinv') as Hsp. unfold minTimeBetweenCalls in Hsp.
  rewrite Hc in Hsp. exact Hsp.
Qed.

End StandardMethodResolution.

(** * Pagination of the extensive-calls endpoint *)

Section PaginationProperties.

Context (post : nat -> RequestBody -> PostResult) (options : ExtensiveOptions).

Lemma callsOfPages_snoc ds d :
  callsOfPages (ds ++ [d]) = callsOfPages ds ++ callsOfPage d.
Proof.
  unfold callsOfPages. rewrite map_app, concat_app. cbn. rewrite app_nil_r. reflexivity.
Qed.

Lemma requestsFor_length c ds : length (requestsFor options c ds) = length ds.
Proof. revert c. induction ds as [| d ds IH]; intros c; cbn; [| rewrite IH]; reflexivity. Qed.

(** The cursor the loop holds after the pages [ds]. *)
Lemma Pages_length n c ds n' c' :
  Pages post options n c ds n' c' -> n' = (n + length ds)%nat.
Proof. induction 1; cbn; lia. Qed.

Lemma Pages_snoc n c ds n' c' d next :
  Pages post options n c ds n' c' ->
  post n' (requestBodyOf (withCursor options c')) = PostOk (Some d) ->
  Js.truthy (pd_cursor d) = Some next ->
  Pages post options n c (ds ++ [d]) (S n') (Some next).
Proof.
  induction 1 as [n c | n c d0 nx ds n' c' Hp Hc _ IH]; intros Hpost Hcur; cbn.
  - econstructor; [exact Hpost | exact Hcur | constructor].
  - econstructor; [exact Hp | exact Hc | apply IH; assumption].
Qed.

Lemma requestsFor_snoc n c ds n' c' d :
  Pages post options n c ds n' c' ->
  requestsFor options c (ds ++ [d])
  = requestsFor options c ds ++ [requestBodyOf (withCursor options c')].
Proof.
  induction 1 as [n c | n c d0 nx ds n' c' Hp Hc _ IH]; cbn; [reflexivity |].
  rewrite Hc, IH. reflexivity.
Qed.

(** One turn of the loop on a page that names a next cursor. *)
Lemma loop_step fuel c acc sent d next :
  post (length sent) (requestBodyOf (withCursor options c)) = PostOk (Some d) ->
  Js.truthy (pd_cursor d) = Some next ->
  getAllExtensiveCallData_loop post (S fuel) options c acc sent
  = getAllExtensiveCallData_loop post fuel options (Some next) (acc ++ callsOfPage d)
      (sent ++ [requestBodyOf (withCursor options c)]).
Proof.
  intros Hpost Hcur. cbn [getAllExtensiveCallData_loop]. unfold exportExtensiveCallData.
  rewrite Hpost, Hcur. unfold callsOfPage.
  destruct (pd_calls d); cbn [default]; rewrite ?app_nil_r; reflexivity.
Qed.

(** The loop walks a chain of pages. *)
Lemma loop_pages n c ds n' c' :
  Pages post options n c ds n' c' ->
  forall fuel acc sent,
    n = length sent ->
    getAllExtensiveCallData_loop post (length ds + fuel) options c acc sent
    = getAllExtensiveCallData_loop post fuel options c' (acc ++ callsOfPages ds)
        (sent ++ requestsFor options c ds).
Proof.
  induction 1 as [n c | n c d nx ds n' c' Hp Hc _ IH]; intros fuel acc sent Hn.
  - cbn. rewrite !app_nil_r. reflexivity.
  - subst n. cbn [length Nat.add]. rewrite (loop_step _ _ _ _ _ _ Hp Hc).
    rewrite IH by (rewrite length_app; cbn; lia).
    cbn [requestsFor]. rewrite Hc. unfold callsOfPages. cbn [map concat].
    rewrite <- !app_assoc. reflexivity.
Qed.

(** X17. Pagination collects every page.  When the endpoint serves a
    chain of pages - each answer naming the cursor of the next request -
    that ends in a page without a cursor, [getAllExtensiveCallData] returns
    the calls of all the pages, in order, after exactly one request per
    page.  The first request carries no cursor, whatever [options.cursor]
    was; a page whose [calls] is not an array contributes nothing and its
    cursor is still followed. *)
Theorem pagination_collects_every_page :
  forall (sent : list RequestBody) (ds : list PageData) (d : PageData)
         (n' fuel : nat) (c' : option string),
    Pages post options (length sent) None ds n' c' ->
    post n' (requestBodyOf (withCursor options c')) = PostOk (Some d) ->
    Js.truthy (pd_cursor d) = None ->
    (length ds < fuel)%nat ->
    getAllExtensiveCallData post fuel options sent
    = (Ret (callsOfPages (ds ++ [d])), sent ++ requestsFor options None (ds ++ [d]))
    /\ length (requestsFor options None (ds ++ [d])) = S (length ds)
    /\ (exists rest,
          requestsFor options None (ds ++ [d])
          = {| filter_fromDateTime := fromDateTime options;
               filter_toDateTime := toDateTime options;
               body_cursor := None |} :: rest).
Proof.
  intros sent ds d n' fuel c' Hpages Hpost Hlast Hfuel.
  split; [| split].
  - unfold getAllExtensiveCallData.
    replace fuel with (length ds + S (fuel - length ds - 1))%nat by lia.
    rewrite (loop_pages _ _ _ _ _ Hpages _ _ _ eq_refl).
    cbn [getAllExtensiveCallData_loop]. unfold exportExtensiveCallData.
    rewrite length_app, requestsFor_length, <- (Pages_length _ _ _ _ _ Hpages).
    rewrite Hpost, Hlast. rewrite callsOfPages_snoc, (requestsFor_snoc _ _ _ _ _ d Hpages).
    cbn [app]. unfold callsOfPage. rewrite <- app_assoc.
    destruct (pd_calls d); cbn [default]; rewrite ?app_nil_r; reflexivity.
  - rewrite requestsFor_length, length_app. cbn. lia.
  - destruct ds as [| d0 ds]; cbn; eexists; reflexivity.
Qed.

(** X18. One failing page loses them all.  When, after any number of
    pages, a request is rejected, [getAllExtensiveCallData] rejects with
    that error: the calls collected from the earlier pages are dropped,
    and the request is not repeated.  A page whose body is [null] does
    the same, with a [TypeError]. *)
Theorem failed_page_rejects_the_whole_retrieval :
  forall (sent : list RequestBody) (ds : list PageData) (n' fuel : nat)
         (c' : option string) (r : PostResult) (e : JsError),
    Pages post options (length sent) None ds n' c' ->
    post n' (requestBodyOf (withCursor options c')) = r ->
    (r = PostFail e \/ (r = PostOk None /\ e = plainError nullPageMessage)) ->
    (length ds < fuel)%nat ->
    getAllExtensiveCallData post fuel options sent
    = (Throw e, sent ++ requestsFor options None ds
                  ++ [requestBodyOf (withCursor options c')]).
Proof.
  intros sent ds n' fuel c' r e Hpages Hpost Hr Hfuel.
  unfold getAllExtensiveCallData.
  replace fuel with (length ds + S (fuel - length ds - 1))%nat by lia.
  rewrite (loop_pages _ _ _ _ _ Hpages _ _ _ eq_refl).
  cbn [getAllExtensiveCallData_loop]. unfold exportExtensiveCallData.
  rewrite length_app, requestsFor_length, <- (Pages_length _ _ _ _ _ Hpages).
  rewrite Hpost, <- app_assoc.
  destruct Hr as [-> | [-> ->]]; reflexivity.
Qed.

(** The loop, whatever it ends in, has walked a chain of pages. *)
Lemma loop_sound fuel :
  forall c acc sent,
    let r := getAllExtensiveCallData_loop post fuel options c acc sent in
    exists ds n' c',
      Pages post options (length sent) c ds n' c'
      /\ match r.1 with
         | Ret calls =>
             exists d, post n' (requestBodyOf (withCursor options c')) = PostOk (Some d)
                       /\ Js.truthy (pd_cursor d) = None
                       /\ calls = acc ++ callsOfPages (ds ++ [d])
                       /\ r.2 = sent ++ requestsFor options c (ds ++ [d])
         | Throw e =>
             (post n' (requestBodyOf (withCursor options c')) = PostFail e
              \/ (post n' (requestBodyOf (withCursor options c')) = PostOk None
                  /\ e = plainError nullPageMessage))
             /\ r.2 = sent ++ requestsFor options c ds
                        ++ [requestBodyOf (withCursor options c')]
         | OutOfFuel =>
             length ds = fuel /\ r.2 = sent ++ requestsFor options c ds
         end.
Proof.
  induction fuel as [| fuel IH]; intros c acc sent r; subst r.
  - exists [], (length sent), c. split; [constructor |]. cbn. rewrite app_nil_r. auto.
  - cbn [getAllExtensiveCallData_loop]. unfold exportExtensiveCallData.
    destruct (post (length sent) (requestBodyOf (withCursor options c)))
      as [[d |] | e] eqn:Hpost.
    + destruct (Js.truthy (pd_cursor d)) as [next |] eqn:Hcur.
      * specialize (IH (Some next)
                      (match pd_calls d with Some cs => acc ++ cs | None => acc end)
                      (sent ++ [requestBodyOf (withCursor options c)])).
        cbn zeta in IH. destruct IH as (ds & n' & c' & Hpages & Hres).
        rewrite length_app in Hpages. cbn [length] in Hpages.
        rewrite Nat.add_1_r in Hpages.
        exists (d :: ds), n', c'. split; [econstructor; eassumption |].
        assert (Hacc : match pd_calls d with Some cs => acc ++ cs | None => acc end
                       = acc ++ callsOfPage d).
        { unfold callsOfPage. destruct (pd_calls d); cbn; rewrite ?app_nil_r; reflexivity. }
        rewrite Hacc in *.
        destruct (getAllExtensiveCallData_loop post fuel options (Some next)
                    (acc ++ callsOfPage d)
                    (sent ++ [requestBodyOf (withCursor options c)]))
          as [[calls | e | ] sent'] eqn:Hl; cbn [fst snd] in *.
        -- destruct Hres as (dl & Hp & Hn & -> & ->). exists dl.
           split; [exact Hp |]. split; [exact Hn |].
           cbn [app requestsFor]. rewrite Hcur. unfold callsOfPages. cbn [map concat].
           rewrite <- !app_assoc. split; reflexivity.
        -- destruct Hres as (Hp & ->). split; [exact Hp |].
           cbn [requestsFor]. rewrite Hcur, <- !app_assoc. reflexivity.
        -- destruct Hres as (Hlen & ->). split; [cbn; lia |].
           cbn [requestsFor]. rewrite Hcur, <- !app_assoc. reflexivity.
      * exists [], (length sent), c. split; [constructor |]. cbn [fst snd].
        exists d. split; [exact Hpost |]. split; [exact Hcur |].
        cbn [app requestsFor]. unfold callsOfPages, callsOfPage. cbn [map concat].
        rewrite app_nil_r. destruct (pd_calls d); cbn; rewrite ?app_nil_r; auto.
    + exists [], (length sent), c. split; [constructor |]. cbn [fst snd requestsFor app].
      split; [right; split; [exact Hpost | reflexivity] | reflexivity].
    + exists [], (length sent), c. split; [constructor |]. cbn [fst snd requestsFor app].
      split; [left; exact Hpost | reflexivity].
Qed.

(** X19. Whatever is returned was served.  If [getAllExtensiveCallData]
    returns a list, the endpoint has served a chain of pages ending in
    one without a cursor, and the list is the calls of exactly these
    pages in order: nothing is added, dropped, reordered or deduplicated;
    if it rejects, then with the error of the request that followed a
    chain of pages (or the [TypeError] of a [null] body). *)
Theorem returned_calls_are_the_served_pages :
  forall (fuel : nat) (sent : list RequestBody),
    let r := getAllExtensiveCallData post fuel options sent in
    exists ds n' c',
      Pages post options (length sent) None ds n' c'
      /\ match r.1 with
         | Ret calls =>
             exists d, post n' (requestBodyOf (withCursor options c')) = PostOk (Some d)
                       /\ Js.truthy (pd_cursor d) = None
                       /\ calls = callsOfPages (ds ++ [d])
                       /\ r.2 = sent ++ requestsFor options None (ds ++ [d])
         | Throw e =>
             (post n' (requestBodyOf (withCursor options c')) = PostFail e
              \/ (post n' (requestBodyOf (withCursor options c')) = PostOk None
                  /\ e = plainError nullPageMessage))
             /\ r.2 = sent ++ requestsFor options None ds
                        ++ [requestBodyOf (withCursor options c')]
         | OutOfFuel =>
             length ds = fuel /\ r.2 = sent ++ requestsFor options None ds
         end.
Proof.
  intros fuel sent. exact (loop_sound fuel None [] sent).
Qed.

(** X20. Nothing stops a cursor that never ends.  If every answer names a
    next cursor - be it the same one again - the loop of
    [getAllExtensiveCallData] never ends: there is no page limit and no
    check for a repeated cursor, so no number of iterations suffices, and
    every iteration sends one more request. *)
Theorem endless_cursor_never_returns :
  forall (fuel : nat) (sent : list RequestBody),
    alwaysMore post ->
    let r := getAllExtensiveCallData post fuel options sent in
    r.1 = OutOfFuel /\ length r.2 = (length sent + fuel)%nat.
Proof.
  intros fuel sent Hmore. unfold getAllExtensiveCallData.
  generalize (@None string) as c. generalize (@nil Call) as acc. revert sent.
  induction fuel as [| fuel IH]; intros sent acc c.
  - cbn. split; [reflexivity | lia].
  - destruct (Hmore (length sent) (requestBodyOf (withCursor options c)))
      as (d & next & Hpost & Hcur).
    rewrite (loop_step _ _ _ _ _ _ Hpost Hcur).
    destruct (IH (sent ++ [requestBodyOf (withCursor options c)]) (acc ++ callsOfPage d)
                (Some next)) as (H1 & H2).
    split; [exact H1 |]. rewrite H2, length_app. cbn. lia.
Qed.

End PaginationProperties.

(** * Configuration *)

Example basicToken_of_key_and_secret :
  option_map gong_basicToken
    (match loadConfig ConfigScenario.complete with inr c => Some c | inl _ => None end)
  = Some (basicToken (Scenario.downloader None)).
Proof. vm_compute. reflexivity. Qed.

Example empty_secret_is_reported :
  loadConfig ConfigScenario.emptySecret
  = inl (plainError "Missing required environment variables: GONG_ACCESS_KEY_SECRET").
Proof. vm_compute. reflexivity. Qed.

Lemma is_truthy_isSet processEnv v :
  Js.is_truthy (processEnv !! v) = true <-> isSet processEnv v.
Proof.
  unfold Js.is_truthy, isSet.
  destruct (processEnv !! v) as [x |]; cbn.
  - destruct x; cbn.
    + split; [discriminate | intros (x & [= <-] & H); congruence].
    + split; [intros _; eexists; split; [reflexivity | discriminate] | reflexivity].
  - split; [discriminate | intros (x & H & _); discriminate].
Qed.

Lemma missingEnvVars_In processEnv v :
  In v (missingEnvVars processEnv)
  <-> In v requiredEnvVars /\ ~ isSet processEnv v.
Proof.
  unfold missingEnvVars. rewrite filter_In, <- is_truthy_isSet.
  destruct (Js.is_truthy (processEnv !! v)); cbn; intuition congruence.
Qed.

Lemma filter_sublist {A} (f : A -> bool) (l : list A) : sublist (List.filter f l) l.
Proof.
  induction l as [| x l IH]; cbn; [constructor |].
  destruct (f x); [apply sublist_skip | apply sublist_cons]; exact IH.
Qed.

(** X21. The configuration loads exactly when the three required
    variables are set and not empty.  Otherwise loading throws, and the
    message lists the variables that are unset or empty - those and no
    others, in the order URL, key, secret.  When it loads, the three
    values are the variables', the token is the base64 form of
    [key:secret], and the storage path is the optional variable, an empty
    value counting as none. *)
Theorem config_loads_iff_required_variables_are_set :
  forall (processEnv : gmap string string),
    match loadConfig processEnv with
    | inr config =>
        Forall (isSet processEnv) requiredEnvVars
        /\ (exists url key secret,
              gong_apiUrl config = Some url /\ url <> ""
              /\ gong_accessKey config = Some key /\ key <> ""
              /\ gong_accessKeySecret config = Some secret /\ secret <> ""
              /\ processEnv !! "GONG_API_URL" = Some url
              /\ processEnv !! "GONG_ACCESS_KEY" = Some key
              /\ processEnv !! "GONG_ACCESS_KEY_SECRET" = Some secret
              /\ gong_basicToken config = base64 (key +:+ ":" +:+ secret))
        /\ storage_videoPath config = Js.truthy (processEnv !! "GONG_VIDEO_STORAGE_PATH")
    | inl e =>
        ~ Forall (isSet processEnv) requiredEnvVars
        /\ message e = "Missing required environment variables: "
                         +:+ String.concat ", " (missingEnvVars processEnv)
        /\ (forall v, In v (missingEnvVars processEnv)
                      <-> In v requiredEnvVars /\ ~ isSet processEnv v)
        /\ sublist (missingEnvVars processEnv) requiredEnvVars
    end.
Proof.
  intros processEnv. unfold loadConfig.
  destruct (missingEnvVars processEnv) as [| m ms] eqn:Hmiss.
  - assert (Hall : Forall (isSet processEnv) requiredEnvVars).
    { apply List.Forall_forall. intros v Hv.
      destruct (Js.is_truthy (processEnv !! v)) eqn:Ht;
        [apply is_truthy_isSet; exact Ht |].
      exfalso. assert (Hin : In v (missingEnvVars processEnv)).
      { apply missingEnvVars_In. split; [exact Hv |].
        rewrite <- is_truthy_isSet, Ht. discriminate. }
      rewrite Hmiss in Hin. destruct Hin. }
    split; [exact Hall |]. split; [| reflexivity].
    unfold requiredEnvVars in Hall.
    inversion Hall as [| ? ? (url & Hu & Hun) Hall1]; subst.
    inversion Hall1 as [| ? ? (key & Hk & Hkn) Hall2]; subst.
    inversion Hall2 as [| ? ? (secret & Hs & Hsn) _]; subst.
    exists url, key, secret. cbn [gong_apiUrl gong_accessKey gong_accessKeySecret
                                   gong_basicToken].
    rewrite Hu, Hk, Hs. cbn [Js.interpolate]. repeat split; assumption.
  - rewrite <- Hmiss. split; [| split; [reflexivity | split]].
    + intros Hall. assert (Hin : In m (missingEnvVars processEnv))
        by (rewrite Hmiss; left; reflexivity).
      apply missingEnvVars_In in Hin. destruct Hin as [Hreq Hnot]. apply Hnot.
      rewrite List.Forall_forall in Hall. apply Hall. exact Hreq.
    + apply missingEnvVars_In.
    + apply filter_sublist.
Qed.

(** * Saving exports *)

Section SavedExports.

Context (env : Env) (self : VideoDownloader).

Lemma extensive_returns_with_exports_dir B fuel calls w :
  no429From env B ->
  (4 * B + 3 <= fuel)%nat ->
  existsSync exportsDir w = true ->
  exists r w', downloadVideosFromExtensiveCalls env self fuel (Some calls) w = (Ret r, w').
Proof.
  intros Hno Hfuel Hexp. unfold downloadVideosFromExtensiveCalls, bind.
  destruct (forEachCall_settles env self B fuel calls Hno Hfuel emptyAcc w)
    as (acc & w1 & Hloop).
  pose proof (forEachCall_closed env self _ (filesGrow_closed env self)
                fuel calls emptyAcc w) as Hgrow.
  rewrite Hloop in *. cbn [snd] in Hgrow. unfold filesGrow in Hgrow.
  assert (Hexp' : existsSync exportsDir w1 = true).
  { apply existsSync_true. apply existsSync_true in Hexp. exact (Hgrow _ Hexp). }
  unfold saveFailedDownloads. destruct (failedDownloads acc); [eauto |].
  rewrite Hexp'. eauto.
Qed.

Lemma standard_returns_with_exports_dir B fuel calls gongExport w :
  no429From env B ->
  (4 * B + 3 <= fuel)%nat ->
  existsSync exportsDir w = true ->
  exists r w', downloadVideosForCalls env self fuel calls gongExport w = (Ret r, w').
Proof.
  intros Hno Hfuel Hexp. unfold downloadVideosForCalls.
  destruct calls as [calls |]; [| unfold ret; eauto].
  destruct gongExport as [gx |]; [| unfold ret; eauto].
  unfold bind.
  destruct (forEachStdCall_outcomes env self B fuel calls Hno Hfuel emptyStdAcc w)
    as (acc & w1 & outs & Hloop & _).
  pose proof (forEachStdCall_closed env self _ (filesGrow_std_closed env self)
                fuel calls emptyStdAcc w) as Hgrow.
  rewrite Hloop in *. cbn [snd] in Hgrow. unfold filesGrow in Hgrow.
  assert (Hexp' : existsSync exportsDir w1 = true).
  { apply existsSync_true. apply existsSync_true in Hexp. exact (Hgrow _ Hexp). }
  unfold saveStdFailedDownloads. destruct (std_failedDownloads acc); [unfold ret; eauto |].
  rewrite Hexp'. unfold ret. eauto.
Qed.

(** X22. An export saved first makes the failure list writable.
    [saveToFile] creates the exports directory when it is missing, and
    that is the directory into which both download methods write their
    list of failures.  So once [saveToFile] has returned - as it has in
    [exportGongData] before any download starts - files that existed are
    still there, the saved file exists, and a run of either method
    returns its list of successes (provided the 429 answers stop);
    writing the failure list can no longer make it reject. *)
Theorem saved_export_makes_failure_list_writable :
  forall (filename : string) (w w1 : World) (p : string) (B fuel : nat)
         (calls : list Call) (stdCalls : option (list StdCall))
         (gongExport : option GongExport),
    saveToFile env filename w = (Ret p, w1) ->
    no429From env B ->
    (4 * B + 3 <= fuel)%nat ->
    p = path_join exportsDir filename
    /\ existsSync p w1 = true
    /\ existsSync exportsDir w1 = true
    /\ (forall q, existsSync q w = true -> existsSync q w1 = true)
    /\ (exists r w2,
          downloadVideosFromExtensiveCalls env self fuel (Some calls) w1 = (Ret r, w2))
    /\ (exists r w2,
          downloadVideosForCalls env self fuel stdCalls gongExport w1 = (Ret r, w2)).
Proof.
  intros filename w w1 p B fuel calls stdCalls gx Hsave Hno Hfuel.
  assert (H : p = path_join exportsDir filename
              /\ p ∈ files w1 /\ exportsDir ∈ files w1 /\ files w ⊆ files w1).
  { unfold saveToFile in Hsave.
    destruct (existsSync exportsDir w) eqn:Hexp.
    - injection Hsave as <- <-. apply existsSync_true in Hexp.
      cbn [add_file files]. split; [reflexivity |].
      split; [rewrite elem_of_union, elem_of_singleton; left; reflexivity |].
      split; [rewrite elem_of_union; right; exact Hexp |].
      intros q Hq. rewrite elem_of_union. right. exact Hq.
    - destruct (mkdir_error env exportsDir); [discriminate |].
      injection Hsave as <- <-. cbn [add_file files log].
      split; [reflexivity |].
      split; [rewrite elem_of_union, elem_of_singleton; left; reflexivity |].
      split.
      + rewrite !elem_of_union, !elem_of_singleton. right. left. reflexivity.
      + intros q Hq. rewrite !elem_of_union. right. right. exact Hq. }
  destruct H as (Hp & Hin & Hdir & Hgrow).
  split; [exact Hp |].
  split; [apply existsSync_true; exact Hin |].
  assert (Hexp : existsSync exportsDir w1 = true) by (apply existsSync_true; exact Hdir).
  split; [exact Hexp |].
  split; [intros q Hq; apply existsSync_true; apply existsSync_true in Hq; exact (Hgrow _ Hq) |].
  split.
  - eapply extensive_returns_with_exports_dir; eassumption.
  - eapply standard_returns_with_exports_dir; eassumption.
Qed.

End SavedExports.

(** * The export *)

Section SaveFacts.

Context (env : Env).

Lemma clientRequest_onlyRequests w : onlyRequests w (clientRequest env w).
Proof. repeat split. Qed.

Lemma onlyRequests_refl w : onlyRequests w w.
Proof. repeat split. Qed.

Lemma onlyRequests_trans a b c : onlyRequests a b -> onlyRequests b c -> onlyRequests a c.
Proof. intros (H1 & H2 & H3) (H4 & H5 & H6). repeat split; congruence. Qed.

Lemma iter_clientRequest_onlyRequests k w :
  onlyRequests w (Nat.iter k (clientRequest env) w).
Proof.
  induction k as [| k IH]; [apply onlyRequests_refl |]. cbn [Nat.iter].
  eapply onlyRequests_trans; [exact IH | apply clientRequest_onlyRequests].
Qed.

(** A save that can be made. *)
Lemma saveToFile_writable filename w :
  exportsWritable env w ->
  exists w1,
    saveToFile env filename w = (Ret (path_join exportsDir filename), w1)
    /\ files w ⊆ files w1
    /\ path_join exportsDir filename ∈ files w1
    /\ exportsDir ∈ files w1
    /\ rateLimit w1 = rateLimit w
    /\ adds isMkdir w w1.
Proof.
  intros Hcan. unfold saveToFile.
  destruct (existsSync exportsDir w) eqn:Hexp.
  - eexists. split; [reflexivity |]. apply existsSync_true in Hexp. cbn [add_file files].
    split; [intros q Hq; rewrite elem_of_union; right; exact Hq |].
    split; [rewrite elem_of_union, elem_of_singleton; left; reflexivity |].
    split; [rewrite elem_of_union; right; exact Hexp |].
    split; [reflexivity | apply adds_same; reflexivity].
  - destruct Hcan as [Hcan | Hcan]; [congruence |]. rewrite Hcan.
    eexists. split; [reflexivity |]. cbn [add_file files log rateLimit].
    split; [intros q Hq; rewrite elem_of_union, files_add_files; right; right; exact Hq |].
    split; [rewrite elem_of_union, elem_of_singleton; left; reflexivity |].
    split; [rewrite elem_of_union, files_add_files, elem_of_cons; right; left; left;
            reflexivity |].
    split; [apply files_add_files_same |].
    unfold adds. cbn [trace log add_file].
    destruct (files_add_files_same (exportsDir :: ancestors exportsDir) w)
      as (_ & Hnow & _ & Htr).
    rewrite Htr.
    eexists. split; [reflexivity |]. repeat constructor.
Qed.

(** A save that cannot. *)
Lemma saveToFile_blocked filename w msg :
  existsSync exportsDir w = false ->
  mkdir_error env exportsDir = Some msg ->
  saveToFile env filename w = (Throw (plainError msg), w).
Proof. intros Hexp Hmk. unfold saveToFile. rewrite Hexp, Hmk. reflexivity. Qed.

Lemma exportsWritable_mono w w' :
  files w ⊆ files w' -> exportsWritable env w -> exportsWritable env w'.
Proof.
  intros Hsub [H | H]; [left | right; exact H].
  apply existsSync_true. apply existsSync_true in H. exact (Hsub _ H).
Qed.

End SaveFacts.

Section ExportStages.

Context (env : Env) (api : ApiAnswers) (config : Config).

Lemma with_world_id s : with_world (world s) s = s.
Proof. destruct s; reflexivity. Qed.

Lemma calm_refl s : calm s s.
Proof. split; [reflexivity | intros q Hq; exact Hq | apply adds_refl | reflexivity]. Qed.

Lemma calm_trans a b c : calm a b -> calm b c -> calm a c.
Proof.
  intros [P1 F1 T1 K1] [P2 F2 T2 K2]. split.
  - congruence.
  - intros q Hq. exact (F2 _ (F1 _ Hq)).
  - eapply adds_trans; eassumption.
  - congruence.
Qed.

Lemma still_refl s : still s s.
Proof. split; [reflexivity | apply onlyRequests_refl | reflexivity]. Qed.

Lemma still_trans a b c : still a b -> still b c -> still a c.
Proof.
  intros [P1 W1 K1] [P2 W2 K2]. split; [congruence | | congruence].
  eapply onlyRequests_trans; eassumption.
Qed.

Lemma still_calm a b : still a b -> calm a b.
Proof.
  intros [P (Hf & Ht & _) K]. split; [exact P | | | exact K].
  - rewrite Hf. intros q Hq. exact Hq.
  - apply adds_same. exact Ht.
Qed.

(** A request of the client. *)
Lemma clientGet_spec {A} (answer : JsError + A) s :
  clientGet env answer s
  = (match answer with inr a => Ret a | inl e => Throw e end,
     with_world (clientRequest env (world s)) s).
Proof. unfold clientGet, inWorld. destruct answer; reflexivity. Qed.

Lemma clientRequest_still s : still s (with_world (clientRequest env (world s)) s).
Proof. split; [reflexivity | apply clientRequest_onlyRequests | reflexivity]. Qed.

(** A stamped save: it returns when the directory is writable, and throws
    without a trace when it is not. *)
Lemma saveStamped_cases prefix s :
  (exists p s', saveStamped env prefix s = (Ret p, s')
                /\ calm s s' /\ exportedData s' = exportedData s
                /\ p ∈ files (world s') /\ exportsDir ∈ files (world s')
                /\ rateLimit (world s') = rateLimit (world s)
                /\ exportsWritable env (world s))
  \/ (exists msg, saveStamped env prefix s = (Throw (plainError msg), s)
                  /\ existsSync exportsDir (world s) = false
                  /\ mkdir_error env exportsDir = Some msg).
Proof.
  unfold saveStamped, inWorld.
  destruct (existsSync exportsDir (world s)) eqn:Hexp;
    [| destruct (mkdir_error env exportsDir) as [msg |] eqn:Hmk].
  - left. destruct (saveToFile_writable env (prefix +:+ "_" +:+ pretty (now (world s)) +:+ ".json")
                      (world s) (or_introl Hexp))
      as (w1 & -> & Hsub & Hp & Hdir & Hrl & Hadds).
    eexists _, _. split; [reflexivity |].
    split; [split; [reflexivity | exact Hsub | exact Hadds | reflexivity] |].
    split; [reflexivity |]. split; [exact Hp |]. split; [exact Hdir |].
    split; [exact Hrl | left; exact Hexp].
  - right. exists msg. rewrite (saveToFile_blocked env _ _ msg Hexp Hmk), with_world_id.
    auto.
  - left. destruct (saveToFile_writable env (prefix +:+ "_" +:+ pretty (now (world s)) +:+ ".json")
                      (world s) (or_intror Hmk))
      as (w1 & -> & Hsub & Hp & Hdir & Hrl & Hadds).
    eexists _, _. split; [reflexivity |].
    split; [split; [reflexivity | exact Hsub | exact Hadds | reflexivity] |].
    split; [reflexivity |]. split; [exact Hp |]. split; [exact Hdir |].
    split; [exact Hrl | right; exact Hmk].
Qed.

Lemma blocked_not_writable w msg :
  existsSync exportsDir w = false ->
  mkdir_error env exportsDir = Some msg ->
  ~ exportsWritable env w.
Proof. intros H1 H2 [H | H]; congruence. Qed.

(** A key is set and a file saved, inside a [try] that swallows the
    failure of the save. *)
Lemma save_stage_spec (key : ExportedData -> ExportedData) (prefix : string) s :
  (forall x, videoKeys (key x) = videoKeys x) ->
  let r := xtry (assign key ;;~ saveStamped env prefix ;;~ xret tt)
                (fun _ => xret tt) s in
  r.1 = Ret tt
  /\ calm s r.2
  /\ exportedData r.2 = key (exportedData s)
  /\ (forall msg, existsSync exportsDir (world s) = false ->
                  mkdir_error env exportsDir = Some msg -> still s r.2)
  /\ (exportsWritable env (world s) -> exportsDir ∈ files (world r.2)).
Proof.
  intros Hkey r.
  set (s2 := {| world := world s; exportedData := key (exportedData s);
                posted := posted s |}).
  assert (Hst2 : still s s2).
  { split; [reflexivity | apply onlyRequests_refl | apply Hkey]. }
  destruct (saveStamped_cases prefix s2)
    as [(p & s3 & Hsave & Hcalm & Hdata & _ & Hdir & _ & Hw) | (msg & Hsave & Hexp & Hmk)].
  - assert (Hr : r = (Ret tt, s3)).
    { subst r. unfold xtry, xbind, assign. fold s2. rewrite Hsave. reflexivity. }
    rewrite Hr. cbn [fst snd].
    split; [reflexivity |].
    split; [eapply calm_trans; [apply still_calm; exact Hst2 | exact Hcalm] |].
    split; [exact Hdata |].
    split; [| intros _; exact Hdir].
    intros msg Hno Hmk. exfalso.
    exact (blocked_not_writable _ _ Hno Hmk Hw).
  - assert (Hr : r = (Ret tt, s2)).
    { subst r. unfold xtry, xbind, assign. fold s2. rewrite Hsave. reflexivity. }
    rewrite Hr. cbn [fst snd].
    split; [reflexivity |]. split; [apply still_calm; exact Hst2 |].
    split; [reflexivity |]. split; [intros _ _ _; exact Hst2 |].
    intros Hw. exfalso. exact (blocked_not_writable _ _ Hexp Hmk Hw).
Qed.

Lemma exportCrm_spec s :
  let r := exportCrm env s in
  r.1 = Ret tt /\ calm s r.2 /\ ed_crm (exportedData r.2) = true
  /\ (ed_analytics (exportedData r.2) = ed_analytics (exportedData s))
  /\ (forall msg, existsSync exportsDir (world s) = false ->
                  mkdir_error env exportsDir = Some msg -> still s r.2)
  /\ (exportsWritable env (world s) -> exportsDir ∈ files (world r.2)).
Proof.
  destruct (save_stage_spec set_crm "crm" s (fun _ => eq_refl))
    as (H1 & H2 & H3 & H4 & H5).
  cbn zeta. unfold exportCrm. split; [exact H1 |]. split; [exact H2 |].
  rewrite H3. split; [reflexivity |]. split; [reflexivity |]. split; assumption.
Qed.

Lemma exportAnalytics_spec s :
  let r := exportAnalytics env s in
  r.1 = Ret tt /\ calm s r.2 /\ ed_analytics (exportedData r.2) = true
  /\ (ed_crm (exportedData r.2) = ed_crm (exportedData s))
  /\ (forall msg, existsSync exportsDir (world s) = false ->
                  mkdir_error env exportsDir = Some msg -> still s r.2)
  /\ (exportsWritable env (world s) -> exportsDir ∈ files (world r.2)).
Proof.
  destruct (save_stage_spec set_analytics "analytics" s (fun _ => eq_refl))
    as (H1 & H2 & H3 & H4 & H5).
  cbn zeta. unfold exportAnalytics. split; [exact H1 |]. split; [exact H2 |].
  rewrite H3. split; [reflexivity |]. split; [reflexivity |]. split; assumption.
Qed.

Lemma exportUsers_spec s :
  let r := exportUsers env api s in
  r.1 = Ret tt /\ calm s r.2
  /\ (forall msg, existsSync exportsDir (world s) = false ->
                  mkdir_error env exportsDir = Some msg -> still s r.2).
Proof.
  cbn zeta.
  pose proof (clientRequest_still s) as Hst.
  set (s1 := with_world (clientRequest env (world s)) s) in *.
  assert (Hr : exportUsers env api s
               = match users_answer api with
                 | Some _ => (Ret tt, s1)
                 | None => xtry (assign set_users ;;~ saveStamped env "users" ;;~ xret tt)
                                (fun _ => xret tt) s1
                 end).
  { unfold exportUsers, exportUserData, xtry. unfold xbind at 1. rewrite clientGet_spec.
    fold s1. destruct (users_answer api); reflexivity. }
  rewrite Hr. destruct (users_answer api) as [e |].
  - cbn [fst snd]. split; [reflexivity |]. split; [apply still_calm; exact Hst |].
    intros _ _ _. exact Hst.
  - destruct (save_stage_spec set_users "users" s1 (fun _ => eq_refl))
      as (H1 & H2 & _ & H4 & _).
    split; [exact H1 |].
    split; [eapply calm_trans; [apply still_calm; exact Hst | exact H2] |].
    intros msg Hno Hmk. eapply still_trans; [exact Hst |]. exact (H4 msg Hno Hmk).
Qed.

End ExportStages.

Section ExportDownloads.

Context (env : Env) (api : ApiAnswers) (config : Config).

Lemma netEvents_mkdirs w w' :
  adds isMkdir w w' -> netEvents (trace w') = netEvents (trace w).
Proof.
  intros H. unfold netEvents. eapply omap_adds; [| exact H].
  intros t e He. destruct e; cbn in *; try reflexivity; destruct He.
Qed.

Lemma apiCalls_mkdirs w w' :
  adds isMkdir w w' -> apiCalls (trace w') = apiCalls (trace w).
Proof.
  intros H. unfold apiCalls. eapply omap_adds; [| exact H].
  intros t e He. destruct e; cbn in *; try reflexivity; destruct He.
Qed.

(** What both methods do with their result, once the exports directory
    is there. *)
Lemma recordDownloads_spec total how downloaded s :
  exportsDir ∈ files (world s) ->
  exists s',
    recordDownloads env config total how downloaded s = (Ret tt, s')
    /\ files (world s) ⊆ files (world s')
    /\ adds isMkdir (world s) (world s')
    /\ posted s' = posted s
    /\ ed_calls (exportedData s') = ed_calls (exportedData s)
    /\ ed_extensiveCalls (exportedData s') = ed_extensiveCalls (exportedData s)
    /\ ed_videoDownloads (exportedData s') = Some downloaded
    /\ exists v, ed_videoDownloadSummary (exportedData s') = Some v
                 /\ method v = how /\ totalCalls v = total
                 /\ successfulDownloads v = length downloaded.
Proof.
  intros Hdir. unfold recordDownloads, xbind at 1. unfold assign at 1.
  destruct downloaded as [| d ds].
  - unfold assign. eexists. split; [reflexivity |]. cbn.
    split; [intros q Hq; exact Hq |]. split; [apply adds_refl |].
    repeat (split; [reflexivity |]). eexists. split; [reflexivity |]. cbn. auto.
  - set (s2 := {| world := world s;
                  exportedData := set_videoDownloads (d :: ds) (exportedData s);
                  posted := posted s |}).
    unfold xbind.
    destruct (saveStamped_cases env "video_downloads" s2)
      as [(p & s3 & -> & Hcalm & Hdata & _) | (msg & _ & Hexp & _)].
    + unfold assign. eexists. split; [reflexivity |]. cbn [world exportedData posted].
      destruct Hcalm as [Hp Hf Ht _]. rewrite Hdata.
      split; [exact Hf |]. split; [exact Ht |]. split; [exact Hp |].
      repeat (split; [reflexivity |]). eexists. split; [reflexivity |]. cbn. auto.
    + exfalso. apply existsSync_false in Hexp. apply Hexp. exact Hdir.
Qed.

(** A downloader is made, a method is run, its result is recorded; what
    the method throws is swallowed. *)
Lemma download_stage_spec (run : M (list Success)) (total : nat) (how : string) s :
  exportsDir ∈ files (world s) ->
  (forall w, filesGrow w (run w).2) ->
  let s0 := with_world (set_rateLimit (initialRateLimit (now (world s))) (world s)) s in
  let d := run (world s0) in
  let r := (newVideoDownloader ;;~
            xtry (downloadedVideos <~ inWorld run ;;
                  recordDownloads env config total how downloadedVideos)
                 (fun _ => xret tt)) s in
  posted r.2 = posted s
  /\ files (world s) ⊆ files (world r.2)
  /\ ed_calls (exportedData r.2) = ed_calls (exportedData s)
  /\ ed_extensiveCalls (exportedData r.2) = ed_extensiveCalls (exportedData s)
  /\ netEvents (trace (world r.2)) = netEvents (trace d.2)
  /\ match d.1 with
     | Ret downloaded =>
         r.1 = Ret tt
         /\ ed_videoDownloads (exportedData r.2) = Some downloaded
         /\ exists v, ed_videoDownloadSummary (exportedData r.2) = Some v
                      /\ method v = how /\ totalCalls v = total
                      /\ successfulDownloads v = length downloaded
     | Throw _ => r.1 = Ret tt /\ exportedData r.2 = exportedData s
     | OutOfFuel => r.1 = OutOfFuel
     end.
Proof.
  intros Hdir Hgrow s0 d r.
  pose proof (Hgrow (world s0)) as Hg. fold d in Hg. unfold filesGrow in Hg.
  assert (Hr : r = match d.1 with
                   | Ret downloaded =>
                       recordDownloads env config total how downloaded (with_world d.2 s0)
                   | Throw _ => (Ret tt, with_world d.2 s0)
                   | OutOfFuel => (OutOfFuel, with_world d.2 s0)
                   end).
  { subst r. unfold xbind at 1. unfold newVideoDownloader at 1. unfold inWorld at 1.
    fold s0. unfold xtry, xbind, inWorld. fold d.
    destruct d as [[downloaded | e | ] w1]; cbn [fst snd]; [| reflexivity | reflexivity].
    destruct (recordDownloads env config total how downloaded (with_world w1 s0))
      as [[[] | e | ] s'] eqn:Hrec; try reflexivity.
    exfalso.
    destruct (recordDownloads_spec total how downloaded (with_world w1 s0)) as (s'' & Hs & _).
    { cbn [with_world world]. apply Hg. exact Hdir. }
    congruence. }
  rewrite Hr. clear Hr r.
  destruct d as [[downloaded | e | ] w1] eqn:Hd; cbn [fst snd] in *.
  - destruct (recordDownloads_spec total how downloaded (with_world w1 s0))
      as (s' & -> & Hf & Ht & Hp & Hc & He & Hv & Hsum).
    { cbn [with_world world]. apply Hg. exact Hdir. }
    cbn [fst snd]. cbn [with_world world posted exportedData] in *.
    split; [exact Hp |].
    split; [intros q Hq; apply Hf, Hg; exact Hq |].
    split; [exact Hc |]. split; [exact He |].
    split; [apply netEvents_mkdirs; exact Ht |].
    split; [reflexivity |]. split; [exact Hv | exact Hsum].
  - cbn [with_world world posted exportedData].
    repeat (split; [first [reflexivity | exact Hg] |]). split; reflexivity.
  - cbn [with_world world posted exportedData].
    repeat (split; [first [reflexivity | exact Hg] |]). reflexivity.
Qed.

End ExportDownloads.

Section ExportVideos.

Context (env : Env) (api : ApiAnswers) (config : Config).

(** The retrieval only talks to the extensive-calls endpoint. *)
Lemma retrieveExtensiveCalls_spec pages options s :
  let g := retrieveExtensiveCalls env api pages options s in
  g.1 = (getAllExtensiveCallData (extensive_answer api) pages options (posted s)).1
  /\ posted g.2 = (getAllExtensiveCallData (extensive_answer api) pages options (posted s)).2
  /\ exportedData g.2 = exportedData s
  /\ onlyRequests (world s) (world g.2).
Proof.
  cbn zeta. unfold retrieveExtensiveCalls.
  destruct (getAllExtensiveCallData (extensive_answer api) pages options (posted s))
    as [r sent1].
  cbn [fst snd world posted exportedData]. repeat split; try reflexivity;
    apply (iter_clientRequest_onlyRequests env).
Qed.

Lemma fallback_eq fuel s :
  downloadVideosUsingStandardMethod env config fuel s
  = match ed_calls (exportedData s) with
    | Some (Some calls) =>
        (newVideoDownloader ;;~
         xtry (downloadedVideos <~
                 inWorld (downloadVideosForCalls env (self config) fuel (Some calls)
                            (Some (gongExport config))) ;;
               recordDownloads env config (length calls) "standard_fallback"
                 downloadedVideos)
              (fun _ => xret tt)) s
    | _ => (Ret tt, s)
    end.
Proof. reflexivity. Qed.

Lemma standard_grows fuel calls gx w :
  filesGrow w (downloadVideosForCalls env (self config) fuel calls gx w).2.
Proof. apply downloadVideosForCalls_closed. apply filesGrow_std_closed. Qed.

Lemma extensive_grows fuel calls w :
  filesGrow w (downloadVideosFromExtensiveCalls env (self config) fuel calls w).2.
Proof. apply downloadVideosFromExtensiveCalls_closed. apply filesGrow_closed. Qed.

(** The fallback never throws. *)
Lemma fallback_never_throws fuel s :
  exportsDir ∈ files (world s) ->
  forall e, (downloadVideosUsingStandardMethod env config fuel s).1 <> Throw e.
Proof.
  intros Hdir e. rewrite fallback_eq.
  destruct (ed_calls (exportedData s)) as [[calls |] |]; try discriminate.
  destruct (download_stage_spec env config
              (downloadVideosForCalls env (self config) fuel (Some calls)
                 (Some (gongExport config)))
              (length calls) "standard_fallback" s Hdir
              (standard_grows fuel _ _))
    as (_ & _ & _ & _ & _ & H).
  cbn zeta in H.
  destruct (downloadVideosForCalls env (self config) fuel (Some calls)
              (Some (gongExport config)) _).1;
    [destruct H as (H & _) | destruct H as (H & _) |]; rewrite H; discriminate.
Qed.

(** When the retrieval fails or finds nothing, the stage is the fallback
    from the state the retrieval left. *)
Lemma exportExtensiveCalls_falls_back pages fuel s :
  exportsDir ∈ files (world s) ->
  let g := retrieveExtensiveCalls env api pages (last90Days (world s)) s in
  (g.1 = Ret [] \/ exists e, g.1 = Throw e) ->
  exportExtensiveCalls env api config pages fuel s
  = downloadVideosUsingStandardMethod env config fuel g.2.
Proof.
  intros Hdir g Hg.
  assert (Hdir' : exportsDir ∈ files (world g.2)).
  { destruct (retrieveExtensiveCalls_spec pages (last90Days (world s)) s)
      as (_ & _ & _ & (Hf & _)). fold g in Hf. rewrite Hf. exact Hdir. }
  pose proof (fallback_never_throws fuel g.2 Hdir') as Hnt.
  unfold exportExtensiveCalls, xtry. unfold xbind at 1. fold g.
  destruct g as [r s1]. cbn [fst snd] in *.
  destruct Hg as [-> | [e ->]]; [| reflexivity].
  destruct (downloadVideosUsingStandardMethod env config fuel s1) as [[[] | e | ] s2] eqn:Hfb;
    try reflexivity.
  exfalso. apply (Hnt e). reflexivity.
Qed.

Lemma saveStamped_ready prefix s :
  exportsDir ∈ files (world s) ->
  exists p s', saveStamped env prefix s = (Ret p, s')
               /\ calm s s' /\ exportedData s' = exportedData s
               /\ exportsDir ∈ files (world s').
Proof.
  intros Hdir.
  destruct (saveStamped_cases env prefix s)
    as [(p & s' & H & Hc & Hd & _ & Hdir' & _) | (msg & _ & Hexp & _)].
  - eauto 8.
  - exfalso. apply existsSync_false in Hexp. apply Hexp. exact Hdir.
Qed.

(** When the retrieval finds calls, the stage saves them and runs the
    extensive method on them. *)
Lemma exportExtensiveCalls_downloads pages fuel s c rest :
  exportsDir ∈ files (world s) ->
  let g := retrieveExtensiveCalls env api pages (last90Days (world s)) s in
  g.1 = Ret (c :: rest) ->
  let saved := (saveStamped env "extensive_calls" g.2).2 in
  let s4 := {| world := world saved;
               exportedData := set_extensiveCalls (c :: rest) (exportedData saved);
               posted := posted saved |} in
  exportsDir ∈ files (world s4)
  /\ calm g.2 saved
  /\ exportedData saved = exportedData s
  /\ exportExtensiveCalls env api config pages fuel s
     = (newVideoDownloader ;;~
        xtry (downloadedVideos <~
                inWorld (downloadVideosFromExtensiveCalls env (self config) fuel
                           (Some (c :: rest))) ;;
              recordDownloads env config (length (c :: rest)) "extensive_calls_api"
                downloadedVideos)
             (fun _ => xret tt)) s4.
Proof.
  intros Hdir g Hg saved s4.
  destruct (retrieveExtensiveCalls_spec pages (last90Days (world s)) s)
    as (_ & _ & Hdata & (Hf & _)). fold g in Hdata, Hf.
  assert (Hdir' : exportsDir ∈ files (world g.2)) by (rewrite Hf; exact Hdir).
  destruct (saveStamped_ready "extensive_calls" g.2 Hdir')
    as (p & s3 & Hsave & Hcalm & Hd3 & Hdir3).
  assert (Hsaved : saved = s3) by (subst saved; rewrite Hsave; reflexivity).
  assert (Hdir4 : exportsDir ∈ files (world s4)).
  { subst s4. cbn [world]. rewrite Hsaved. exact Hdir3. }
  split; [exact Hdir4 |]. split; [rewrite Hsaved; exact Hcalm |].
  split; [rewrite Hsaved, Hd3; exact Hdata |].
  set (stage := (newVideoDownloader ;;~
        xtry (downloadedVideos <~
                inWorld (downloadVideosFromExtensiveCalls env (self config) fuel
                           (Some (c :: rest))) ;;
              recordDownloads env config (length (c :: rest)) "extensive_calls_api"
                downloadedVideos)
             (fun _ => xret tt))).
  assert (Hnt : forall e, (stage s4).1 <> Throw e).
  { intros e.
    destruct (download_stage_spec env config
                (downloadVideosFromExtensiveCalls env (self config) fuel (Some (c :: rest)))
                (length (c :: rest)) "extensive_calls_api" s4 Hdir4
                (extensive_grows fuel _))
      as (_ & _ & _ & _ & _ & H).
    cbn zeta in H. fold stage in H.
    destruct (downloadVideosFromExtensiveCalls env (self config) fuel (Some (c :: rest)) _).1;
      [destruct H as (H & _) | destruct H as (H & _) |]; rewrite H; discriminate. }
  assert (Hs4 : s4 = {| world := world s3;
                        exportedData := set_extensiveCalls (c :: rest) (exportedData s3);
                        posted := posted s3 |})
    by (subst s4; rewrite Hsaved; reflexivity).
  clearbody s4. clear Hsaved. clearbody saved.
  unfold exportExtensiveCalls. unfold xtry at 1. unfold xbind at 1. fold g.
  destruct g as [r s1]. cbn [fst snd] in *. subst r.
  unfold xbind at 1. rewrite Hsave. unfold xbind at 1. unfold assign at 1.
  fold stage. rewrite <- Hs4.
  destruct (stage s4) as [[[] | e | ] s5] eqn:Hst; try reflexivity.
  exfalso. apply (Hnt e). reflexivity.
Qed.

End ExportVideos.

Section ExportTheorems.

Context (env : Env) (api : ApiAnswers) (config : Config).

(** X23. A failed retrieval switches the export to the standard method.
    With the plain calls exported and the exports directory in place: when
    the paginated retrieval of the extensive calls rejects - one refused
    page suffices - or finds no call, the videos are fetched by
    [downloadVideosForCalls] from the plain calls, with a new downloader,
    in the state the retrieval left.  No extensive call is kept, even
    from pages that were served; the list the method returns is recorded
    with a summary that names the method and counts the calls. *)
Theorem failed_retrieval_falls_back_to_the_standard_method :
  forall (pages fuel : nat) (s : ExportState) (calls : list StdCall),
    ed_calls (exportedData s) = Some (Some calls) ->
    existsSync exportsDir (world s) = true ->
    let g := retrieveExtensiveCalls env api pages (last90Days (world s)) s in
    (g.1 = Ret [] \/ exists e, g.1 = Throw e) ->
    let d := downloadVideosForCalls env (self config) fuel (Some calls)
               (Some (gongExport config))
               (set_rateLimit (initialRateLimit (now (world g.2))) (world g.2)) in
    let r := exportExtensiveCalls env api config pages fuel s in
    posted r.2 = posted g.2
    /\ ed_extensiveCalls (exportedData r.2) = ed_extensiveCalls (exportedData s)
    /\ netEvents (trace (world r.2)) = netEvents (trace d.2)
    /\ match d.1 with
       | Ret downloaded =>
           r.1 = Ret tt
           /\ ed_videoDownloads (exportedData r.2) = Some downloaded
           /\ exists v, ed_videoDownloadSummary (exportedData r.2) = Some v
                        /\ method v = "standard_fallback"
                        /\ totalCalls v = length calls
                        /\ successfulDownloads v = length downloaded
       | Throw _ => r.1 = Ret tt
       | OutOfFuel => r.1 = OutOfFuel
       end.
Proof.
  intros pages fuel s calls Hcalls Hexp g Hg d r.
  apply existsSync_true in Hexp.
  destruct (retrieveExtensiveCalls_spec env api pages (last90Days (world s)) s)
    as (_ & _ & Hdata & (Hf & _)). fold g in Hdata, Hf.
  assert (Hdir' : exportsDir ∈ files (world g.2)) by (rewrite Hf; exact Hexp).
  assert (Hr : r = downloadVideosUsingStandardMethod env config fuel g.2).
  { subst r. apply exportExtensiveCalls_falls_back; assumption. }
  rewrite fallback_eq, Hdata, Hcalls in Hr.
  destruct (download_stage_spec env config
              (downloadVideosForCalls env (self config) fuel (Some calls)
                 (Some (gongExport config)))
              (length calls) "standard_fallback" g.2 Hdir'
              (standard_grows env config fuel _ _))
    as (Hp & _ & _ & He & Hnet & Hres).
  cbn zeta in Hp, He, Hnet, Hres. rewrite <- Hr in Hp, He, Hnet, Hres.
  cbn [with_world world] in Hnet, Hres. fold d in Hnet, Hres.
  split; [exact Hp |]. split; [rewrite He, Hdata; reflexivity |].
  split; [exact Hnet |].
  destruct d.1; [exact Hres | exact (proj1 Hres) | exact Hres].
Qed.

(** X24. Retrieved calls are downloaded by the extensive method, and by
    it alone.  When the retrieval returns at least one call, the list is
    saved and recorded, and [downloadVideosFromExtensiveCalls] is run on
    exactly that list with a new downloader.  Whatever it returns - even
    the empty list, when every download failed - is recorded with a
    summary naming the method; the standard method is not used as a
    fallback then. *)
Theorem retrieved_calls_are_downloaded_by_the_extensive_method :
  forall (pages fuel : nat) (s : ExportState) (c : Call) (rest : list Call),
    existsSync exportsDir (world s) = true ->
    let g := retrieveExtensiveCalls env api pages (last90Days (world s)) s in
    g.1 = Ret (c :: rest) ->
    let saved := (saveStamped env "extensive_calls" g.2).2 in
    let d := downloadVideosFromExtensiveCalls env (self config) fuel (Some (c :: rest))
               (set_rateLimit (initialRateLimit (now (world saved))) (world saved)) in
    let r := exportExtensiveCalls env api config pages fuel s in
    ed_extensiveCalls (exportedData r.2) = Some (c :: rest)
    /\ ed_calls (exportedData r.2) = ed_calls (exportedData s)
    /\ posted r.2 = posted g.2
    /\ netEvents (trace (world r.2)) = netEvents (trace d.2)
    /\ match d.1 with
       | Ret downloaded =>
           r.1 = Ret tt
           /\ ed_videoDownloads (exportedData r.2) = Some downloaded
           /\ exists v, ed_videoDownloadSummary (exportedData r.2) = Some v
                        /\ method v = "extensive_calls_api"
                        /\ totalCalls v = length (c :: rest)
                        /\ successfulDownloads v = length downloaded
       | Throw _ => r.1 = Ret tt
       | OutOfFuel => r.1 = OutOfFuel
       end.
Proof.
  intros pages fuel s c rest Hexp g Hg saved d r.
  apply existsSync_true in Hexp.
  destruct (exportExtensiveCalls_downloads env api config pages fuel s c rest Hexp Hg)
    as (Hdir4 & Hcalm & Hdata & Hr).
  fold g saved in Hdir4, Hcalm, Hdata, Hr. fold r in Hr.
  set (s4 := {| world := world saved;
                exportedData := set_extensiveCalls (c :: rest) (exportedData saved);
                posted := posted saved |}) in *.
  destruct (download_stage_spec env config
              (downloadVideosFromExtensiveCalls env (self config) fuel (Some (c :: rest)))
              (length (c :: rest)) "extensive_calls_api" s4 Hdir4
              (extensive_grows env config fuel _))
    as (Hp & _ & Hc & He & Hnet & Hres).
  cbn zeta in Hp, Hc, He, Hnet, Hres. rewrite <- Hr in Hp, Hc, He, Hnet, Hres.
  cbn [with_world world s4] in Hnet, Hres. fold d in Hnet, Hres.
  split; [rewrite He; reflexivity |].
  split; [rewrite Hc; cbn [s4 exportedData set_extensiveCalls ed_calls];
          rewrite Hdata; reflexivity |].
  split; [rewrite Hp; cbn [s4 posted]; apply Hcalm |].
  split; [exact Hnet |].
  destruct d.1; [exact Hres | exact (proj1 Hres) | exact Hres].
Qed.


(** *** The whole export *)

Lemma exportGongData_after_status pages fuel s :
  status_answer api = None ->
  exportGongData env api config pages fuel s
  = (exportCalls env api config pages fuel ;;~ exportUsers env api ;;~
     exportCrm env ;;~ exportAnalytics env ;;~ saveStamped env "gong_export")
      (with_world (clientRequest env (world s)) s).
Proof.
  intros Hst. unfold exportGongData. unfold xbind at 1. unfold xtry, checkApiStatus.
  rewrite clientGet_spec, Hst. reflexivity.
Qed.

(** The stages after the calls. *)
Lemma export_tail_spec s :
  exists s4,
    (exportUsers env api ;;~ exportCrm env ;;~ exportAnalytics env ;;~
     saveStamped env "gong_export") s
    = saveStamped env "gong_export" s4
    /\ calm s s4
    /\ ed_crm (exportedData s4) = true
    /\ ed_analytics (exportedData s4) = true
    /\ (forall msg, existsSync exportsDir (world s) = false ->
                    mkdir_error env exportsDir = Some msg -> still s s4).
Proof.
  destruct (exportUsers_spec env api s) as (U1 & U2 & U3).
  destruct (exportUsers env api s) as [ru s1] eqn:Hu. cbn [fst snd] in *. subst ru.
  destruct (exportCrm_spec env s1) as (C1 & C2 & C3 & _ & C5 & _).
  destruct (exportCrm env s1) as [rc s2] eqn:Hc. cbn [fst snd] in *. subst rc.
  destruct (exportAnalytics_spec env s2) as (A1 & A2 & A3 & A4 & A5 & _).
  destruct (exportAnalytics env s2) as [ra s3] eqn:Ha. cbn [fst snd] in *. subst ra.
  exists s3. split.
  - unfold xbind at 1. rewrite Hu. unfold xbind at 1. rewrite Hc.
    unfold xbind at 1. rewrite Ha. reflexivity.
  - split; [eapply calm_trans; [exact U2 | eapply calm_trans; [exact C2 | exact A2]] |].
    split; [rewrite A4; exact C3 |]. split; [exact A3 |].
    intros msg Hno Hmk.
    pose proof (U3 msg Hno Hmk) as S1.
    assert (Hno1 : existsSync exportsDir (world s1) = false).
    { apply existsSync_false. apply existsSync_false in Hno.
      destruct S1 as [_ (Hf & _) _]. rewrite Hf. exact Hno. }
    pose proof (C5 msg Hno1 Hmk) as S2.
    assert (Hno2 : existsSync exportsDir (world s2) = false).
    { apply existsSync_false. apply existsSync_false in Hno1.
      destruct S2 as [_ (Hf & _) _]. rewrite Hf. exact Hno1. }
    pose proof (A5 msg Hno2 Hmk) as S3.
    eapply still_trans; [exact S1 | eapply still_trans; [exact S2 | exact S3]].
Qed.

(** The calls stage when the plain calls cannot be fetched. *)
Lemma exportCalls_calls_down pages fuel s e :
  calls_answer api = inl e ->
  exportCalls env api config pages fuel s
  = (Ret tt, with_world (clientRequest env (world s)) s).
Proof.
  intros Hc. unfold exportCalls, xtry. unfold xbind at 1. unfold exportCallData.
  rewrite clientGet_spec, Hc. reflexivity.
Qed.

(** The calls stage when nothing can be saved: the videos are not even
    looked for. *)
Lemma exportCalls_blocked pages fuel s msg :
  existsSync exportsDir (world s) = false ->
  mkdir_error env exportsDir = Some msg ->
  exists s',
    exportCalls env api config pages fuel s = (Ret tt, s')
    /\ onlyRequests (world s) (world s')
    /\ posted s' = posted s
    /\ ed_extensiveCalls (exportedData s') = ed_extensiveCalls (exportedData s)
    /\ ed_videoDownloads (exportedData s') = ed_videoDownloads (exportedData s).
Proof.
  intros Hno Hmk. unfold exportCalls, xtry. unfold xbind at 1. unfold exportCallData.
  rewrite clientGet_spec.
  pose proof (clientRequest_still env s) as [Hp Hw Hk].
  set (s1 := with_world (clientRequest env (world s)) s) in *.
  destruct (calls_answer api) as [e | calls].
  - eexists. split; [reflexivity |]. split; [exact Hw |]. split; [exact Hp |].
    split; reflexivity.
  - unfold xbind at 1. unfold assign at 1.
    set (s2 := {| world := world s1; exportedData := set_calls calls (exportedData s1);
                  posted := posted s1 |}).
    unfold xbind at 1.
    destruct (saveStamped_cases env "calls" s2)
      as [(p & s3 & _ & _ & _ & _ & _ & _ & Hcan) | (m & -> & _ & _)].
    + exfalso. refine (blocked_not_writable env _ msg _ Hmk Hcan).
      apply existsSync_false. apply existsSync_false in Hno.
      cbn [s2 world]. destruct Hw as (Hf & _). rewrite Hf. exact Hno.
    + eexists. split; [reflexivity |]. cbn [s2 world posted exportedData].
      split; [exact Hw |]. split; [exact Hp |]. split; reflexivity.
Qed.

(** The extensive-calls stage returns, once the exports directory is
    there. *)
Lemma exportExtensiveCalls_returns pages fuel B s :
  exportsDir ∈ files (world s) ->
  no429From env B ->
  (4 * B + 3 <= fuel)%nat ->
  retrievalSettles api pages ->
  exists s', exportExtensiveCalls env api config pages fuel s = (Ret tt, s')
             /\ files (world s) ⊆ files (world s').
Proof.
  intros Hdir Hno Hfuel Hsettles.
  destruct (retrieveExtensiveCalls_spec env api pages (last90Days (world s)) s)
    as (Hg1 & _ & Hdata & (Hf & _)).
  set (g := retrieveExtensiveCalls env api pages (last90Days (world s)) s) in *.
  assert (Hdir' : exportsDir ∈ files (world g.2)) by (rewrite Hf; exact Hdir).
  pose proof (Hsettles (last90Days (world s)) (posted s)) as Hnf. rewrite <- Hg1 in Hnf.
  assert (Hcases : (g.1 = Ret [] \/ exists e, g.1 = Throw e)
                   \/ exists c rest, g.1 = Ret (c :: rest)).
  { destruct g.1 as [[| c rest] | e |]; [left; left; reflexivity | right; eauto
                                         | left; right; eauto | congruence]. }
  destruct Hcases as [Hfall | (c & rest & Hsome)].
  - rewrite (exportExtensiveCalls_falls_back env api config pages fuel s Hdir Hfall).
    fold g. rewrite fallback_eq.
    destruct (ed_calls (exportedData g.2)) as [[calls |] |];
      [| eexists; split; [reflexivity | rewrite Hf; intros q Hq; exact Hq]
       | eexists; split; [reflexivity | rewrite Hf; intros q Hq; exact Hq]].
    destruct (download_stage_spec env config
                (downloadVideosForCalls env (self config) fuel (Some calls)
                   (Some (gongExport config)))
                (length calls) "standard_fallback" g.2 Hdir'
                (standard_grows env config fuel _ _))
      as (_ & Hgrow & _ & _ & _ & Hres).
    cbn zeta in Hgrow, Hres.
    destruct (standard_returns_with_exports_dir env (self config) B fuel (Some calls)
                (Some (gongExport config))
                (world (with_world (set_rateLimit (initialRateLimit (now (world g.2)))
                                      (world g.2)) g.2))
                Hno Hfuel)
      as (dl & w' & Hd).
    { apply existsSync_true. exact Hdir'. }
    rewrite Hd in Hres. cbn [fst] in Hres. destruct Hres as (Hret & _).
    match goal with
    | |- exists s', ?t = _ /\ _ => destruct t as [rr s'] eqn:Heq
    end.
    cbn [fst snd] in *. subst rr. exists s'. split; [reflexivity |].
    rewrite <- Hf. exact Hgrow.
  - destruct (exportExtensiveCalls_downloads env api config pages fuel s c rest Hdir Hsome)
      as (Hdir4 & Hcalm & _ & Hr).
    fold g in Hdir4, Hcalm, Hr.
    set (saved := (saveStamped env "extensive_calls" g.2).2) in *.
    set (s4 := {| world := world saved;
                  exportedData := set_extensiveCalls (c :: rest) (exportedData saved);
                  posted := posted saved |}) in *.
    destruct (download_stage_spec env config
                (downloadVideosFromExtensiveCalls env (self config) fuel (Some (c :: rest)))
                (length (c :: rest)) "extensive_calls_api" s4 Hdir4
                (extensive_grows env config fuel _))
      as (_ & Hgrow & _ & _ & _ & Hres).
    cbn zeta in Hgrow, Hres. rewrite <- Hr in Hgrow, Hres.
    destruct (extensive_returns_with_exports_dir env (self config) B fuel (c :: rest)
                (world (with_world (set_rateLimit (initialRateLimit (now (world s4)))
                                      (world s4)) s4))
                Hno Hfuel)
      as (dl & w' & Hd).
    { apply existsSync_true. exact Hdir4. }
    rewrite Hd in Hres. cbn [fst] in Hres. destruct Hres as (Hret & _).
    destruct (exportExtensiveCalls env api config pages fuel s) as [rr s'] eqn:Heq.
    cbn [fst snd] in *. subst rr. exists s'. split; [reflexivity |].
    intros q Hq. apply Hgrow. cbn [s4 world]. apply (calm_files _ _ Hcalm).
    rewrite Hf. exact Hq.
Qed.

(** The calls stage returns when the exports directory is writable. *)
Lemma exportCalls_returns pages fuel B s :
  exportsWritable env (world s) ->
  no429From env B ->
  (4 * B + 3 <= fuel)%nat ->
  retrievalSettles api pages ->
  exists s', exportCalls env api config pages fuel s = (Ret tt, s')
             /\ files (world s) ⊆ files (world s').
Proof.
  intros Hcan Hno Hfuel Hsettles. unfold exportCalls, xtry. unfold xbind at 1.
  unfold exportCallData. rewrite clientGet_spec.
  pose proof (clientRequest_still env s) as [Hp (Hf & _) Hk].
  set (s1 := with_world (clientRequest env (world s)) s) in *.
  destruct (calls_answer api) as [e | calls].
  - eexists. split; [reflexivity |]. rewrite Hf. intros q Hq. exact Hq.
  - unfold xbind at 1. unfold assign at 1.
    set (s2 := {| world := world s1; exportedData := set_calls calls (exportedData s1);
                  posted := posted s1 |}).
    unfold xbind at 1.
    destruct (saveStamped_cases env "calls" s2)
      as [(p & s3 & -> & Hcalm & _ & _ & Hdir & _) | (m & _ & Hexp & Hmk)].
    + destruct (exportExtensiveCalls_returns pages fuel B s3 Hdir Hno Hfuel Hsettles)
        as (s' & -> & Hgrow).
      eexists. split; [reflexivity |].
      intros q Hq. apply Hgrow. apply (calm_files _ _ Hcalm). cbn [s2 world].
      rewrite Hf. exact Hq.
    + exfalso. refine (blocked_not_writable env _ m Hexp Hmk _).
      eapply exportsWritable_mono; [| exact Hcan]. cbn [s2 world]. rewrite Hf.
      intros q Hq. exact Hq.
Qed.

(** X25. A refused status check aborts the export.  When the first
    request, the status check, is rejected, [exportGongData] rejects with
    "Failed to connect to Gong API" in place of the error of the request;
    nothing else has happened: one request, no file, nothing exported -
    not even the two constant answers. *)
Theorem refused_status_check_aborts_the_export :
  forall (pages fuel : nat) (s : ExportState) (e : JsError),
    status_answer api = Some e ->
    exportGongData env api config pages fuel s
    = (Throw (plainError failedToConnect), with_world (clientRequest env (world s)) s)
    /\ still s (exportGongData env api config pages fuel s).2
    /\ exportedData (exportGongData env api config pages fuel s).2 = exportedData s.
Proof.
  intros pages fuel s e Hst.
  assert (Hr : exportGongData env api config pages fuel s
               = (Throw (plainError failedToConnect),
                  with_world (clientRequest env (world s)) s)).
  { unfold exportGongData. unfold xbind at 1. unfold xtry, checkApiStatus.
    rewrite clientGet_spec, Hst. reflexivity. }
  rewrite Hr. split; [reflexivity |]. split; [apply clientRequest_still | reflexivity].
Qed.

(** X26. Nothing between the status check and the last save is fatal.
    When the status check passes, [exportGongData] always reaches the
    save of the combined file, whatever the other endpoints answer,
    whatever the downloads do, and whether or not the exports directory
    can be created (provided the 429 answers stop and the pagination
    ends): every failure in between is caught by the [try] of its stage.
    The outcome of the export is the outcome of that last save - its
    path, which then exists, when it returns; its error when it throws.
    By then the two constant exports are set, and no file that existed
    has been lost. *)
Theorem export_survives_every_other_failure :
  forall (pages fuel B : nat) (w : World),
    status_answer api = None ->
    no429From env B ->
    (4 * B + 3 <= fuel)%nat ->
    retrievalSettles api pages ->
    exists s3,
      exportGongData env api config pages fuel (startOfExport w)
      = saveStamped env "gong_export" s3
      /\ ed_crm (exportedData s3) = true
      /\ ed_analytics (exportedData s3) = true
      /\ (forall q, existsSync q w = true -> existsSync q (world s3) = true)
      /\ (saveStamped env "gong_export" s3).1 <> OutOfFuel
      /\ (forall path s4, saveStamped env "gong_export" s3 = (Ret path, s4) ->
                          existsSync path (world s4) = true).
Proof.
  intros pages fuel B w Hst Hno Hfuel Hsettles.
  rewrite (exportGongData_after_status pages fuel _ Hst).
  set (s1 := with_world (clientRequest env (world (startOfExport w))) (startOfExport w)).
  assert (Hf1 : files (world s1) = files w) by reflexivity.
  assert (Hcalls : exists s2, exportCalls env api config pages fuel s1 = (Ret tt, s2)
                              /\ files (world s1) ⊆ files (world s2)).
  { destruct (existsSync exportsDir (world s1)) eqn:Hexp;
      [| destruct (mkdir_error env exportsDir) as [msg |] eqn:Hmk].
    - apply (exportCalls_returns pages fuel B s1); auto. left. exact Hexp.
    - destruct (exportCalls_blocked pages fuel s1 msg Hexp Hmk)
        as (s2 & H & (Hf & _) & _).
      exists s2. split; [exact H |]. rewrite Hf. intros q Hq. exact Hq.
    - apply (exportCalls_returns pages fuel B s1); auto. right. exact Hmk. }
  destruct Hcalls as (s2 & Hcalls & Hgrow2).
  unfold xbind at 1. rewrite Hcalls.
  destruct (export_tail_spec s2) as (s3 & -> & Hcalm & Hcrm & Han & _).
  exists s3. split; [reflexivity |]. split; [exact Hcrm |]. split; [exact Han |].
  split.
  { intros q Hq. apply existsSync_true. apply existsSync_true in Hq.
    apply (calm_files _ _ Hcalm), Hgrow2. rewrite Hf1. exact Hq. }
  destruct (saveStamped_cases env "gong_export" s3)
    as [(p & s4 & -> & _ & _ & Hp & _) | (m & -> & _)].
  - split; [discriminate |]. intros path s4' [= <- <-].
    apply existsSync_true. exact Hp.
  - split; discriminate.
Qed.

(** X27. An exports directory that cannot be created fails the export,
    at the very end.  Every stage runs and swallows the failure of its
    save; the last save, of the combined file, is outside every [try] and
    rejects the export with the error of [mkdirSync].  By then the
    extensive calls were never asked for and no video was looked for:
    nothing was posted, no file or directory was made, the trace and the
    rate-limit state are as they were. *)
Theorem unwritable_exports_directory_fails_the_export :
  forall (pages fuel : nat) (w : World) (msg : string),
    status_answer api = None ->
    existsSync exportsDir w = false ->
    mkdir_error env exportsDir = Some msg ->
    exists s',
      exportGongData env api config pages fuel (startOfExport w)
      = (Throw (plainError msg), s')
      /\ onlyRequests w (world s')
      /\ posted s' = []
      /\ ed_extensiveCalls (exportedData s') = None
      /\ ed_videoDownloads (exportedData s') = None.
Proof.
  intros pages fuel w msg Hst Hno Hmk.
  rewrite (exportGongData_after_status pages fuel _ Hst).
  set (s1 := with_world (clientRequest env (world (startOfExport w))) (startOfExport w)).
  assert (Hno1 : existsSync exportsDir (world s1) = false) by exact Hno.
  destruct (exportCalls_blocked pages fuel s1 msg Hno1 Hmk)
    as (s2 & Hcalls & Hw2 & Hp2 & He2 & Hv2).
  unfold xbind at 1. rewrite Hcalls.
  assert (Hno2 : existsSync exportsDir (world s2) = false).
  { apply existsSync_false. apply existsSync_false in Hno1.
    destruct Hw2 as (Hf & _). rewrite Hf. exact Hno1. }
  destruct (export_tail_spec s2) as (s3 & -> & _ & _ & _ & Hstill).
  destruct (Hstill msg Hno2 Hmk) as [Hp3 Hw3 Hk3].
  assert (Hno3 : existsSync exportsDir (world s3) = false).
  { apply existsSync_false. apply existsSync_false in Hno2.
    destruct Hw3 as (Hf & _). rewrite Hf. exact Hno2. }
  unfold saveStamped, inWorld. rewrite (saveToFile_blocked env _ _ msg Hno3 Hmk).
  rewrite with_world_id. exists s3. split; [reflexivity |].
  split.
  { eapply onlyRequests_trans; [| exact Hw3].
    eapply onlyRequests_trans; [| exact Hw2]. apply clientRequest_onlyRequests. }
  split; [rewrite Hp3, Hp2; reflexivity |].
  unfold videoKeys in Hk3. injection Hk3 as _ Hk3e Hk3v _.
  rewrite Hk3e, Hk3v, He2, Hv2. split; reflexivity.
Qed.

(** X28. Without the plain calls there are no videos.  When the request
    for the plain calls is rejected, the whole calls stage is given up:
    the extensive calls are not asked for - though that endpoint may work
    - and no video is looked for or downloaded.  The export goes on with
    the other stages and returns when the exports directory is
    writable. *)
Theorem failed_calls_export_skips_the_videos :
  forall (pages fuel : nat) (w : World) (e : JsError),
    status_answer api = None ->
    calls_answer api = inl e ->
    let r := exportGongData env api config pages fuel (startOfExport w) in
    r.1 <> OutOfFuel
    /\ posted r.2 = []
    /\ netEvents (trace (world r.2)) = netEvents (trace w)
    /\ apiCalls (trace (world r.2)) = apiCalls (trace w)
    /\ videoKeys (exportedData r.2) = (None, None, None, None)
    /\ (exportsWritable env w ->
        exists path, r.1 = Ret path /\ existsSync path (world r.2) = true).
Proof.
  intros pages fuel w e Hst Hcalls r.
  set (s1 := with_world (clientRequest env (world (startOfExport w))) (startOfExport w)).
  set (s2 := with_world (clientRequest env (world s1)) s1).
  assert (Hc2 : calm (startOfExport w) s2).
  { eapply calm_trans; apply still_calm, clientRequest_still. }
  destruct (export_tail_spec s2) as (s3 & Htail & Hcalm & _ & _ & _).
  assert (Hr : r = saveStamped env "gong_export" s3).
  { subst r. rewrite (exportGongData_after_status pages fuel _ Hst). fold s1.
    unfold xbind at 1. rewrite (exportCalls_calls_down pages fuel s1 e Hcalls).
    fold s2. exact Htail. }
  rewrite Hr. clear Hr r.
  pose proof (calm_trans _ _ _ Hc2 Hcalm) as Hc3.
  destruct (saveStamped_cases env "gong_export" s3)
    as [(p & s4 & -> & Hcalm4 & _ & Hp & _) | (m & -> & Hexp & Hmk)]; cbn [fst snd].
  - pose proof (calm_trans _ _ _ Hc3 Hcalm4) as [P F T K].
    split; [discriminate |]. split; [exact P |].
    split; [exact (netEvents_mkdirs _ _ T) |].
    split; [exact (apiCalls_mkdirs _ _ T) |].
    split; [exact K |].
    intros _. exists p. split; [reflexivity | apply existsSync_true; exact Hp].
  - destruct Hc3 as [P F T K].
    split; [discriminate |]. split; [exact P |].
    split; [exact (netEvents_mkdirs _ _ T) |].
    split; [exact (apiCalls_mkdirs _ _ T) |].
    split; [exact K |].
    intros Hcan. exfalso. refine (blocked_not_writable env _ m Hexp Hmk _).
    eapply exportsWritable_mono; [| exact Hcan]. exact F.
Qed.

End ExportTheorems.

(** The export at work: a healthy API gives the videos of the extensive
    calls; with the second page refused, those of the plain calls. *)
Example healthy_export_uses_the_extensive_calls :
  let r := exportGongData Scenario.quietEnv ExportScenario.healthy ExportScenario.config
             5 3 (startOfExport ConfigScenario.emptyDisk) in
  r.1 = Ret "exports/gong_export_1700000004100.json"
  /\ option_map (fun v => (method v, totalCalls v, successfulDownloads v))
       (ed_videoDownloadSummary (exportedData r.2))
     = Some ("extensive_calls_api", 3%nat, 3%nat)
  /\ length (posted r.2) = 2%nat.
Proof. vm_compute. repeat split; reflexivity. Qed.

Example refused_page_uses_the_plain_calls :
  let r := exportGongData Scenario.envSigned ExportScenario.pageDown ExportScenario.config
             5 3 (startOfExport ConfigScenario.emptyDisk) in
  option_map (fun v => (method v, totalCalls v, successfulDownloads v))
    (ed_videoDownloadSummary (exportedData r.2))
  = Some ("standard_fallback", 2%nat, 2%nat)
  /\ ed_extensiveCalls (exportedData r.2) = None.
Proof. vm_compute. repeat split; reflexivity. Qed.

(** * The properties at work *)

(** A fresh downloader: the count is within the ceiling after a run of the
    standard method. *)
Lemma daily_count_stays_within_ceiling_witness :
  withinCeiling
    (downloadVideosForCalls Scenario.envSigned (Scenario.downloader None) 3
       (Some [StdScenario.s1; StdScenario.s2]) (Some StdScenario.gong) Scenario.w0).2.
Proof.
  destruct (daily_count_stays_within_ceiling Scenario.envSigned (Scenario.downloader None)
              Scenario.w0 3 None None 0%nat 3%nat 2000 None
              (Some [StdScenario.s1; StdScenario.s2]) (Some StdScenario.gong))
    as (_ & _ & _ & H).
  - simpl. lia.
  - simpl. lia.
  - exact H.
Defined.

(** The exports directory is still there after a run in which every
    download fails. *)
Lemma existing_paths_survive_every_run_witness :
  existsSync "exports"
    (downloadVideosFromExtensiveCalls Scenario.envForbidden (Scenario.downloader None) 3
       (Some [Scenario.c1; Scenario.c2]) Scenario.w0).2 = true.
Proof.
  destruct (existing_paths_survive_every_run Scenario.envForbidden
              (Scenario.downloader None) Scenario.w0 3 None None 0%nat 3%nat 2000
              (Some [Scenario.c1; Scenario.c2]) None None "exports")
    as (_ & H & _).
  - vm_compute. reflexivity.
  - exact H.
Defined.

(** A path returned by [downloadVideo] exists. *)
Lemma returned_paths_exist_witness :
  existsSync "exports/videos/a.mp4"
    (downloadVideo Scenario.quietEnv (Scenario.downloader None) 3
       (Some StdScenario.videoA) None 0 3 2000 Scenario.w0).2 = true.
Proof.
  destruct (returned_paths_exist Scenario.quietEnv (Scenario.downloader None)
              Scenario.w0
              (downloadVideo Scenario.quietEnv (Scenario.downloader None) 3
                 (Some StdScenario.videoA) None 0 3 2000 Scenario.w0).2
              3 (Some StdScenario.videoA) None 0%nat 3%nat 2000 []
              "exports/videos/a.mp4" [])
    as (H & _).
  destruct H as (_ & H & _).
  - vm_compute. reflexivity.
  - exact H.
Defined.

(** S3 answers 403 to everything: with three retries, four attempts and
    three sleeps at most, and a result. *)
Lemma retries_are_bounded_without_429_witness :
  (downloadVideo Scenario.envForbidden (Scenario.downloader None) 3
     (Some StdScenario.videoA) None 0 3 2000 Scenario.w0).1 <> OutOfFuel.
Proof.
  destruct (retries_are_bounded_without_429 Scenario.envForbidden
              (Scenario.downloader None) 3 (Some StdScenario.videoA) None
              0%nat 3%nat 2000 Scenario.w0)
    as (H & _).
  - intros n u auth e _ [= <-]. reflexivity.
  - simpl. lia.
  - exact H.
Defined.

(** A full disk, with the callback of [export.js] installed: the call is
    recorded with the writer's error. *)
Lemma write_error_is_thrown_without_retry_witness :
  exists w'',
    processCall StdScenario.envSignedDiskFull (Scenario.downloader (Some SignedUrlHook)) 3
      Scenario.c1 emptyAcc Scenario.w1
    = (Ret (pushFailure {| f_callId := Some "c1"; f_title := "Weekly Sync";
                           f_detail := Error StdScenario.diskFull |} emptyAcc), w'').
Proof.
  destruct (write_error_is_thrown_without_retry StdScenario.envSignedDiskFull
              (Scenario.downloader (Some SignedUrlHook)) 3 0 3 2000
              "https://signed.example/c1.mp4"
              (Some (filenameFor StdScenario.envSignedDiskFull Scenario.c1
                       StdScenario.videoA))
              (freshVideoUrl StdScenario.envSignedDiskFull
                 (Scenario.downloader (Some SignedUrlHook)) Scenario.c1
                 StdScenario.videoA Scenario.w1).2
              StdScenario.diskFull true)
    as (w' & _ & _ & _ & _ & _ & H).
  - discriminate.
  - vm_compute. reflexivity.
  - vm_compute. reflexivity.
  - reflexivity.
  - reflexivity.
  - destruct (H Scenario.c1 emptyAcc StdScenario.videoA Scenario.w1 [])
      as (w'' & Hp & _).
    + reflexivity.
    + reflexivity.
    + reflexivity.
    + exists w''. exact Hp.
Defined.

(** A full disk, then a working one: the second call returns the path of
    the partial file. *)
Lemma partial_file_is_taken_for_a_download_witness :
  let first := downloadVideo StdScenario.envDiskFull (Scenario.downloader None) 3
                 (Some StdScenario.videoA) None 0 3 2000 Scenario.w1 in
  downloadVideo Scenario.quietEnv (Scenario.downloader None) 3
    (Some StdScenario.videoA) None 0 3 2000 first.2
  = (Ret (Some "exports/videos/a.mp4"), first.2).
Proof.
  intros first.
  destruct (partial_file_is_taken_for_a_download StdScenario.envDiskFull
              (Scenario.downloader None) Scenario.quietEnv 3 3 0 3 0 3 2000 2000
              StdScenario.videoA None Scenario.w1 StdScenario.diskFull)
    as (_ & H).
  - discriminate.
  - vm_compute. reflexivity.
  - vm_compute. reflexivity.
  - reflexivity.
  - reflexivity.
  - exact H.
Defined.

(** A title that is already of the safe form is kept. *)
Lemma sanitized_title_is_safe_witness :
  Js.toLowerCase (Js.replaceNonAlnum "weekly_sync_42") = "weekly_sync_42".
Proof.
  destruct (sanitized_title_is_safe "weekly_sync_42") as (_ & _ & H & _).
  apply H. reflexivity.
Defined.

(** The media endpoint mints a URL: with the callback of [export.js] the
    download is made from it. *)
Lemma export_callback_never_throws_witness :
  (freshVideoUrl Scenario.envSigned (Scenario.downloader (Some SignedUrlHook))
     Scenario.c1 StdScenario.videoA Scenario.w0).1
  = Ret "https://signed.example/c1.mp4".
Proof.
  destruct (export_callback_never_throws Scenario.envSigned
              (Scenario.downloader (Some SignedUrlHook)) "c1" Scenario.w0
              Scenario.c1 StdScenario.videoA)
    as (_ & _ & _ & H).
  rewrite H; reflexivity.
Defined.

(** Two calls, signed and downloaded: the standard method returns. *)
Lemma standard_method_yields_one_outcome_per_call_witness :
  exists acc w',
    forEachStdCall Scenario.envSigned (Scenario.downloader None) 3
      [StdScenario.s1; StdScenario.s2] emptyStdAcc Scenario.w0
    = (Ret acc, w').
Proof.
  destruct (standard_method_yields_one_outcome_per_call Scenario.envSigned
              (Scenario.downloader None) [StdScenario.s1; StdScenario.s2]
              StdScenario.gong Scenario.w0 0 3)
    as ((acc & w' & outs & H & _) & _).
  - intros n u auth e _ H. discriminate H.
  - simpl. lia.
  - exists acc, w'. exact H.
Defined.

(** The media endpoint has no URL for the call: a failure entry, and no
    request for the recording. *)
Lemma unresolved_call_is_recorded_without_download_witness :
  let w1 := (resolveSignedUrl Scenario.quietEnv (Scenario.downloader None)
               StdScenario.s1 Scenario.w0).2 in
  netEvents (trace w1) = [] /\ files w1 = files Scenario.w0.
Proof.
  intros w1.
  destruct (unresolved_call_is_recorded_without_download Scenario.quietEnv
              (Scenario.downloader None) 3 StdScenario.s1 emptyStdAcc Scenario.w0 w1
              (stdFailure StdScenario.s1 (Reason "No signed media URL available")))
    as (_ & _ & _ & _ & H1 & _ & H2 & _).
  - reflexivity.
  - split; [exact H2 | exact H1].
Defined.

(** A callback that answers: its URL is the resolution. *)
Lemma standard_resolution_order_witness :
  (resolveSignedUrl Scenario.quietEnv (Scenario.downloader (Some Scenario.freshHook))
     StdScenario.s1 Scenario.w0).1
  = Ret (Resolved Scenario.freshUrl).
Proof.
  destruct (standard_resolution_order Scenario.quietEnv
              (Scenario.downloader (Some Scenario.freshHook)) StdScenario.s1
              Scenario.w0 "c1" Scenario.freshHook)
    as (H & _).
  - reflexivity.
  - reflexivity.
  - rewrite (H Scenario.freshUrl); [reflexivity | reflexivity | discriminate].
Defined.

(** A record without a title, although a signed URL is minted for it. *)
Lemma untitled_call_is_never_downloaded_witness :
  exists f w1,
    processStdCall Scenario.envSigned (Scenario.downloader None) 3
      StdScenario.sUntitled emptyStdAcc Scenario.w0
    = (Ret (stdPushFailure f emptyStdAcc), w1)
    /\ netEvents (trace w1) = [].
Proof.
  destruct (untitled_call_is_never_downloaded Scenario.envSigned
              (Scenario.downloader None) 3 StdScenario.sUntitled emptyStdAcc Scenario.w0)
    as (f & w1 & H1 & _ & _ & _ & _ & _ & _ & H2).
  - reflexivity.
  - exists f, w1. split; [exact H1 | exact H2].
Defined.

(** The endpoint answers 200 without a URL: two PUTs for one call. *)
Lemma export_callback_doubles_resolution_witness :
  apiCalls (trace (resolveSignedUrl Scenario.quietEnv
                     (Scenario.downloader (Some SignedUrlHook))
                     StdScenario.s1 Scenario.w0).2)
  = [PutOctetStream; PutOctetStream].
Proof.
  destruct (export_callback_doubles_resolution Scenario.quietEnv
              (Scenario.downloader (Some SignedUrlHook)) StdScenario.s1
              Scenario.w0 "c1")
    as (H & _).
  - reflexivity.
  - reflexivity.
  - intros u. vm_compute. discriminate.
  - rewrite H. reflexivity.
Defined.

(** A fresh downloader: the attempts of the standard method are 550 ms
    apart or more. *)
Lemma standard_method_attempts_are_spaced_witness :
  spaced 550
    (attempt_times
       (trace (downloadVideosForCalls Scenario.envSigned (Scenario.downloader None) 3
                 (Some [StdScenario.s1; StdScenario.s2]) (Some StdScenario.gong)
                 Scenario.w0).2)).
Proof.
  destruct (standard_method_attempts_are_spaced Scenario.envSigned
              (Scenario.downloader None) Scenario.w0 3
              (Some [StdScenario.s1; StdScenario.s2]) (Some StdScenario.gong))
    as (_ & H).
  - constructor.
    + simpl. lia.
    + exists 500. reflexivity.
    + simpl. unfold Scenario.t0. lia.
    + simpl. unfold DAY. lia.
    + constructor.
    + constructor.
  - exact H.
Defined.

(** Two pages: three calls, two requests, the first without the stale
    cursor of the options. *)
Lemma pagination_collects_every_page_witness :
  getAllExtensiveCallData PageScenario.twoPages 5 PageScenario.last90Days []
  = (Ret [Scenario.c1; Scenario.c2; Scenario.c4],
     [ {| filter_fromDateTime := Some "2023-12-02T10:00:00.000Z";
          filter_toDateTime := Some "2024-03-01T10:00:00.000Z";
          body_cursor := None |};
       {| filter_fromDateTime := Some "2023-12-02T10:00:00.000Z";
          filter_toDateTime := Some "2024-03-01T10:00:00.000Z";
          body_cursor := Some "p2" |} ]).
Proof.
  destruct (pagination_collects_every_page PageScenario.twoPages PageScenario.last90Days
              [] [PageScenario.page1] PageScenario.page2 1 5 (Some "p2"))
    as (H & _).
  - econstructor; [reflexivity | reflexivity | constructor].
  - reflexivity.
  - reflexivity.
  - simpl. lia.
  - rewrite H. reflexivity.
Defined.

(** The second page is refused: the two calls of the first are lost. *)
Lemma failed_page_rejects_the_whole_retrieval_witness :
  (getAllExtensiveCallData PageScenario.secondPageFails 5 PageScenario.last90Days []).1
  = Throw Scenario.e500.
Proof.
  rewrite (failed_page_rejects_the_whole_retrieval PageScenario.secondPageFails
             PageScenario.last90Days [] [PageScenario.page1] 1 5 (Some "p2")
             (PostFail Scenario.e500) Scenario.e500).
  - reflexivity.
  - econstructor; [reflexivity | reflexivity | constructor].
  - reflexivity.
  - left. reflexivity.
  - simpl. lia.
Defined.

(** The same cursor over and over: a thousand requests and no end. *)
Lemma endless_cursor_never_returns_witness :
  (getAllExtensiveCallData PageScenario.sameCursor 1000 PageScenario.last90Days []).1
  = OutOfFuel.
Proof.
  destruct (endless_cursor_never_returns PageScenario.sameCursor PageScenario.last90Days
              1000 [])
    as (H & _).
  - intros n b. eexists _, _. split; reflexivity.
  - exact H.
Defined.

(** On an empty disk: the export is saved, and a batch with a call that
    has no recording returns. *)
Lemma saved_export_makes_failure_list_writable_witness :
  let w1 := (saveToFile Scenario.quietEnv "calls.json" ConfigScenario.emptyDisk).2 in
  existsSync "exports/calls.json" w1 = true
  /\ exists r w2,
       downloadVideosFromExtensiveCalls Scenario.quietEnv (Scenario.downloader None) 3
         (Some [Scenario.c3]) w1 = (Ret r, w2).
Proof.
  intros w1.
  destruct (saved_export_makes_failure_list_writable Scenario.quietEnv
              (Scenario.downloader None) "calls.json" ConfigScenario.emptyDisk w1
              "exports/calls.json" 0 3 [Scenario.c3] None None)
    as (_ & H1 & _ & _ & H2 & _).
  - reflexivity.
  - intros n u auth e _ H. discriminate H.
  - simpl. lia.
  - split; [exact H1 | exact H2].
Defined.

(** The second page is refused: no extensive call is kept. *)
Lemma failed_retrieval_falls_back_to_the_standard_method_witness :
  ed_extensiveCalls
    (exportedData
       (exportExtensiveCalls Scenario.envSigned ExportScenario.pageDown
          ExportScenario.config 5 3 ExportScenario.callsSaved).2)
  = None.
Proof.
  destruct (failed_retrieval_falls_back_to_the_standard_method Scenario.envSigned
              ExportScenario.pageDown ExportScenario.config 5 3
              ExportScenario.callsSaved [StdScenario.s1; StdScenario.s2])
    as (_ & H & _).
  - reflexivity.
  - vm_compute. reflexivity.
  - right. exists Scenario.e500. vm_compute. reflexivity.
  - rewrite H. reflexivity.
Defined.

(** Two pages are served: their three calls are recorded. *)
Lemma retrieved_calls_are_downloaded_by_the_extensive_method_witness :
  ed_extensiveCalls
    (exportedData
       (exportExtensiveCalls Scenario.quietEnv ExportScenario.healthy
          ExportScenario.config 5 3 ExportScenario.callsSaved).2)
  = Some [Scenario.c1; Scenario.c2; Scenario.c4].
Proof.
  destruct (retrieved_calls_are_downloaded_by_the_extensive_method Scenario.quietEnv
              ExportScenario.healthy ExportScenario.config 5 3
              ExportScenario.callsSaved Scenario.c1 [Scenario.c2; Scenario.c4])
    as (H & _).
  - vm_compute. reflexivity.
  - vm_compute. reflexivity.
  - exact H.
Defined.

(** The credentials are refused: the export fails with the fixed
    message. *)
Lemma refused_status_check_aborts_the_export_witness :
  (exportGongData Scenario.quietEnv ExportScenario.unauthorized ExportScenario.config
     5 3 (startOfExport Scenario.w0)).1
  = Throw (plainError "Failed to connect to Gong API").
Proof.
  destruct (refused_status_check_aborts_the_export Scenario.quietEnv
              ExportScenario.unauthorized ExportScenario.config 5 3
              (startOfExport Scenario.w0)
              (Scenario.err "Request failed with status code 401" (Some 401) None))
    as (H & _).
  - reflexivity.
  - rewrite H. reflexivity.
Defined.

(** The calls, the users and the extensive calls are all refused, on a
    read-only disk: the export still reaches its last save, and fails
    with the error of that save. *)
Lemma export_survives_every_other_failure_witness :
  exists s3,
    exportGongData Scenario.envReadOnly ExportScenario.onlyStatus ExportScenario.config
      5 3 (startOfExport ConfigScenario.emptyDisk)
    = saveStamped Scenario.envReadOnly "gong_export" s3.
Proof.
  destruct (export_survives_every_other_failure Scenario.envReadOnly
              ExportScenario.onlyStatus ExportScenario.config 5 3 0
              ConfigScenario.emptyDisk)
    as (s3 & H & _).
  - reflexivity.
  - intros n u auth e _ H. discriminate H.
  - simpl. lia.
  - intros options sent. vm_compute. discriminate.
  - exists s3. exact H.
Defined.

(** A read-only disk: the export fails with the error of [mkdirSync]. *)
Lemma unwritable_exports_directory_fails_the_export_witness :
  (exportGongData Scenario.envReadOnly ExportScenario.healthy ExportScenario.config
     5 3 (startOfExport ConfigScenario.emptyDisk)).1
  = Throw (plainError "EACCES: permission denied, mkdir").
Proof.
  destruct (unwritable_exports_directory_fails_the_export Scenario.envReadOnly
              ExportScenario.healthy ExportScenario.config 5 3 ConfigScenario.emptyDisk
              "EACCES: permission denied, mkdir")
    as (s' & H & _).
  - reflexivity.
  - vm_compute. reflexivity.
  - reflexivity.
  - rewrite H. reflexivity.
Defined.

(** The plain calls endpoint is down: nothing is posted to the extensive
    one, which would have answered. *)
Lemma failed_calls_export_skips_the_videos_witness :
  posted (exportGongData Scenario.quietEnv ExportScenario.callsDown ExportScenario.config
            5 3 (startOfExport Scenario.w0)).2
  = [].
Proof.
  destruct (failed_calls_export_skips_the_videos Scenario.quietEnv
              ExportScenario.callsDown ExportScenario.config 5 3 Scenario.w0
              Scenario.e500)
    as (_ & H & _).
  - reflexivity.
  - reflexivity.
  - exact H.
Defined.
